(** * Boann security risk agent: the ingestion core, embedded and verified

    A shallow embedding of the document-processing kernel of the agent:
    - [src/shared/document_processor.py]: the chunker
      ([DocumentProcessorManager.chunk_text]), the path safety check, the
      per-document pipeline and the two extractors' metadata;
    - [src/api/public_api.py]: the score normalizer
      ([correct_pgvector_score]), the retrieval step of the [/query]
      endpoint and its event stream ([create_sse_stream]);
    - [src/api/admin_api.py]: the batch loop of the [/ingest] endpoint;
    - [scripts/ingest_documents.py]: the validation and the sending loop
      of the ingestion script.

    Python [str] values are lists of Unicode code points, Python [int]s are
    [Z], Python [float]s are IEEE-754 binary64 ([PrimFloat.float]), [dict]s
    with string keys are [gmap string _], and an operation that may raise
    returns a [result]. *)

From Stdlib Require Import List ZArith NArith Lia Bool String Ascii Floats.
From Stdlib Require Import DecimalString.
From stdpp Require Import gmap strings.
Import ListNotations.

Open Scope Z_scope.

(** ** Python strings *)

(** A character is a Unicode code point. *)
Definition char : Type := N.

(** A Python [str]. *)
Definition str : Type := list char.

(** Reading a literal: each byte of the Rocq string is one code point. *)
Definition py (s : string) : str :=
  List.map N_of_ascii (list_ascii_of_string s).

(** [len(s)] *)
Definition len (s : str) : Z := Z.of_nat (List.length s).

(** Truthiness of a string: [if s:] holds of the non-empty strings. *)
Definition truthy (s : str) : bool :=
  match s with [] => false | _ :: _ => true end.

Definition space : char := 32%N.

(** The white space of [str.strip], [str.split] and of [\s] in a [str]
    pattern: all three test [Py_UNICODE_ISSPACE]. *)
Definition is_space (c : char) : bool :=
  ((9 <=? c) && (c <=? 13) || (28 <=? c) && (c <=? 32)
   || (c =? 133) || (c =? 160) || (c =? 5760)
   || (8192 <=? c) && (c <=? 8202)
   || (c =? 8232) || (c =? 8233) || (c =? 8239) || (c =? 8287)
   || (c =? 12288))%N.

(** [s.lstrip()] *)
Fixpoint lstrip (s : str) : str :=
  match s with
  | [] => []
  | c :: r => if is_space c then lstrip r else s
  end.

(** [s.rstrip()] *)
Fixpoint rstrip (s : str) : str :=
  match s with
  | [] => []
  | c :: r =>
      match rstrip r with
      | [] => if is_space c then [] else [c]
      | r' => c :: r'
      end
  end.

(** [s.strip()] *)
Definition strip (s : str) : str := lstrip (rstrip s).

(** [re.sub(r"\s+", " ", s)]: every maximal run of white space becomes one
    space. [in_run] tells that the previous character belonged to a run
    whose replacement has been written. *)
Fixpoint sub_ws (in_run : bool) (s : str) : str :=
  match s with
  | [] => []
  | c :: r =>
      if is_space c
      then if in_run then sub_ws true r else space :: sub_ws true r
      else c :: sub_ws false r
  end.

Definition re_sub_ws (s : str) : str := sub_ws false s.

(** The character class [[.!?]]. *)
Definition is_terminator (c : char) : bool :=
  ((c =? 46) || (c =? 33) || (c =? 63))%N.

(** Puts a character in front of the piece being read. *)
Definition cons_head (c : char) (pieces : list str) : list str :=
  match pieces with
  | [] => [[c]]
  | p :: ps => (c :: p) :: ps
  end.

(** [re.split(r"(?<=[.!?])\s+", s)]: a separator is a maximal run of white
    space whose first character follows a terminator. [after_term] tells
    that the previous character is a terminator, [in_sep] that it belongs to
    a separator. The result always has a first piece, and a separator at
    the very end leaves an empty last piece, as [re.split] does. *)
Fixpoint split_sentences (after_term in_sep : bool) (s : str) : list str :=
  match s with
  | [] => [[]]
  | c :: r =>
      if is_space c && in_sep then split_sentences false true r
      else if is_space c && after_term then [] :: split_sentences false true r
      else cons_head c (split_sentences (is_terminator c) false r)
  end.

Definition re_split_sentences (s : str) : list str :=
  split_sentences false false s.

(** Splitting at every character that satisfies [sep]: the fields between
    them, empty ones included ([s.split("/")] when [sep] tests for the
    slash). *)
Fixpoint fields_by (sep : char -> bool) (s : str) : list str :=
  match s with
  | [] => [[]]
  | c :: r =>
      if sep c then [] :: fields_by sep r else cons_head c (fields_by sep r)
  end.

(** [s.split()]: the maximal runs of characters that are not white space. *)
Definition str_split (s : str) : list str :=
  List.filter truthy (fields_by is_space s).

(** [s[-k:]] for [k > 0]: the last [k] characters, all of [s] when it is
    shorter. *)
Definition last_chars (k : Z) (s : str) : str :=
  List.skipn (List.length s - Z.to_nat k)%nat s.

(** [sep.join(l)] for a separator of one character. *)
Fixpoint join (sep : char) (l : list str) : str :=
  match l with
  | [] => []
  | [x] => x
  | x :: rest => x ++ sep :: join sep rest
  end.

(** [" ".join(l)] *)
Definition join_space (l : list str) : str := join space l.

(** ** The chunker *)

(** The configuration read by [DocumentProcessorManager.__init__]. *)
Record DocumentProcessorManager : Type := {
  chunk_size : Z;
  chunk_overlap : Z;
  max_file_size : Z
}.

(** The sentence loop of [chunk_text] (the [for sentence in sentences]
    block): [chunks] is the list built so far, [current_chunk] the buffer. *)
Fixpoint accumulate (size overlap : Z) (sentences : list str)
    (chunks : list str) (current_chunk : str) : list str * str :=
  match sentences with
  | [] => (chunks, current_chunk)
  | sentence :: rest =>
      if (len current_chunk + len sentence >? size) && truthy current_chunk
      then
        let chunks' := chunks ++ [strip current_chunk] in
        if (overlap >? 0) && (len current_chunk >? overlap)
        then accumulate size overlap rest chunks'
               (last_chars overlap current_chunk ++ space :: sentence)
        else accumulate size overlap rest chunks' sentence
      else
        if truthy current_chunk
        then accumulate size overlap rest chunks
               (current_chunk ++ space :: sentence)
        else accumulate size overlap rest chunks sentence
  end.

(** The list [chunks] of [chunk_text] as it stands before the long chunks
    are split again: the sentence loop, then the last buffer if it holds
    anything but white space. *)
Definition sentence_chunks (size overlap : Z) (text : str) : list str :=
  let '(chunks, current_chunk) :=
    accumulate size overlap (re_split_sentences text) [] [] in
  if truthy (strip current_chunk)
  then chunks ++ [strip current_chunk]
  else chunks.

(** The word loop over one long chunk (the [for word in words] block). *)
Fixpoint pack_words (size : Z) (words : list str)
    (final_chunks : list str) (current_sub_chunk : str) : list str * str :=
  match words with
  | [] => (final_chunks, current_sub_chunk)
  | word :: rest =>
      if len current_sub_chunk + len word + 1 <=? size
      then
        if truthy current_sub_chunk
        then pack_words size rest final_chunks
               (current_sub_chunk ++ space :: word)
        else pack_words size rest final_chunks word
      else
        pack_words size rest
          (if truthy current_sub_chunk
           then final_chunks ++ [current_sub_chunk]
           else final_chunks)
          word
  end.

(** One turn of the [for chunk in chunks] loop. *)
Definition resplit (size : Z) (final_chunks : list str) (chunk : str)
    : list str :=
  if len chunk <=? size then final_chunks ++ [chunk]
  else
    let '(final_chunks', current_sub_chunk) :=
      pack_words size (str_split chunk) final_chunks [] in
    if truthy current_sub_chunk
    then final_chunks' ++ [current_sub_chunk]
    else final_chunks'.

(** The text after cleaning: [re.sub(r"\s+", " ", text.strip())]. *)
Definition clean_text (text : str) : str := re_sub_ws (strip text).

(** [if chunk_size is None: chunk_size = self.chunk_size] *)
Definition size_in_force (self : DocumentProcessorManager)
    (chunk_size_arg : option Z) : Z :=
  match chunk_size_arg with None => chunk_size self | Some n => n end.

(** [DocumentProcessorManager.chunk_text(text, chunk_size=None)] *)
Definition chunk_text (self : DocumentProcessorManager) (text : str)
    (chunk_size_arg : option Z) : list str :=
  let size := size_in_force self chunk_size_arg in
  if negb (truthy text) || negb (truthy (strip text)) then []
  else
    let text := clean_text text in
    if len text <=? size then [text]
    else
      List.fold_left (resplit size)
        (sentence_chunks size (chunk_overlap self) text) [].

(** The manager with the given size and overlap and the default size
    ceiling. *)
Definition manager (size overlap : Z) : DocumentProcessorManager :=
  {| chunk_size := size; chunk_overlap := overlap;
     max_file_size := 104857600 |}.

(** [str(n)] for an [int]: its decimal writing. *)
Definition str_of_int (z : Z) : str :=
  py (DecimalString.NilZero.string_of_int (Z.to_int z)).

(** ** Exceptions *)

(** The exception classes that the code tells apart; [RuntimeError] stands
    for every other subclass of [Exception]. *)
Inductive exn_kind : Type :=
  | ValueError
  | TypeError
  | OverflowError
  | ZeroDivisionError
  | OSError
  | RuntimeError.

(** An exception: its class and [str(e)]. *)
Record exn : Type := { kind : exn_kind; message : str }.

(** The outcome of an operation that may raise. *)
Inductive result (A : Type) : Type :=
  | Ok (a : A)
  | Raise (e : exn).
Arguments Ok {A} a.
Arguments Raise {A} e.

Definition bind {A B : Type} (c : result A) (k : A -> result B) : result B :=
  match c with
  | Ok a => k a
  | Raise e => Raise e
  end.

Notation "'let!' x ':=' c 'in' k" := (bind c (fun x => k))
  (at level 10, x name, c at level 100, k at level 200).

Definition exn_kind_eqb (a b : exn_kind) : bool :=
  match a, b with
  | ValueError, ValueError | TypeError, TypeError
  | OverflowError, OverflowError | ZeroDivisionError, ZeroDivisionError
  | OSError, OSError | RuntimeError, RuntimeError => true
  | _, _ => false
  end.

(** [except (k1, k2, ...)]: does the clause catch [e]? *)
Definition catches (kinds : list exn_kind) (e : exn) : bool :=
  List.existsb (exn_kind_eqb (kind e)) kinds.

Definition raise {A : Type} (k : exn_kind) (msg : string) : result A :=
  Raise {| kind := k; message := py msg |}.

(** Equality of strings, [a == b]. *)
Fixpoint str_eqb (a b : str) : bool :=
  match a, b with
  | [], [] => true
  | x :: a', y :: b' => (x =? y)%N && str_eqb a' b'
  | _, _ => false
  end.

(** ** The score normalizer *)

(** The Python values a score may be. *)
#[local] Unset Elimination Schemes.
Inductive value : Type :=
  | VNone
  | VStr (s : str)
  | VBool (b : bool)
  | VInt (z : Z)
  | VFloat (f : float)
  | VList (l : list value).
#[local] Set Elimination Schemes.

(** [float(n)] for an [int]: the nearest binary64, [OverflowError] when
    that is out of range. *)
Definition int_to_float (z : Z) : result float :=
  let f := SF2Prim (SpecFloat.binary_normalize prec emax z 0 false) in
  if PrimFloat.eqb (PrimFloat.abs f) infinity
  then raise OverflowError "int too large to convert to float"
  else Ok f.

(** [a / b] on floats. *)
Definition float_div (a b : float) : result float :=
  if PrimFloat.eqb b 0%float
  then raise ZeroDivisionError "float division by zero"
  else Ok (a / b)%float.

(** [min(a, b)] and [max(a, b)]: the first argument is kept unless the
    second is strictly smaller (larger). *)
Definition py_min (a b : float) : float := if PrimFloat.ltb b a then b else a.
Definition py_max (a b : float) : float := if PrimFloat.ltb a b then b else a.

Section Normalizer.

(** [float(s)] for a string, [None] when it raises [ValueError]. *)
Variable float_of_str : str -> option float.

(** [float(score)]; the messages of [TypeError] are those of CPython 3.10
    and later. *)
Definition to_float (score : value) : result float :=
  match score with
  | VFloat f => Ok f
  | VInt z => int_to_float z
  | VBool b => Ok (if b then 1%float else 0%float)
  | VStr s =>
      match float_of_str s with
      | Some f => Ok f
      | None => raise ValueError "could not convert string to float"
      end
  | VNone =>
      raise TypeError
        "float() argument must be a string or a real number, not 'NoneType'"
  | VList _ =>
      raise TypeError
        "float() argument must be a string or a real number, not 'list'"
  end.

(** The body of the [try] block of [correct_pgvector_score]. *)
Definition corrected_score (score : value) : result value :=
  let! score_float := to_float score in
  if PrimFloat.eqb score_float infinity then Ok (VFloat 1%float)
  else if PrimFloat.leb score_float 0%float then Ok (VFloat 0%float)
  else
    let! original_distance := float_div 1%float score_float in
    let corrected_similarity := (1 - original_distance)%float in
    let clamped_similarity :=
      py_max (-1)%float (py_min 1%float corrected_similarity) in
    let normalized_score := ((clamped_similarity + 1) / 2)%float in
    Ok (VFloat normalized_score).

Definition is_na (score : value) : bool :=
  match score with VStr s => str_eqb s (py "N/A") | _ => false end.

Definition is_none (score : value) : bool :=
  match score with VNone => true | _ => false end.

(** [correct_pgvector_score(score)]; the two [logger.info] calls write a
    log line and nothing else. *)
Definition correct_pgvector_score (score : value) : result value :=
  if is_na score || is_none score then Ok score
  else
    match corrected_score score with
    | Ok v => Ok v
    | Raise e =>
        if catches [ValueError; ZeroDivisionError] e then Ok score
        else Raise e
    end.

End Normalizer.

(** Clamping [x] to the interval from [lo] to [hi], as the code writes it:
    [max(lo, min(hi, x))]. *)
Definition clamp (lo hi x : float) : float := py_max lo (py_min hi x).

(** ** Paths *)

Definition slash : char := 47%N.
Definition dot : char := 46%N.
Definition is_slash (c : char) : bool := (c =? slash)%N.

(** A [pathlib] path on a POSIX system: its root (nothing, one slash or two)
    and its components. *)
Record PurePath : Type := { root : str; parts : list str }.

(** [posixpath.splitroot]: the root and the rest; exactly two leading
    slashes are kept as a root of their own. *)
Definition splitroot (p : str) : str * str :=
  match p with
  | a :: r =>
      if is_slash a then
        match r with
        | b :: r2 =>
            if is_slash b then
              match r2 with
              | c :: _ =>
                  if is_slash c then ([slash], r) else ([slash; slash], r2)
              | [] => ([slash; slash], r2)
              end
            else ([slash], r)
        | [] => ([slash], r)
        end
      else ([], p)
  | [] => ([], p)
  end.

(** A component is kept unless it is empty or a single dot. *)
Definition keep_part (x : str) : bool := truthy x && negb (str_eqb x [dot]).

(** [Path(s)] *)
Definition Path (s : str) : PurePath :=
  let '(rt, rel) := splitroot s in
  {| root := rt; parts := List.filter keep_part (fields_by is_slash rel) |}.

(** [str(path)] *)
Definition path_str (p : PurePath) : str :=
  let s := root p ++ join slash (parts p) in
  if truthy s then s else [dot].

(** [path.name]: the last component. *)
Definition name (p : PurePath) : str := List.last (parts p) [].

(** The part of [s] from its last dot on, if it has a dot. *)
Fixpoint from_last_dot (s : str) : option str :=
  match s with
  | [] => None
  | c :: r =>
      match from_last_dot r with
      | Some x => Some x
      | None => if (c =? dot)%N then Some s else None
      end
  end.

(** [path.suffix]: from the last dot of the name, unless that dot is the
    first or the last character. *)
Definition suffix (p : PurePath) : str :=
  match name p with
  | [] => []
  | _ :: r =>
      match from_last_dot r with
      | Some x => if (1 <? List.length x)%nat then x else []
      | None => []
      end
  end.

(** [s.lower()] on the letters A to Z; no other character lower-cases to a
    letter of [".pdf"] or [".json"], the only strings the result is
    compared with. *)
Definition lower (s : str) : str :=
  List.map (fun c => if ((65 <=? c) && (c <=? 90))%N then (c + 32)%N else c) s.

(** [".." in s] *)
Fixpoint has_dotdot (s : str) : bool :=
  match s with
  | a :: r =>
      match r with
      | b :: _ => (a =? dot)%N && (b =? dot)%N || has_dotdot r
      | [] => false
      end
  | [] => false
  end.

(** ** Documents and metadata *)

(** A parsed JSON document; an object keeps its keys in the order of the
    file. *)
#[local] Unset Elimination Schemes.
Inductive json : Type :=
  | JNull
  | JBool (b : bool)
  | JInt (z : Z)
  | JFloat (f : float)
  | JString (s : str)
  | JArray (items : list json)
  | JObject (members : list (str * json)).

(** The values found in a metadata mapping. [MChunkId d i] stands for the
    string [f"{d}_chunk_{i}"]. *)
Inductive meta : Type :=
  | MStr (s : str)
  | MInt (z : Z)
  | MKeys (l : list str)
  | MJson (j : json)
  | MChunkId (document_id : meta) (i : Z).
#[local] Set Elimination Schemes.

(** What [pypdf] reports as the document information: every field may be
    absent, and reading a field may raise. *)
Record DocumentInformation : Type := {
  title : result (option str);
  author : result (option str);
  subject : result (option str);
  creator : result (option str);
  producer : result (option str);
  creation_date : result (option str);
  modification_date : result (option str)
}.

(** An opened [pypdf.PdfReader]: the document information and the text of
    each page ([page.extract_text()] may raise). *)
Record PdfReader : Type := {
  reader_metadata : option DocumentInformation;
  pages : result (list (result str))
}.

(** The kinds of document processors, in the order of
    [DocumentProcessorManager.processors]. *)
Inductive processor : Type := PDF | JSON.

(** An uploaded file, as the endpoint receives it: [file.filename],
    [file.size] (absent when the client did not tell) and the identity of
    the stream [file.file]. *)
Record UploadFile : Type := {
  filename : str;
  size : option Z;
  file : nat
}.

(** What lies outside the program: the file system, the two parsing
    libraries, the decimal and value formatting of Python and the vector
    store. [temp_prefix] is the path of a fresh temporary file without its
    suffix, [copy_upload f p] copies the stream of [f] to the file [p]. *)
Record World : Type := {
  pypdf : bool;
  path_exists : str -> result bool;
  path_is_file : str -> result bool;
  stat_size : str -> result Z;
  open_pdf : str -> result PdfReader;
  json_load : str -> result json;
  read_text : str -> result str;
  format_value : json -> str;
  temp_prefix : UploadFile -> result str;
  copy_upload : UploadFile -> str -> result unit;
  vector_insert : list (str * gmap string meta) -> result unit
}.

(** Truthiness of an optional string: [None] and [""] are false. *)
Definition present (o : option str) : option str :=
  match o with
  | Some s => if truthy s then Some s else None
  | None => None
  end.

(** [if field: metadata[key] = field] *)
Definition add_if_present (key : string) (field : result (option str))
    (metadata : gmap string meta) : result (gmap string meta) :=
  let! v := field in
  match present v with
  | Some s => Ok (<[key := MStr s]> metadata)
  | None => Ok metadata
  end.

Module PDFProcessor.

Definition supported_extensions (w : World) : list str :=
  if pypdf w then [py ".pdf"] else [].

(** [PDFProcessor._basic_metadata] *)
Definition _basic_metadata : gmap string meta :=
  {[ "file_extension" := MStr (py ".pdf");
     "processing_method" := MStr (py "basic");
     "processor" := MStr (py "PDFProcessor") ]}.

(** The [try] block of [extract_metadata]. *)
Definition read_metadata (w : World) (file_path : str)
    : result (gmap string meta) :=
  let! pdf_reader := open_pdf w file_path in
  let metadata : gmap string meta :=
    {[ "file_extension" := MStr (py ".pdf");
       "processing_method" := MStr (py "pypdf");
       "processor" := MStr (py "PDFProcessor") ]} in
  let! metadata :=
    match reader_metadata pdf_reader with
    | Some pdf_meta =>
        let! m := add_if_present "title" (title pdf_meta) metadata in
        let! m := add_if_present "author" (author pdf_meta) m in
        let! m := add_if_present "subject" (subject pdf_meta) m in
        let! m := add_if_present "creator" (creator pdf_meta) m in
        let! m := add_if_present "producer" (producer pdf_meta) m in
        let! m :=
          add_if_present "creation_date" (creation_date pdf_meta) m in
        add_if_present "modification_date" (modification_date pdf_meta) m
    | None => Ok metadata
    end in
  let! pgs := pages pdf_reader in
  Ok (<["page_count" := MInt (Z.of_nat (List.length pgs))]> metadata).

(** [PDFProcessor.extract_metadata(file_path)] *)
Definition extract_metadata (w : World) (file_path : str)
    : gmap string meta :=
  if negb (pypdf w) then _basic_metadata
  else
    match read_metadata w file_path with
    | Ok metadata => metadata
    | Raise _ => _basic_metadata
    end.

(** The loop [for page in pdf_reader.pages: text += page.extract_text() +
    "\n"]. *)
Fixpoint pages_text (pgs : list (result str)) (text : str) : result str :=
  match pgs with
  | [] => Ok text
  | page :: rest =>
      let! t := page in
      pages_text rest (text ++ t ++ [10%N])
  end.

(** [PDFProcessor.extract_text(file_path)] *)
Definition extract_text (w : World) (file_path : str) : result str :=
  if negb (pypdf w)
  then raise RuntimeError "pypdf not available for PDF processing"
  else
    match
      (let! pdf_reader := open_pdf w file_path in
       let! pgs := pages pdf_reader in
       let! text := pages_text pgs [] in
       Ok (strip text))
    with
    | Ok text => Ok text
    | Raise _ => Ok []
    end.

End PDFProcessor.

(** [isinstance(v, (dict, list))] *)
Definition is_container (v : json) : bool :=
  match v with JArray _ | JObject _ => true | _ => false end.

(** The fields that [JSONProcessor.extract_metadata] looks for. *)
Definition common_fields : list string :=
  ["title"; "name"; "description"; "summary"; "version"; "date"; "author"]%string.

(** [data[key]] on the members of an object, [None] when [key not in
    data]. *)
Fixpoint member (key : str) (members : list (str * json)) : option json :=
  match members with
  | [] => None
  | (k, v) :: rest => if str_eqb k key then Some v else member key rest
  end.

Module JSONProcessor.

Definition supported_extensions : list str := [py ".json"].

(** The local function [extract_text_recursive] of [extract_text], as the
    list of the lines it appends to [text_parts]. *)
Fixpoint extract_text_recursive (w : World) (obj : json) (prefix : str)
    {struct obj} : list str :=
  match obj with
  | JObject members =>
      (fix each (l : list (str * json)) : list str :=
         match l with
         | [] => []
         | (key, v) :: rest =>
             (if is_container v
              then extract_text_recursive w v (prefix ++ key ++ py ": ")
              else [prefix ++ key ++ py ": " ++ format_value w v])
             ++ each rest
         end) members
  | JArray items =>
      (fix each (i : Z) (l : list json) : list str :=
         match l with
         | [] => []
         | item :: rest =>
             (if is_container item
              then extract_text_recursive w item
                     (prefix ++ py "[" ++ str_of_int i ++ py "] ")
              else [prefix ++ py "[" ++ str_of_int i ++ py "] "
                           ++ format_value w item])
             ++ each (i + 1) rest
         end) 0 items
  | _ => [prefix ++ format_value w obj]
  end.

(** [JSONProcessor.extract_text(file_path)] *)
Definition extract_text (w : World) (file_path : str) : result str :=
  match json_load w file_path with
  | Ok data => Ok (join 10%N (extract_text_recursive w data []))
  | Raise _ => Ok []
  end.

(** The loop over the common fields: [if field in data: metadata[field] =
    data[field]]. *)
Definition copy_fields (members : list (str * json))
    (metadata : gmap string meta) : gmap string meta :=
  List.fold_left
    (fun m field =>
       match member (py field) members with
       | Some v => <[field := MJson v]> m
       | None => m
       end)
    common_fields metadata.

(** [JSONProcessor.extract_metadata(file_path)] *)
Definition extract_metadata (w : World) (file_path : str)
    : gmap string meta :=
  match json_load w file_path with
  | Ok data =>
      let metadata : gmap string meta :=
        {[ "file_extension" := MStr (py ".json");
           "processing_method" := MStr (py "json_parser");
           "processor" := MStr (py "JSONProcessor") ]} in
      match data with
      | JObject members =>
          copy_fields members
            (<["json_structure" := MStr (py "object")]>
               (<["json_keys" := MKeys (List.map fst members)]> metadata))
      | JArray items =>
          <["json_array_length" := MInt (Z.of_nat (List.length items))]>
            (<["json_structure" := MStr (py "array")]> metadata)
      | _ => metadata
      end
  | Raise _ => ∅
  end.

End JSONProcessor.

(** ** The per-document pipeline *)

(** [processor.can_process(file_path)] *)
Definition can_process (w : World) (p : processor) (file_path : str) : bool :=
  List.existsb (str_eqb (lower (suffix (Path file_path))))
    match p with
    | PDF => PDFProcessor.supported_extensions w
    | JSON => JSONProcessor.supported_extensions
    end.

(** [DocumentProcessorManager.get_processor(file_path)] *)
Definition get_processor (w : World) (file_path : str) : option processor :=
  List.find (fun p => can_process w p file_path) [PDF; JSON].

(** [DocumentProcessorManager._is_safe_path(file_path)] *)
Definition _is_safe_path (w : World) (file_path : PurePath) : result bool :=
  match
    (if has_dotdot (path_str file_path) then Ok false
     else
       let! e := path_exists w (path_str file_path) in
       if negb e then Ok false
       else
         let! f := path_is_file w (path_str file_path) in
         if negb f then Ok false else Ok true)
  with
  | Ok b => Ok b
  | Raise e => if catches [OSError; ValueError] e then Ok false else Raise e
  end.

(** The calls that [process_document] makes to read the document. *)
Inductive call : Type :=
  | ExtractText (p : processor) (file_path : str)
  | ExtractMetadata (p : processor) (file_path : str)
  | ReadText (file_path : str).

(** The triple [(text, metadata, success)]. *)
Definition document : Type := str * gmap string meta * bool.

(** The triple [("", {}, False)]. *)
Definition rejected : document := ([], ∅, false).

(** The end of [process_document]: a text of white space only is
    rejected. *)
Definition finish (text : str) (metadata : gmap string meta) : document :=
  if negb (truthy (strip text)) then rejected else (text, metadata, true).

(** The [try] block of [process_document], with the calls it makes; an
    exception inside it gives the rejected triple. *)
Definition read_document (self : DocumentProcessorManager) (w : World)
    (file_path : PurePath) : list call * document :=
  let p := path_str file_path in
  match stat_size w p with
  | Raise _ => ([], rejected)
  | Ok file_size =>
      if file_size >? max_file_size self then ([], rejected)
      else
        match get_processor w p with
        | Some proc =>
            match
              match proc with
              | PDF => PDFProcessor.extract_text w p
              | JSON => JSONProcessor.extract_text w p
              end
            with
            | Raise _ => ([ExtractText proc p], rejected)
            | Ok text =>
                let metadata :=
                  match proc with
                  | PDF => PDFProcessor.extract_metadata w p
                  | JSON => JSONProcessor.extract_metadata w p
                  end in
                ([ExtractText proc p; ExtractMetadata proc p],
                 finish text metadata)
            end
        | None =>
            match read_text w p with
            | Raise _ => ([ReadText p], rejected)
            | Ok text =>
                let metadata : gmap string meta :=
                  {[ "file_extension" := MStr (suffix file_path);
                     "processing_method" := MStr (py "direct_file_read");
                     "processor" := MStr (py "none") ]} in
                ([ReadText p], finish text metadata)
            end
        end
  end.

(** [DocumentProcessorManager.process_document(file_path)]: the calls made
    and the triple returned. The safety check stands outside the [try]
    block, so what it raises leaves the method. *)
Definition process_document (self : DocumentProcessorManager) (w : World)
    (file_path : str) : list call * result document :=
  let file_path := Path file_path in
  match _is_safe_path w file_path with
  | Raise e => ([], Raise e)
  | Ok false => ([], Ok rejected)
  | Ok true =>
      let '(calls, doc) := read_document self w file_path in (calls, Ok doc)
  end.

(** ** The ingestion endpoint *)

(** The dictionary [stats]. *)
Record Stats : Type := {
  processed_files : Z;
  failed_files : Z;
  errors : list str
}.

(** [stats["failed_files"] += 1; stats["errors"].append(error_msg)] *)
Definition record_failure (stats : Stats) (error_msg : str) : Stats :=
  {| processed_files := processed_files stats;
     failed_files := failed_files stats + 1;
     errors := errors stats ++ [error_msg] |}.

(** [stats["processed_files"] += 1] *)
Definition record_success (stats : Stats) : Stats :=
  {| processed_files := processed_files stats + 1;
     failed_files := failed_files stats;
     errors := errors stats |}.

(** A batch handed to the vector store: the chunks of one document, each
    with its metadata. *)
Definition batch : Type := list (str * gmap string meta).

(** The metadata of chunk [i]: those of the document, then the fields of
    the ingestion, which win over them. *)
Definition chunk_metadata (metadata : gmap string meta) (file_name : str)
    (total : Z) (i : Z) : gmap string meta :=
  let document_id := default (MStr file_name) (metadata !! "document_id") in
  <["chunk_id" := MChunkId document_id i]>
    (<["document_id" := document_id]>
       (<["file_name" := MStr file_name]>
          (<["total_chunks" := MInt total]>
             (<["chunk_index" := MInt i]> metadata)))).

(** The loop [for i, chunk in enumerate(chunks)] that builds
    [batch_chunks]. *)
Fixpoint batch_chunks (metadata : gmap string meta) (file_name : str)
    (total : Z) (i : Z) (chunks : list str) : batch :=
  match chunks with
  | [] => []
  | chunk :: rest =>
      (chunk, chunk_metadata metadata file_name total i)
      :: batch_chunks metadata file_name total (i + 1) rest
  end.

(** [file.size and file.size > max_size] *)
Definition oversize (f : UploadFile) (max_size : Z) : bool :=
  match size f with
  | Some n => negb (n =? 0) && (n >? max_size)
  | None => false
  end.

(** The inner [try] block for one file: the batch stored, or nothing when
    the document gave no text. *)
Definition process_upload (self : DocumentProcessorManager) (w : World)
    (f : UploadFile) (tmp_file_path : str) : result (option batch) :=
  let! doc := snd (process_document self w tmp_file_path) in
  let '(text, metadata_from_doc_processor, success) := doc in
  if success && truthy (strip text) then
    let chunks := chunk_text self text (Some (chunk_size self)) in
    let batch_chunks :=
      batch_chunks metadata_from_doc_processor (filename f)
        (Z.of_nat (List.length chunks)) 0 chunks in
    let! _ := vector_insert w batch_chunks in
    Ok (Some batch_chunks)
  else Ok None.

(** The body of the loop [for file in files] of [ingest_documents]: the
    statistics and the batches stored so far, before and after one file.
    The temporary file is removed in the [finally] clause, which swallows
    what the removal raises. *)
Definition ingest_file (self : DocumentProcessorManager) (w : World)
    (state : Stats * list batch) (f : UploadFile) : Stats * list batch :=
  let '(stats, stored) := state in
  let max_size := max_file_size self in
  if oversize f max_size then
    (record_failure stats
       (py "File " ++ filename f ++ py " exceeds maximum size ("
          ++ str_of_int max_size ++ py " bytes)"),
     stored)
  else
    match
      (let! prefix := temp_prefix w f in
       let tmp_file_path := prefix ++ py "_" ++ filename f in
       let! _ := copy_upload w f tmp_file_path in
       Ok tmp_file_path)
    with
    | Raise file_error =>
        (record_failure stats
           (py "File handling error for " ++ filename f ++ py ": "
              ++ message file_error),
         stored)
    | Ok tmp_file_path =>
        match process_upload self w f tmp_file_path with
        | Ok (Some b) => (record_success stats, stored ++ [b])
        | Ok None =>
            (record_failure stats
               (py "Failed to extract text from " ++ filename f),
             stored)
        | Raise proc_error =>
            (record_failure stats
               (py "Processing error for " ++ filename f ++ py ": "
                  ++ message proc_error),
             stored)
        end
    end.

(** The statistics at the start of a run. *)
Definition no_stats : Stats :=
  {| processed_files := 0; failed_files := 0; errors := [] |}.

(** The whole loop: the final statistics and the batches stored, in
    order. *)
Definition ingest (self : DocumentProcessorManager) (w : World)
    (files : list UploadFile) : Stats * list batch :=
  List.fold_left (ingest_file self w) files (no_stats, []).

(** The model [IngestResponse]. *)
Record IngestResponse : Type := {
  success : bool;
  response_message : str;
  response_processed_files : Z;
  response_failed_files : Z;
  response_errors : list str
}.

(** [ingest_documents(files)] once the client and the RAG switch have been
    checked: the response and the batches stored. *)
Definition ingest_documents (self : DocumentProcessorManager) (w : World)
    (files : list UploadFile) : IngestResponse * list batch :=
  let '(stats, stored) := ingest self w files in
  let total_files := Z.of_nat (List.length files) in
  let msg :=
    if processed_files stats =? total_files then
      py "Successfully ingested " ++ str_of_int (processed_files stats)
        ++ py " documents"
    else if processed_files stats >? 0 then
      py "Partially successful: " ++ str_of_int (processed_files stats)
        ++ py "/" ++ str_of_int total_files ++ py " documents ingested"
    else
      py "Failed to ingest any documents. "
        ++ str_of_int (failed_files stats) ++ py " files failed" in
  ({| success := processed_files stats >? 0;
      response_message := msg;
      response_processed_files := processed_files stats;
      response_failed_files := failed_files stats;
      response_errors := errors stats |},
   stored).

(** ** Shapes of strings, for the statements *)

(** No character of [s] is white space. *)
Definition no_space (s : str) : bool :=
  List.forallb (fun c => negb (is_space c)) s.

(** [s] begins with a character that is not white space. *)
Definition starts_solid (s : str) : bool :=
  match s with
  | [] => false
  | c :: _ => negb (is_space c)
  end.

(** [s] ends with a character that is not white space. *)
Fixpoint ends_solid (s : str) : bool :=
  match s with
  | [] => false
  | [c] => negb (is_space c)
  | _ :: r => ends_solid r
  end.

(** Every white-space character of [s] is a space and stands right before a
    character that is not white space. *)
Fixpoint tight (s : str) : bool :=
  match s with
  | [] => true
  | c :: r =>
      (if is_space c then (c =? space)%N && starts_solid r else true)
      && tight r
  end.

(** The shape of a cleaned text: words separated by single spaces. *)
Definition tidy (s : str) : bool := starts_solid s && tight s.

(** [a] is the beginning of [b]: [b.startswith(a)]. *)
Fixpoint startswith (b a : str) {struct a} : bool :=
  match a with
  | [] => true
  | x :: a' =>
      match b with
      | y :: b' => (x =? y)%N && startswith b' a'
      | [] => false
      end
  end.

(** The sum of the lengths, [sum(len(c) for c in l)]. *)
Definition total_len (l : list str) : Z :=
  List.fold_right (fun c n => len c + n) 0 l.

(** The buffer as a list: nothing when it is empty. *)
Definition held (cur : str) : list str := if truthy cur then [cur] else [].

(** The length of a list of strings once joined, counting a separator after
    each of them. *)
Definition weight (l : list str) : Z := total_len l + Z.of_nat (List.length l).

(** The weight of the words of a string. *)
Definition words_weight (s : str) : Z := weight (str_split s).

(** The weight of the words of all the strings of a list. *)
Definition all_words_weight (l : list str) : Z :=
  weight (List.flat_map str_split l).


(** Every two consecutive elements of [l] are related by [R]. *)
Fixpoint linked (R : str -> str -> Prop) (l : list str) : Prop :=
  match l with
  | a :: r =>
      match r with
      | b :: _ => R a b /\ linked R r
      | [] => True
      end
  | [] => True
  end.

(** The three keys that every metadata mapping should hold. *)
Definition has_basic_keys (metadata : gmap string meta) : Prop :=
  is_Some (metadata !! "file_extension")
  /\ is_Some (metadata !! "processing_method")
  /\ is_Some (metadata !! "processor").

(** Adding up two statistics. *)
Definition add_stats (a b : Stats) : Stats :=
  {| processed_files := processed_files a + processed_files b;
     failed_files := failed_files a + failed_files b;
     errors := errors a ++ errors b |}.

(** The message [msg] holds the name [name]. *)
Definition mentions (msg name : str) : Prop :=
  exists pre post, msg = pre ++ name ++ post.

(** What one file alone does to the statistics and to the store. *)
Definition ingest_alone (self : DocumentProcessorManager) (w : World)
    (f : UploadFile) : Stats * list batch :=
  ingest_file self w (no_stats, []) f.

(** A world in which every path is a regular file that holds [text], no
    file is a PDF or a JSON document, and the store accepts every batch. *)
Definition uniform_world (text : str) : World :=
  {| pypdf := true;
     path_exists := fun _ => Ok true;
     path_is_file := fun _ => Ok true;
     stat_size := fun _ => Ok (len text);
     open_pdf := fun _ => raise RuntimeError "not a PDF file";
     json_load := fun _ => raise ValueError "not a JSON file";
     read_text := fun _ => Ok text;
     format_value := fun _ => [];
     temp_prefix := fun f => Ok (py "/tmp/tmp" ++ str_of_int (Z.of_nat (file f)));
     copy_upload := fun _ _ => Ok tt;
     vector_insert := fun _ => Ok tt |}.

(** The error recorded for a file above the size ceiling. *)
Definition size_error (self : DocumentProcessorManager) (f : UploadFile) : str :=
  py "File " ++ filename f ++ py " exceeds maximum size ("
    ++ str_of_int (max_file_size self) ++ py " bytes)".

(** ** Helpers for the statements about the extractors *)

(** [if field: metadata[key] = field], for a field that has been read. *)
Definition put_if_present (key : string) (field : option str)
    (metadata : gmap string meta) : gmap string meta :=
  match present field with
  | Some s => <[key := MStr s]> metadata
  | None => metadata
  end.

(** A world like [uniform_world] in which every path ending in [.pdf]
    opens as the PDF document [reader]. *)
Definition pdf_world (reader : PdfReader) : World :=
  {| pypdf := true;
     path_exists := fun _ => Ok true;
     path_is_file := fun _ => Ok true;
     stat_size := fun _ => Ok 1000;
     open_pdf := fun _ => Ok reader;
     json_load := fun _ => raise ValueError "not a JSON file";
     read_text := fun _ => raise ValueError "invalid start byte";
     format_value := fun _ => [];
     temp_prefix :=
       fun f => Ok (py "/tmp/tmp" ++ str_of_int (Z.of_nat (file f)));
     copy_upload := fun _ _ => Ok tt;
     vector_insert := fun _ => Ok tt |}.

(** A world in which every path holds the JSON document [data]; scalars
    are written by [fmt]. *)
Definition json_world (data : json) (fmt : json -> str) : World :=
  {| pypdf := true;
     path_exists := fun _ => Ok true;
     path_is_file := fun _ => Ok true;
     stat_size := fun _ => Ok 1000;
     open_pdf := fun _ => raise RuntimeError "not a PDF file";
     json_load := fun _ => Ok data;
     read_text := fun _ => Ok [];
     format_value := fmt;
     temp_prefix :=
       fun f => Ok (py "/tmp/tmp" ++ str_of_int (Z.of_nat (file f)));
     copy_upload := fun _ _ => Ok tt;
     vector_insert := fun _ => Ok tt |}.

(** A document information in which only the title and the author are
    given. *)
Definition sample_information : DocumentInformation :=
  {| title := Ok (Some (py "Threat model"));
     author := Ok (Some (py "PSIRT"));
     subject := Ok None;
     creator := Ok (Some []);
     producer := Ok None;
     creation_date := Ok None;
     modification_date := Ok None |}.

(** A PDF document of two pages with [sample_information]. *)
Definition sample_reader : PdfReader :=
  {| reader_metadata := Some sample_information;
     pages := Ok [Ok (py "Page one. "); Ok (py "Page two.")] |}.

(** The number of scalars that [extract_text_recursive] writes: one for
    each scalar found in an object or in an array, at any depth, and one
    for a document that is a scalar itself. *)
Fixpoint scalars (obj : json) : nat :=
  match obj with
  | JObject members =>
      (fix each (l : list (str * json)) : nat :=
         match l with
         | [] => O
         | (_, v) :: rest => (scalars v + each rest)%nat
         end) members
  | JArray items =>
      (fix each (l : list json) : nat :=
         match l with
         | [] => O
         | item :: rest => (scalars item + each rest)%nat
         end) items
  | _ => 1%nat
  end.

(** ** The retrieval step of the query endpoint *)

(** [sep.join(l)] for a separator of any length. *)
Fixpoint join_str (sep : str) (l : list str) : str :=
  match l with
  | [] => []
  | [x] => x
  | x :: rest => x ++ sep ++ join_str sep rest
  end.

(** What [client.vector_io.query] answers: the chunks found and their
    scores. *)
Module VectorIO.

Record Chunk : Type := {
  content : str;
  metadata : gmap string meta
}.

Record QueryChunksResponse : Type := {
  chunks : list Chunk;
  scores : list value
}.

End VectorIO.

(** The block of [query] that runs when RAG is enabled, from the answer of
    the vector store on. *)
Module Query.

(** The dictionary [chunk_info]. *)
Record chunk_info : Type := {
  chunk_index : Z;
  score : value;
  source_file_name : meta
}.

(** [results.scores[i] if i < len(results.scores) else "N/A"] *)
Definition score_at (scores : list value) (i : nat) : value :=
  if (i <? List.length scores)%nat
  then List.nth i scores VNone
  else VStr (py "N/A").

Section Loop.

Variable float_of_str : str -> option float.

(** [os.getenv("VECTOR_DB_PROVIDER", "").lower() == "pgvector"] *)
Variable pgvector : bool.

(** The loop [for i, chunk in enumerate(results.chunks)], from index [i]
    on: the entries appended to [chunk_metadata_list]. An exception of the
    normalizer leaves the loop. *)
Fixpoint chunk_metadata_list (scores : list value) (i : nat)
    (chunks : list VectorIO.Chunk) : result (list chunk_info) :=
  match chunks with
  | [] => Ok []
  | chunk :: rest =>
      let score := score_at scores i in
      let! corrected_score :=
        if pgvector then correct_pgvector_score float_of_str score
        else Ok score in
      let info :=
        {| chunk_index := Z.of_nat i + 1;
           score := corrected_score;
           source_file_name :=
             default (MStr []) (VectorIO.metadata chunk !! "file_name") |} in
      let! infos := chunk_metadata_list scores (S i) rest in
      Ok (info :: infos)
  end.

End Loop.

(** [context] at the end of the block that runs when RAG is enabled: the
    contents joined by an empty line, or the fixed sentence when that is
    empty. *)
Definition context (chunks : list VectorIO.Chunk) : str :=
  let context := join_str [10%N; 10%N] (List.map VectorIO.content chunks) in
  if negb (truthy context) then py "No relevant documents found."
  else context.

(** [context] and [chunk_metadata_list] as [query] has them when it builds
    the prompt. They start as [""] and [[]]; the retrieval fills them only
    when [enable_rag] holds, that is when
    [os.getenv("ENABLE_RAG", "false").lower() == "true"]. [results] is what
    the vector store answers when it is asked. *)
Definition retrieve (float_of_str : str -> option float)
    (enable_rag pgvector : bool) (results : VectorIO.QueryChunksResponse)
    : result (str * list chunk_info) :=
  if enable_rag then
    let! infos :=
      chunk_metadata_list float_of_str pgvector (VectorIO.scores results) O
        (VectorIO.chunks results) in
    Ok (context (VectorIO.chunks results), infos)
  else Ok ([], []).

End Query.

(** ** The event stream of the query endpoint *)

(** What [create_sse_stream] yields: [data: <json>] followed by an empty
    line for a token, for the metadata and for an error, and
    [data: [DONE]] at the end. *)
Inductive event : Type :=
  | Token (json_data : str)
  | Metadata (metadata_data : str)
  | Error (error_data : str)
  | Done.

(** The string that is yielded for an event. *)
Definition render (ev : event) : str :=
  match ev with
  | Token j | Metadata j | Error j => py "data: " ++ j ++ [10%N; 10%N]
  | Done => py "data: [DONE]" ++ [10%N; 10%N]
  end.

Section Stream.

(** The values that an agent hands out as content, with [bool(content)]
    and [json.dumps] of the three dictionaries that are sent. *)
Variable Content : Type.
Variable content_truthy : Content -> bool.
Variable dumps_token : Content -> result str.
Variable dumps_metadata : list Query.chunk_info -> result str.
Variable dumps_error : str -> str.

(** A chunk of the agent output, as the [hasattr] tests see it:
    [delta_text] is [chunk.event.payload.delta.text] when that chain of
    attributes is there; [turn_content] tells whether
    [chunk.event.payload.turn] is there and, if so, its
    [output_message.content] when that is there. *)
Record AgentChunk : Type := {
  delta_text : option Content;
  turn_content : option (option Content)
}.

(** The variable [content] at the end of the two tests. *)
Definition chunk_content (chunk : AgentChunk) : option Content :=
  match delta_text chunk with
  | Some text => Some text
  | None =>
      match turn_content chunk with
      | Some (Some content) => Some content
      | _ => None
      end
  end.

(** The agent output once awaited: an asynchronous or an ordinary iterable,
    whose items come one by one until one raises, or an object that is
    neither. *)
Inductive AgentOutput : Type :=
  | AsyncIterable (items : list (result AgentChunk))
  | Iterable (items : list (result AgentChunk))
  | NotIterable.

(** The two loops over the chunks, which yield the same events: the events
    yielded, and the exception that ended the loop, if one did. *)
Fixpoint tokens (items : list (result AgentChunk))
    : list event * option exn :=
  match items with
  | [] => ([], None)
  | Raise e :: _ => ([], Some e)
  | Ok chunk :: rest =>
      match chunk_content chunk with
      | Some content =>
          if content_truthy content then
            match dumps_token content with
            | Ok json_data =>
                let '(events, e) := tokens rest in
                (Token json_data :: events, e)
            | Raise e => ([], Some e)
            end
          else tokens rest
      | None => tokens rest
      end
  end.

(** [create_sse_stream(agent_output, chunk_metadata_list)]: all that the
    generator yields. [agent_output] is the output after the [await] of a
    coroutine, which may raise. *)
Definition create_sse_stream (agent_output : result AgentOutput)
    (chunk_metadata_list : list Query.chunk_info) : list event :=
  let failed (e : exn) := [Error (dumps_error (message e)); Done] in
  match agent_output with
  | Raise e => failed e
  | Ok output =>
      let '(events, e) :=
        match output with
        | AsyncIterable items | Iterable items => tokens items
        | NotIterable => ([], None)
        end in
      match e with
      | Some e => events ++ failed e
      | None =>
          match chunk_metadata_list with
          | [] => events ++ [Done]
          | _ :: _ =>
              match dumps_metadata chunk_metadata_list with
              | Ok metadata_data => events ++ [Metadata metadata_data; Done]
              | Raise e => events ++ failed e
              end
          end
      end
  end.

End Stream.

(** ** The ingestion script *)

(** [scripts/ingest_documents.py]: the class [DocumentIngestionScript]. *)
Module DocumentIngestionScript.

(** [str(e)] for an exception. *)
Definition str_of_exn (e : exn) : str := message e.

(** The configuration read by [__init__]. *)
Record Self : Type := {
  max_file_size : Z;
  supported_formats : list str
}.

(** The dictionaries that [send_file_to_api] and [process_directory]
    return; [message] and [total_files] are not in all of them. *)
Record Report : Type := {
  success : bool;
  message : option str;
  total_files : option Z;
  processed_files : Z;
  failed_files : Z;
  errors : list str
}.

(** What the script meets outside: the files below a directory, and the
    answer of [send_file_to_api], which catches every exception of the
    request; it raises when the answer of the server is not a dictionary
    of the expected types, which [process_directory] finds out when it
    reads it. *)
Record Env : Type := {
  rglob : str -> result (list PurePath);
  send_file_to_api : PurePath -> result Report
}.

(** [DocumentIngestionScript._is_safe_path(file_path)] *)
Definition _is_safe_path (w : World) (file_path : PurePath) : result bool :=
  match
    (if has_dotdot (path_str file_path) then Ok false
     else
       let! e := path_exists w (path_str file_path) in
       if negb e then Ok false
       else
         let! f := path_is_file w (path_str file_path) in
         if negb f then Ok false else Ok true)
  with
  | Ok b => Ok b
  | Raise e => if catches [OSError; ValueError] e then Ok false else Raise e
  end.

(** [s.lstrip(".")] *)
Fixpoint lstrip_dots (s : str) : str :=
  match s with
  | c :: r => if (c =? dot)%N then lstrip_dots r else s
  | [] => []
  end.

Section Script.

(** [s.lower()], by the tables of Unicode. *)
Variable str_lower : str -> str.

(** [_is_supported_format(file_path)] *)
Definition _is_supported_format (self : Self) (file_path : PurePath) : bool :=
  let extension := lstrip_dots (str_lower (suffix file_path)) in
  List.existsb (str_eqb extension) (supported_formats self).

(** [stats["failed_files"] += 1; stats["errors"].append(msg)] *)
Definition failure (stats : Report) (msg : str) : Report :=
  {| success := success stats;
     message := message stats;
     total_files := total_files stats;
     processed_files := processed_files stats;
     failed_files := failed_files stats + 1;
     errors := errors stats ++ [msg] |}.

(** [stats["total_files"] += 1] *)
Definition counted (stats : Report) : Report :=
  {| success := success stats;
     message := message stats;
     total_files := option_map (fun n => n + 1) (total_files stats);
     processed_files := processed_files stats;
     failed_files := failed_files stats;
     errors := errors stats |}.

(** The body of the loop [for file_path in all_files]: the dictionary
    [stats] and the list [valid_files], before and after one path. *)
Definition validate (self : Self) (w : World)
    (state : Report * list PurePath) (file_path : PurePath)
    : result (Report * list PurePath) :=
  let '(stats, valid_files) := state in
  let! is_file := path_is_file w (path_str file_path) in
  if negb is_file then Ok (stats, valid_files)
  else
    let stats := counted stats in
    let! safe := _is_safe_path w file_path in
    if negb safe then
      Ok (failure stats (py "Unsafe file path: " ++ path_str file_path),
          valid_files)
    else
      match stat_size w (path_str file_path) with
      | Raise e =>
          Ok (failure stats
                (py "File stat error: " ++ path_str file_path ++ py ": "
                   ++ str_of_exn e),
              valid_files)
      | Ok file_size =>
          if file_size >? max_file_size self then
            Ok (failure stats (py "File too large: " ++ path_str file_path),
                valid_files)
          else if negb (_is_supported_format self file_path) then
            Ok (stats, valid_files)
          else Ok (stats, valid_files ++ [file_path])
      end.

(** The whole loop of validation. *)
Fixpoint validate_all (self : Self) (w : World)
    (state : Report * list PurePath) (all_files : list PurePath)
    : result (Report * list PurePath) :=
  match all_files with
  | [] => Ok state
  | file_path :: rest =>
      let! state := validate self w state file_path in
      validate_all self w state rest
  end.

(** The dictionary [stats] before the loop. *)
Definition initial_stats : Report :=
  {| success := true; message := None; total_files := Some 0;
     processed_files := 0; failed_files := 0; errors := [] |}.

(** The loop [for file_path in valid_files]: the files handed to
    [send_file_to_api], and the three totals unless an answer could not be
    read. *)
Fixpoint send_all (env : Env) (valid_files : list PurePath)
    (totals : Z * Z * list str)
    : list PurePath * result (Z * Z * list str) :=
  match valid_files with
  | [] => ([], Ok totals)
  | file_path :: rest =>
      let '(total_processed, total_failed, all_errors) := totals in
      match send_file_to_api env file_path with
      | Raise e => ([file_path], Raise e)
      | Ok result =>
          let '(sent, r) :=
            send_all env rest
              (total_processed + processed_files result,
               total_failed + failed_files result,
               all_errors ++ errors result) in
          (file_path :: sent, r)
      end
  end.

(** [process_directory(directory_path)]: the files sent to the admin API
    and the dictionary returned. *)
Definition process_directory (self : Self) (w : World) (env : Env)
    (directory_path : str) : list PurePath * result Report :=
  let directory := Path directory_path in
  match path_exists w (path_str directory) with
  | Raise e => ([], Raise e)
  | Ok false =>
      ([], Ok {| success := false;
                 message := Some (py "Directory not found");
                 total_files := None;
                 processed_files := 0;
                 failed_files := 0;
                 errors := [py "Directory not found"] |})
  | Ok true =>
      match
        (let! all_files := rglob env (path_str directory) in
         validate_all self w (initial_stats, []) all_files)
      with
      | Raise e => ([], Raise e)
      | Ok (stats, []) =>
          ([], Ok {| success := false;
                     message := Some (py "No valid files found to process");
                     total_files := None;
                     processed_files := 0;
                     failed_files := failed_files stats;
                     errors := errors stats |})
      | Ok (stats, valid_files) =>
          let '(sent, r) := send_all env valid_files (0, 0, errors stats) in
          (sent,
           let! totals := r in
           let '(total_processed, total_failed, all_errors) := totals in
           Ok {| success := total_processed >? 0;
                 message := None;
                 total_files := total_files stats;
                 processed_files := total_processed;
                 failed_files := total_failed + failed_files stats;
                 errors := all_errors |})
      end
  end.

End Script.

End DocumentIngestionScript.

(** A script that takes files of at most 100 bytes in the default
    formats, and a directory of three files below which the admin API
    ingests every file it is sent. *)
Definition sample_script : DocumentIngestionScript.Self :=
  {| DocumentIngestionScript.max_file_size := 100;
     DocumentIngestionScript.supported_formats :=
       [py "pdf"; py "json"; py "txt"] |}.

Definition sample_env : DocumentIngestionScript.Env :=
  {| DocumentIngestionScript.rglob :=
       fun _ =>
         Ok [Path (py "/data/a.txt"); Path (py "/data/b.bin");
             Path (py "/data/../c.txt")];
     DocumentIngestionScript.send_file_to_api :=
       fun _ =>
         Ok {| DocumentIngestionScript.success := true;
               DocumentIngestionScript.message :=
                 Some (py "Successfully ingested 1 documents");
               DocumentIngestionScript.total_files := None;
               DocumentIngestionScript.processed_files := 1;
               DocumentIngestionScript.failed_files := 0;
               DocumentIngestionScript.errors := [] |} |}.

(** ** The steps of the endpoint for one file, for the statements *)

(** The [with tempfile.NamedTemporaryFile(...)] block: the upload copied
    to a temporary file, whose path ends with the name of the upload. *)
Definition temp_copy (w : World) (f : UploadFile) : result str :=
  let! prefix := temp_prefix w f in
  let tmp_file_path := prefix ++ py "_" ++ filename f in
  let! _ := copy_upload w f tmp_file_path in
  Ok tmp_file_path.

(** The list [batch_chunks] that the endpoint builds from the text and the
    metadata of a document: its chunks, numbered from 0, each with the
    metadata of the document and the fields of the ingestion. *)
Definition document_batch (self : DocumentProcessorManager) (f : UploadFile)
    (text : str) (metadata : gmap string meta) : batch :=
  let chunks := chunk_text self text (Some (chunk_size self)) in
  batch_chunks metadata (filename f) (Z.of_nat (List.length chunks)) 0 chunks.

(** * Strings *)

Lemma space_is_space : is_space space = true.
Proof. reflexivity. Qed.

Lemma len_app (a b : str) : len (a ++ b) = len a + len b.
Proof. unfold len. rewrite List.length_app. lia. Qed.

Lemma len_cons (c : char) (s : str) : len (c :: s) = 1 + len s.
Proof. unfold len. simpl List.length. lia. Qed.

Lemma len_nonneg (s : str) : 0 <= len s.
Proof. unfold len. lia. Qed.

Lemma truthy_len (s : str) : truthy s = true <-> 0 < len s.
Proof.
  destruct s as [|c s]; simpl.
  - split; [discriminate | unfold len; simpl; lia].
  - split; [intros _; rewrite len_cons; pose proof (len_nonneg s); lia | trivial].
Qed.

Lemma truthy_false (s : str) : truthy s = false -> s = [].
Proof. destruct s; [trivial | discriminate]. Qed.

Lemma rstrip_shape (s : str) : rstrip s = [] \/ ends_solid (rstrip s) = true.
Proof.
  induction s as [|c r IH]; simpl; [now left|].
  destruct (rstrip r) as [|d r'] eqn:E.
  - destruct (is_space c) eqn:Hc; [now left | right; simpl; now rewrite Hc].
  - right. destruct IH as [IH|IH]; [discriminate|]. exact IH.
Qed.

Lemma rstrip_id (s : str) : ends_solid s = true -> rstrip s = s.
Proof.
  induction s as [|c r IH]; simpl; [trivial|].
  destruct r as [|d r'].
  - simpl. intros H. apply negb_true_iff in H. now rewrite H.
  - intros H. rewrite (IH H). reflexivity.
Qed.

Lemma lstrip_id (s : str) : starts_solid s = true -> lstrip s = s.
Proof.
  destruct s as [|c r]; simpl; [trivial|].
  intros H. apply negb_true_iff in H. now rewrite H.
Qed.

Lemma lstrip_shape (s : str) : lstrip s = [] \/ starts_solid (lstrip s) = true.
Proof.
  induction s as [|c r IH]; simpl; [now left|].
  destruct (is_space c) eqn:Hc; [exact IH|].
  right. simpl. now rewrite Hc.
Qed.

Lemma ends_solid_cons (c : char) (s : str) :
  ends_solid s = true -> ends_solid (c :: s) = true.
Proof. destruct s; [discriminate | trivial]. Qed.

Lemma ends_solid_app (a b : str) :
  ends_solid b = true -> ends_solid (a ++ b) = true.
Proof.
  intros H. induction a as [|c a IH]; simpl app; [exact H|].
  now apply ends_solid_cons.
Qed.

Lemma lstrip_ends_solid (s : str) :
  ends_solid s = true -> ends_solid (lstrip s) = true.
Proof.
  induction s as [|c r IH]; [trivial|].
  intros H. simpl lstrip. destruct (is_space c) eqn:Hc; [|exact H].
  apply IH. destruct r as [|d r']; [|exact H].
  simpl in H. rewrite Hc in H. discriminate.
Qed.

Lemma ends_solid_truthy (s : str) : ends_solid s = true -> truthy s = true.
Proof. destruct s; [discriminate | trivial]. Qed.

Lemma starts_solid_truthy (s : str) : starts_solid s = true -> truthy s = true.
Proof. destruct s; [discriminate | trivial]. Qed.

(** A stripped string is empty, or it begins and ends with a character that
    is not white space. *)
Lemma strip_shape (s : str) :
  strip s = [] \/ (starts_solid (strip s) = true /\ ends_solid (strip s) = true).
Proof.
  unfold strip. destruct (rstrip_shape s) as [E|E].
  - rewrite E. now left.
  - right. split.
    + destruct (lstrip_shape (rstrip s)) as [F|F]; [|exact F].
      apply lstrip_ends_solid in E. rewrite F in E. discriminate.
    + now apply lstrip_ends_solid.
Qed.

Lemma strip_id (s : str) :
  starts_solid s = true -> ends_solid s = true -> strip s = s.
Proof.
  intros Hs He. unfold strip. rewrite (rstrip_id s He). now apply lstrip_id.
Qed.

Lemma strip_idem (s : str) : strip (strip s) = strip s.
Proof.
  destruct (strip_shape s) as [E|[Hs He]].
  - rewrite E. reflexivity.
  - now apply strip_id.
Qed.

Lemma strip_ends_solid (s : str) :
  ends_solid s = true -> ends_solid (strip s) = true.
Proof.
  intros H. unfold strip. rewrite (rstrip_id s H). now apply lstrip_ends_solid.
Qed.

Lemma tight_ends_solid (s : str) :
  truthy s = true -> tight s = true -> ends_solid s = true.
Proof.
  induction s as [|c r IH]; [discriminate|].
  intros _ H. simpl in H. apply andb_true_iff in H as [Hc Ht].
  destruct r as [|d r'].
  - simpl. destruct (is_space c); [|trivial].
    apply andb_true_iff in Hc as [_ Hc]. discriminate.
  - simpl ends_solid. apply IH; [trivial | exact Ht].
Qed.

Lemma tidy_starts (s : str) : tidy s = true -> starts_solid s = true.
Proof. unfold tidy. intros H. now apply andb_true_iff in H as [H _]. Qed.

Lemma tidy_tight (s : str) : tidy s = true -> tight s = true.
Proof. unfold tidy. intros H. now apply andb_true_iff in H as [_ H]. Qed.

Lemma tidy_ends (s : str) : tidy s = true -> ends_solid s = true.
Proof.
  intros H. apply tight_ends_solid; [|now apply tidy_tight].
  apply starts_solid_truthy. now apply tidy_starts.
Qed.

Lemma tidy_truthy (s : str) : tidy s = true -> truthy s = true.
Proof. intros H. apply starts_solid_truthy. now apply tidy_starts. Qed.

Lemma tidy_strip (s : str) : tidy s = true -> strip s = s.
Proof. intros H. apply strip_id; [now apply tidy_starts | now apply tidy_ends]. Qed.

(** Cleaning: a text that is not blank becomes tidy. *)
Lemma sub_ws_shape (s : str) :
  ends_solid s = true ->
  forall b,
    tight (sub_ws b s) = true
    /\ starts_solid (sub_ws true s) = true
    /\ (starts_solid s = true -> starts_solid (sub_ws b s) = true).
Proof.
  induction s as [|c r IH]; [discriminate|].
  intros He b.
  assert (Hr : is_space c = true -> ends_solid r = true).
  { intros Hc. destruct r as [|d r']; [|exact He].
    simpl in He. rewrite Hc in He. discriminate. }
  simpl sub_ws. destruct (is_space c) eqn:Hc.
  - specialize (Hr eq_refl). destruct (IH Hr true) as (Ht & Hs & _).
    repeat split.
    + destruct b; [exact Ht|]. simpl. rewrite Hs, Ht. reflexivity.
    + exact Hs.
    + simpl. rewrite Hc. discriminate.
  - assert (Ht : tight (sub_ws false r) = true).
    { destruct r as [|d r']; [reflexivity|]. now apply (IH He false). }
    repeat split.
    + simpl. rewrite Hc. exact Ht.
    + simpl. now rewrite Hc.
    + intros _. simpl. now rewrite Hc.
Qed.

Lemma clean_text_tidy (text : str) :
  truthy (strip text) = true -> tidy (clean_text text) = true.
Proof.
  intros H. unfold clean_text, re_sub_ws, tidy.
  destruct (strip_shape text) as [E|[Hs He]].
  - rewrite E in H. discriminate.
  - destruct (sub_ws_shape (strip text) He false) as (Ht & _ & Hh).
    rewrite (Hh Hs), Ht. reflexivity.
Qed.

(** * Joining and splitting *)

Lemma join_cons (sep : char) (x : str) (l : list str) :
  l <> [] -> join sep (x :: l) = x ++ sep :: join sep l.
Proof. destruct l; [congruence | reflexivity]. Qed.

Lemma join_cons_head (sep c : char) (l : list str) :
  join sep (cons_head c l) = c :: join sep l.
Proof. destruct l as [|p [|q l]]; reflexivity. Qed.

Lemma cons_head_not_nil (c : char) (l : list str) : cons_head c l <> [].
Proof. destruct l; discriminate. Qed.

Lemma join_app (sep : char) (l1 l2 : list str) :
  l1 <> [] -> l2 <> [] ->
  join sep (l1 ++ l2) = join sep l1 ++ sep :: join sep l2.
Proof.
  intros H1 H2. induction l1 as [|x l1 IH]; [congruence|].
  destruct l1 as [|y l1].
  - simpl app. now rewrite join_cons.
  - change ((x :: y :: l1) ++ l2) with (x :: (y :: l1) ++ l2).
    rewrite join_cons by discriminate.
    rewrite IH by discriminate.
    rewrite (join_cons sep x (y :: l1)) by discriminate.
    now rewrite <- List.app_assoc.
Qed.


Lemma split_sentences_not_nil (a b : bool) (s : str) :
  split_sentences a b s <> [].
Proof.
  revert a b. induction s as [|c r IH]; intros a b; simpl; [discriminate|].
  destruct (is_space c && b); [apply IH|].
  destruct (is_space c && a); [discriminate | apply cons_head_not_nil].
Qed.

Lemma fields_by_not_nil (p : char -> bool) (s : str) : fields_by p s <> [].
Proof.
  induction s as [|c r IH]; simpl; [discriminate|].
  destruct (p c); [discriminate | apply cons_head_not_nil].
Qed.

(** Joining the sentences of a tight text with single spaces gives the text
    back. *)
Lemma join_split_sentences (s : str) :
  tight s = true ->
  forall a b, b = false \/ starts_solid s = true ->
    join space (split_sentences a b s) = s.
Proof.
  induction s as [|c r IH]; intros Ht a b Hb; [reflexivity|].
  simpl in Ht. apply andb_true_iff in Ht as [Hc Ht].
  simpl split_sentences. destruct (is_space c) eqn:Hsp.
  - destruct Hb as [->|Hb]; [|simpl in Hb; rewrite Hsp in Hb; discriminate].
    apply andb_true_iff in Hc as [Hc Hr]. apply N.eqb_eq in Hc. subst c.
    cbn [andb]. destruct a.
    + rewrite join_cons by apply split_sentences_not_nil.
      rewrite (IH Ht) by now right. reflexivity.
    + rewrite join_cons_head. rewrite (IH Ht) by now left. reflexivity.
  - cbn [andb]. rewrite join_cons_head. rewrite (IH Ht) by now left.
    reflexivity.
Qed.

Lemma hd_cons_head (c : char) (l : list str) :
  List.hd [] (cons_head c l) = c :: List.hd [] l.
Proof. destruct l; reflexivity. Qed.

Lemma tl_cons_head (c : char) (l : list str) :
  List.tl (cons_head c l) = List.tl l.
Proof. destruct l; reflexivity. Qed.

Lemma list_hd_tl (l : list str) : l <> [] -> l = List.hd [] l :: List.tl l.
Proof. destruct l; [congruence | reflexivity]. Qed.

(** The sentences of a tight text are tight; all but the first begin with a
    solid character, and so does the first when the text does. *)
Lemma split_sentences_shape (s : str) :
  tight s = true ->
  forall a b, b = false \/ starts_solid s = true ->
    let ps := split_sentences a b s in
    List.Forall (fun p => tight p = true) ps
    /\ List.Forall (fun p => starts_solid p = true) (List.tl ps)
    /\ (starts_solid s = true -> starts_solid (List.hd [] ps) = true).
Proof.
  induction s as [|c r IH]; intros Ht a b Hb.
  - simpl. repeat split; [repeat constructor | constructor | discriminate].
  - simpl in Ht. apply andb_true_iff in Ht as [Hc Ht].
    simpl split_sentences. destruct (is_space c) eqn:Hsp.
    + destruct Hb as [->|Hb]; [|simpl in Hb; rewrite Hsp in Hb; discriminate].
      apply andb_true_iff in Hc as [Hc Hr].
      cbn [andb]. destruct a.
      * destruct (IH Ht false true (or_intror Hr)) as (H1 & H2 & H3).
        cbv zeta. repeat split.
        -- constructor; [reflexivity | exact H1].
        -- simpl List.tl.
           rewrite (list_hd_tl _ (split_sentences_not_nil false true r)).
           constructor; [now apply H3 | exact H2].
        -- simpl. rewrite Hsp. discriminate.
      * destruct (IH Ht (is_terminator c) false (or_introl eq_refl))
          as (H1 & H2 & H3).
        cbv zeta. rewrite tl_cons_head, hd_cons_head.
        pose proof (split_sentences_not_nil (is_terminator c) false r) as Hn.
        rewrite (list_hd_tl _ Hn) in H1 |- *.
        simpl cons_head. apply List.Forall_cons_iff in H1 as [H1 H1'].
        repeat split.
        -- constructor; [|exact H1'].
           simpl. rewrite Hsp, Hc, H1. simpl. now rewrite (H3 Hr).
        -- exact H2.
        -- simpl. rewrite Hsp. discriminate.
    + cbn [andb].
      destruct (IH Ht (is_terminator c) false (or_introl eq_refl))
        as (H1 & H2 & H3).
      cbv zeta. rewrite tl_cons_head, hd_cons_head.
      pose proof (split_sentences_not_nil (is_terminator c) false r) as Hn.
      rewrite (list_hd_tl _ Hn) in H1 |- *.
      simpl cons_head. apply List.Forall_cons_iff in H1 as [H1 H1'].
      repeat split.
      * constructor; [|exact H1']. simpl. rewrite Hsp, H1. reflexivity.
      * exact H2.
      * intros _. simpl. now rewrite Hsp.
Qed.

Lemma sentences_tidy (s : str) :
  tidy s = true ->
  List.Forall (fun p => tidy p = true) (re_split_sentences s).
Proof.
  intros H. unfold re_split_sentences.
  destruct (split_sentences_shape s (tidy_tight s H) false false
              (or_introl eq_refl)) as (H1 & H2 & H3).
  pose proof (split_sentences_not_nil false false s) as Hn.
  rewrite (list_hd_tl _ Hn) in H1 |- *.
  apply List.Forall_cons_iff in H1 as [H1 H1'].
  constructor.
  - unfold tidy. rewrite (H3 (tidy_starts s H)), H1. reflexivity.
  - rewrite List.Forall_forall in *. intros p Hp. unfold tidy.
    rewrite (H2 p Hp), (H1' p Hp). reflexivity.
Qed.

Lemma sentences_join (s : str) :
  tidy s = true -> join_space (re_split_sentences s) = s.
Proof.
  intros H. apply join_split_sentences; [now apply tidy_tight | now left].
Qed.

(** * Words *)

Lemma fields_by_cons (p : char -> bool) (c : char) (r : str) :
  fields_by p (c :: r)
  = if p c then [] :: fields_by p r else cons_head c (fields_by p r).
Proof. reflexivity. Qed.

Lemma cons_head_app (c : char) (l1 l2 : list str) :
  l1 <> [] -> cons_head c (l1 ++ l2) = cons_head c l1 ++ l2.
Proof. destruct l1; [congruence | reflexivity]. Qed.

Lemma fields_by_app (p : char -> bool) (a b : str) (c : char) :
  p c = true -> fields_by p (a ++ c :: b) = fields_by p a ++ fields_by p b.
Proof.
  intros Hc. induction a as [|x a IH]; simpl.
  - now rewrite Hc.
  - rewrite IH. destruct (p x); [reflexivity|].
    apply cons_head_app, fields_by_not_nil.
Qed.

Lemma str_split_app (a b : str) (c : char) :
  is_space c = true -> str_split (a ++ c :: b) = str_split a ++ str_split b.
Proof.
  intros Hc. unfold str_split.
  now rewrite (fields_by_app is_space a b c Hc), List.filter_app.
Qed.

Lemma str_split_space (c : char) (s : str) :
  is_space c = true -> str_split (c :: s) = str_split s.
Proof. intros Hc. unfold str_split. simpl. now rewrite Hc. Qed.

Lemma fields_by_free (p : char -> bool) (s : str) :
  List.Forall (fun f => List.forallb (fun c => negb (p c)) f = true)
    (fields_by p s).
Proof.
  induction s as [|c r IH]; simpl; [repeat constructor|].
  destruct (p c) eqn:Hc; [now constructor|].
  destruct (fields_by p r) as [|f fs]; simpl.
  - repeat constructor. simpl. now rewrite Hc.
  - apply List.Forall_cons_iff in IH as [H1 H2].
    constructor; [simpl; now rewrite Hc, H1 | exact H2].
Qed.

(** The words of a string are not empty and hold no white space. *)
Lemma str_split_words (s : str) :
  List.Forall (fun w => truthy w = true /\ no_space w = true) (str_split s).
Proof.
  unfold str_split. apply List.Forall_forall. intros w Hw.
  apply List.filter_In in Hw as [Hw Ht]. split; [exact Ht|].
  pose proof (fields_by_free is_space s) as H.
  rewrite List.Forall_forall in H. now apply H.
Qed.

Lemma str_split_blank (s : str) :
  List.forallb is_space s = true -> str_split s = [].
Proof.
  induction s as [|c r IH]; [reflexivity|].
  simpl. intros H. apply andb_true_iff in H as [Hc Hr].
  rewrite (str_split_space c r Hc). now apply IH.
Qed.

Lemma str_split_lstrip (s : str) : str_split (lstrip s) = str_split s.
Proof.
  induction s as [|c r IH]; [reflexivity|].
  simpl lstrip. destruct (is_space c) eqn:Hc; [|reflexivity].
  now rewrite (str_split_space c r Hc).
Qed.

Lemma rstrip_decomposition (s : str) :
  exists ws, s = rstrip s ++ ws /\ List.forallb is_space ws = true.
Proof.
  induction s as [|c r (ws & E & H)].
  - now exists [].
  - simpl rstrip. destruct (rstrip r) as [|d r'] eqn:Er.
    + destruct (is_space c) eqn:Hc.
      * exists (c :: r). split; [reflexivity|].
        simpl. rewrite Hc. simpl in E. now rewrite E.
      * exists ws. split; [|exact H]. simpl in E |- *. now rewrite <- E.
    + exists ws. split; [|exact H]. simpl. f_equal. exact E.
Qed.

Lemma str_split_app_blank (a ws : str) :
  List.forallb is_space ws = true -> str_split (a ++ ws) = str_split a.
Proof.
  destruct ws as [|c ws]; intros H.
  - now rewrite List.app_nil_r.
  - simpl in H. apply andb_true_iff in H as [Hc Hw].
    rewrite (str_split_app a ws c Hc), (str_split_blank ws Hw).
    apply List.app_nil_r.
Qed.

Lemma str_split_rstrip (s : str) : str_split (rstrip s) = str_split s.
Proof.
  destruct (rstrip_decomposition s) as (ws & E & H).
  rewrite E at 2. symmetry. now apply str_split_app_blank.
Qed.

(** Stripping a string does not change its words. *)
Lemma str_split_strip (s : str) : str_split (strip s) = str_split s.
Proof. unfold strip. now rewrite str_split_lstrip, str_split_rstrip. Qed.

Lemma fields_join_tight (s : str) :
  tight s = true -> join space (fields_by is_space s) = s.
Proof.
  induction s as [|c r IH]; [reflexivity|].
  simpl. intros H. apply andb_true_iff in H as [Hc Ht].
  destruct (is_space c) eqn:Hsp.
  - apply andb_true_iff in Hc as [Hc _]. apply N.eqb_eq in Hc. subst c.
    rewrite join_cons by apply fields_by_not_nil. now rewrite (IH Ht).
  - rewrite join_cons_head. now rewrite (IH Ht).
Qed.

Lemma fields_truthy_tight (s : str) :
  tight s = true ->
  List.Forall (fun f => truthy f = true) (List.tl (fields_by is_space s))
  /\ (starts_solid s = true ->
      truthy (List.hd [] (fields_by is_space s)) = true).
Proof.
  induction s as [|c r IH]; [split; [constructor | discriminate]|].
  simpl. intros H. apply andb_true_iff in H as [Hc Ht].
  destruct (IH Ht) as [H1 H2]. destruct (is_space c) eqn:Hsp.
  - apply andb_true_iff in Hc as [_ Hr]. split; [|discriminate].
    simpl List.tl. rewrite (list_hd_tl _ (fields_by_not_nil is_space r)).
    constructor; [now apply H2 | exact H1].
  - rewrite tl_cons_head, hd_cons_head. split; [exact H1 | reflexivity].
Qed.

Lemma filter_all {A : Type} (f : A -> bool) (l : list A) :
  List.Forall (fun x => f x = true) l -> List.filter f l = l.
Proof.
  induction 1 as [|x l Hx _ IH]; [reflexivity|].
  simpl. now rewrite Hx, IH.
Qed.

(** A tidy string is its words joined by single spaces. *)
Lemma join_str_split (s : str) :
  tidy s = true -> join_space (str_split s) = s.
Proof.
  intros H. unfold join_space, str_split.
  destruct (fields_truthy_tight s (tidy_tight s H)) as [H1 H2].
  rewrite filter_all.
  - apply fields_join_tight. now apply tidy_tight.
  - rewrite (list_hd_tl _ (fields_by_not_nil is_space s)).
    constructor; [apply H2; now apply tidy_starts | exact H1].
Qed.

Lemma str_split_tidy_not_nil (s : str) :
  tidy s = true -> str_split s <> [].
Proof.
  intros H E. pose proof (join_str_split s H) as J. rewrite E in J.
  apply tidy_truthy in H. rewrite <- J in H. discriminate.
Qed.

(** * The chunker: what every chunk satisfies *)

Lemma no_space_solid (w : str) :
  truthy w = true -> no_space w = true ->
  starts_solid w = true /\ ends_solid w = true.
Proof.
  induction w as [|c r IH]; [discriminate|].
  intros _ H. simpl in H. apply andb_true_iff in H as [Hc Hr]. split.
  - exact Hc.
  - destruct r as [|d r']; [exact Hc|].
    simpl ends_solid. now apply IH.
Qed.

Lemma starts_solid_app (a b : str) :
  starts_solid a = true -> starts_solid (a ++ b) = true.
Proof. destruct a; [discriminate | trivial]. Qed.

Section Resplit.

Variable size : Z.
Variable P : str -> Prop.

(** The word loop keeps a property [P] that holds of every word and of
    every buffer extended by a word within the size. *)
Lemma pack_words_spec (all : list str) :
  (forall w, List.In w all -> P w) ->
  (forall a w, P a -> List.In w all -> len a + len w + 1 <= size ->
               P (a ++ space :: w)) ->
  forall (words final : list str) (cur : str),
    List.incl words all ->
    List.Forall P final ->
    (cur = [] \/ P cur) ->
    List.Forall P (fst (pack_words size words final cur))
    /\ (snd (pack_words size words final cur) = []
        \/ P (snd (pack_words size words final cur))).
Proof.
  intros Hall Hjoin.
  induction words as [|w rest IH]; intros final cur Hin Hf Hc.
  - simpl. now split.
  - assert (Hw : List.In w all) by (apply Hin; now left).
    assert (Hrest : List.incl rest all).
    { intros x Hx. apply Hin. now right. }
    simpl. destruct (len cur + len w + 1 <=? size) eqn:E.
    + apply Z.leb_le in E. destruct (truthy cur) eqn:T.
      * apply IH; [exact Hrest | exact Hf | right].
        destruct Hc as [->|Hc]; [discriminate | now apply Hjoin].
      * apply IH; [exact Hrest | exact Hf | right; now apply Hall].
    + apply IH; [exact Hrest | | right; now apply Hall].
      destruct (truthy cur) eqn:T; [|exact Hf].
      apply List.Forall_app. split; [exact Hf|].
      constructor; [|constructor].
      destruct Hc as [->|Hc]; [discriminate | exact Hc].
Qed.

Lemma resplit_spec (final : list str) (chunk : str) :
  (forall w, List.In w (str_split chunk) -> P w) ->
  (forall a w, P a -> List.In w (str_split chunk) ->
               len a + len w + 1 <= size -> P (a ++ space :: w)) ->
  (len chunk <= size -> P chunk) ->
  List.Forall P final ->
  List.Forall P (resplit size final chunk).
Proof.
  intros Hw Hjoin Hc Hf. unfold resplit.
  destruct (len chunk <=? size) eqn:E.
  - apply Z.leb_le in E. apply List.Forall_app. split; [exact Hf|].
    constructor; [now apply Hc | constructor].
  - destruct (pack_words_spec (str_split chunk) Hw Hjoin (str_split chunk)
                final [] (List.incl_refl _) Hf (or_introl eq_refl)) as [H1 H2].
    destruct (pack_words size (str_split chunk) final []) as [final' cur].
    simpl in H1, H2. destruct (truthy cur) eqn:T; [|exact H1].
    apply List.Forall_app. split; [exact H1|].
    constructor; [|constructor].
    destruct H2 as [->|H2]; [discriminate | exact H2].
Qed.

Lemma fold_resplit_spec (chunks : list str) :
  (forall chunk w, List.In chunk chunks -> List.In w (str_split chunk) -> P w) ->
  (forall chunk a w, List.In chunk chunks -> P a ->
      List.In w (str_split chunk) -> len a + len w + 1 <= size ->
      P (a ++ space :: w)) ->
  (forall chunk, List.In chunk chunks -> len chunk <= size -> P chunk) ->
  forall final : list str, List.Forall P final ->
    List.Forall P (List.fold_left (resplit size) chunks final).
Proof.
  induction chunks as [|chunk rest IH]; intros Hw Hjoin Hc final Hf.
  - exact Hf.
  - simpl. apply IH.
    + intros c w Hin. apply Hw. now right.
    + intros c a w Hin. apply Hjoin. now right.
    + intros c Hin. apply Hc. now right.
    + apply resplit_spec;
        [ intros w; apply (Hw chunk); now left
        | intros a w; apply (Hjoin chunk); now left
        | apply Hc; now left
        | exact Hf ].
Qed.

End Resplit.

(** The sentence loop never puts aside a chunk that is empty once it is
    stripped, as long as every sentence ends with a solid character. *)
Lemma accumulate_solid (size overlap : Z) (sentences : list str) :
  List.Forall (fun s => ends_solid s = true) sentences ->
  forall (chunks : list str) (cur : str),
    List.Forall (fun c => starts_solid c = true /\ ends_solid c = true) chunks ->
    (cur = [] \/ ends_solid cur = true) ->
    List.Forall (fun c => starts_solid c = true /\ ends_solid c = true)
      (fst (accumulate size overlap sentences chunks cur))
    /\ (snd (accumulate size overlap sentences chunks cur) = []
        \/ ends_solid (snd (accumulate size overlap sentences chunks cur)) = true).
Proof.
  induction 1 as [|s rest Hs _ IH]; intros chunks cur Hch Hcur.
  - simpl. now split.
  - assert (Happ : forall a, ends_solid (a ++ space :: s) = true).
    { intros a. apply ends_solid_app. now apply ends_solid_cons. }
    simpl.
    destruct ((len cur + len s >? size) && truthy cur) eqn:E.
    + apply andb_true_iff in E as [_ T].
      assert (Hch' : List.Forall
                (fun c => starts_solid c = true /\ ends_solid c = true)
                (chunks ++ [strip cur])).
      { apply List.Forall_app. split; [exact Hch|].
        constructor; [|constructor].
        destruct Hcur as [->|Hcur]; [discriminate|].
        destruct (strip_shape cur) as [E|E]; [|exact E].
        apply strip_ends_solid in Hcur. rewrite E in Hcur. discriminate. }
      destruct ((overlap >? 0) && (len cur >? overlap)).
      * apply IH; [exact Hch' | right; apply Happ].
      * apply IH; [exact Hch' | now right].
    + destruct (truthy cur).
      * apply IH; [exact Hch | right; apply Happ].
      * apply IH; [exact Hch | now right].
Qed.

(** Every chunk that the sentence loop leaves begins and ends with a solid
    character. *)
Lemma sentence_chunks_solid (size overlap : Z) (text : str) :
  tidy text = true ->
  List.Forall (fun c => starts_solid c = true /\ ends_solid c = true)
    (sentence_chunks size overlap text).
Proof.
  intros Ht. unfold sentence_chunks.
  assert (Hs : List.Forall (fun s => ends_solid s = true)
                 (re_split_sentences text)).
  { eapply List.Forall_impl; [|apply (sentences_tidy text Ht)].
    intros s. apply tidy_ends. }
  destruct (accumulate_solid size overlap _ Hs [] [] (List.Forall_nil _)
              (or_introl eq_refl)) as [H1 _].
  destruct (accumulate size overlap (re_split_sentences text) [] [])
    as [chunks cur].
  simpl in H1. destruct (truthy (strip cur)) eqn:T; [|exact H1].
  apply List.Forall_app. split; [exact H1|]. constructor; [|constructor].
  destruct (strip_shape cur) as [E|E]; [|exact E].
  rewrite E in T. discriminate.
Qed.

Lemma chunk_text_cases (self : DocumentProcessorManager) (text : str)
    (arg : option Z) :
  let size := size_in_force self arg in
  (truthy (strip text) = false /\ chunk_text self text arg = [])
  \/ (tidy (clean_text text) = true /\ len (clean_text text) <= size
      /\ chunk_text self text arg = [clean_text text])
  \/ (tidy (clean_text text) = true /\ size < len (clean_text text)
      /\ chunk_text self text arg =
           List.fold_left (resplit size)
             (sentence_chunks size (chunk_overlap self) (clean_text text)) []).
Proof.
  intros size. unfold chunk_text. fold size.
  destruct (truthy (strip text)) eqn:T.
  - assert (T' : truthy text = true).
    { destruct text; [discriminate | reflexivity]. }
    rewrite T'. cbn [negb orb]. pose proof (clean_text_tidy text T) as Ht.
    destruct (len (clean_text text) <=? size) eqn:E.
    + apply Z.leb_le in E. right. left. now repeat split.
    + apply Z.leb_gt in E. right. right. now repeat split.
  - left. split; [reflexivity|]. now rewrite orb_true_r.
Qed.

(** C1. For every text and every size above zero, whatever the overlap, a
    chunk returned by [chunk_text] is no longer than the size, unless it is
    one word free of white space, longer than the size, which is a whole
    word of a chunk left by the sentence loop. *)
Theorem chunk_length_bounded (self : DocumentProcessorManager) (text : str)
    (arg : option Z) :
  0 < size_in_force self arg ->
  List.Forall
    (fun c =>
       len c <= size_in_force self arg
       \/ (size_in_force self arg < len c /\ no_space c = true
           /\ exists chunk,
                List.In chunk
                  (sentence_chunks (size_in_force self arg)
                     (chunk_overlap self) (clean_text text))
                /\ List.In c (str_split chunk)))
    (chunk_text self text arg).
Proof.
  intros _.
  destruct (chunk_text_cases self text arg) as [[_ E]|[(_ & L & E)|(_ & _ & E)]];
    rewrite E.
  - constructor.
  - constructor; [now left | constructor].
  - set (size := size_in_force self arg).
    apply fold_resplit_spec; [| | |constructor].
    + intros chunk w Hc Hw.
      destruct (Z.le_gt_cases (len w) size) as [L|L]; [now left | right].
      pose proof (str_split_words chunk) as H.
      rewrite List.Forall_forall in H. destruct (H w Hw) as [_ Hn].
      split; [exact L|]. split; [exact Hn|]. now exists chunk.
    + intros chunk a w _ _ _ L. left. rewrite len_app, len_cons. lia.
    + intros chunk _ L. now left.
Qed.

Lemma chunk_length_bounded_witness :
  List.Forall
    (fun c =>
       len c <= 5
       \/ (5 < len c /\ no_space c = true
           /\ exists chunk,
                List.In chunk
                  (sentence_chunks 5 2 (clean_text (py "ab c. defghij k")))
                /\ List.In c (str_split chunk)))
    (chunk_text (manager 5 2) (py "ab c. defghij k") None).
Proof.
  apply (chunk_length_bounded (manager 5 2) (py "ab c. defghij k") None).
  reflexivity.
Defined.

(** C10. Every chunk returned by [chunk_text] is non-empty and has no white
    space at either end: it is equal to itself stripped. *)
Theorem chunk_nonempty_and_stripped (self : DocumentProcessorManager)
    (text : str) (arg : option Z) :
  List.Forall (fun c => truthy c = true /\ strip c = c)
    (chunk_text self text arg).
Proof.
  assert (Hsolid : forall c,
             starts_solid c = true /\ ends_solid c = true ->
             truthy c = true /\ strip c = c).
  { intros c [Hs He]. split; [now apply starts_solid_truthy | now apply strip_id]. }
  destruct (chunk_text_cases self text arg) as [[_ E]|[(T & _ & E)|(T & _ & E)]];
    rewrite E.
  - constructor.
  - constructor; [|constructor].
    split; [now apply tidy_truthy | now apply tidy_strip].
  - eapply List.Forall_impl; [exact Hsolid|].
    set (size := size_in_force self arg).
    pose proof (sentence_chunks_solid size (chunk_overlap self) _ T) as Hch.
    rewrite List.Forall_forall in Hch.
    apply fold_resplit_spec; [| | |constructor].
    + intros chunk w _ Hw.
      pose proof (str_split_words chunk) as H.
      rewrite List.Forall_forall in H. destruct (H w Hw) as [Hw1 Hw2].
      now apply no_space_solid.
    + intros chunk a w _ [Ha _] Hw _. split.
      * now apply starts_solid_app.
      * pose proof (str_split_words chunk) as H.
        rewrite List.Forall_forall in H. destruct (H w Hw) as [Hw1 Hw2].
        apply ends_solid_app, ends_solid_cons.
        now apply no_space_solid.
    + intros chunk Hc _. now apply Hch.
Qed.

(** * The loops as functions of their input alone *)

Lemma pack_words_acc (size : Z) (words : list str) :
  forall (final : list str) (cur : str),
    pack_words size words final cur =
    (final ++ fst (pack_words size words [] cur),
     snd (pack_words size words [] cur)).
Proof.
  induction words as [|w rest IH]; intros final cur; simpl.
  - now rewrite List.app_nil_r.
  - destruct (len cur + len w + 1 <=? size).
    + destruct (truthy cur); apply IH.
    + destruct (truthy cur).
      * rewrite (IH (final ++ [cur])), (IH ([] ++ [cur])).
        simpl. now rewrite <- List.app_assoc.
      * apply IH.
Qed.

Lemma resplit_acc (size : Z) (final : list str) (chunk : str) :
  resplit size final chunk = final ++ resplit size [] chunk.
Proof.
  unfold resplit. destruct (len chunk <=? size); [reflexivity|].
  rewrite (pack_words_acc size (str_split chunk) final []).
  destruct (pack_words size (str_split chunk) [] []) as [f c]. simpl.
  destruct (truthy c); [now rewrite <- List.app_assoc | reflexivity].
Qed.

Lemma fold_resplit_flat_map (size : Z) (chunks : list str) :
  forall final : list str,
    List.fold_left (resplit size) chunks final =
    final ++ List.flat_map (resplit size []) chunks.
Proof.
  induction chunks as [|c rest IH]; intros final; simpl.
  - now rewrite List.app_nil_r.
  - rewrite IH, (resplit_acc size final c). now rewrite <- List.app_assoc.
Qed.

Lemma accumulate_acc (size overlap : Z) (sentences : list str) :
  forall (chunks : list str) (cur : str),
    accumulate size overlap sentences chunks cur =
    (chunks ++ fst (accumulate size overlap sentences [] cur),
     snd (accumulate size overlap sentences [] cur)).
Proof.
  induction sentences as [|s rest IH]; intros chunks cur; simpl.
  - now rewrite List.app_nil_r.
  - destruct ((len cur + len s >? size) && truthy cur).
    + destruct ((overlap >? 0) && (len cur >? overlap)).
      * rewrite (IH (chunks ++ [strip cur])), (IH ([] ++ [strip cur])).
        simpl. now rewrite <- List.app_assoc.
      * rewrite (IH (chunks ++ [strip cur])), (IH ([] ++ [strip cur])).
        simpl. now rewrite <- List.app_assoc.
    + destruct (truthy cur); apply IH.
Qed.

(** * Joining the chunks when nothing is carried over *)

Lemma join_merge (sep : char) (l1 l2 : list str) (a b : str) :
  join sep (l1 ++ (a ++ sep :: b) :: l2) = join sep (l1 ++ a :: b :: l2).
Proof.
  assert (H : join sep ((a ++ sep :: b) :: l2) = join sep (a :: b :: l2)).
  { rewrite (join_cons sep a (b :: l2)) by discriminate.
    destruct l2 as [|x l2]; [reflexivity|].
    rewrite !join_cons by discriminate. now rewrite <- List.app_assoc. }
  destruct l1 as [|x l1]; [exact H|].
  rewrite !(join_app sep (x :: l1)) by discriminate. now rewrite H.
Qed.

Lemma join_flat_map (sep : char) (f : str -> list str) (l : list str) :
  (forall c, List.In c l -> f c <> [] /\ join sep (f c) = c) ->
  join sep (List.flat_map f l) = join sep l.
Proof.
  induction l as [|c rest IH]; intros H; [reflexivity|].
  destruct (H c (or_introl eq_refl)) as [Hn Hj].
  assert (Hrest : forall c, List.In c rest -> f c <> [] /\ join sep (f c) = c).
  { intros x Hx. apply H. now right. }
  simpl List.flat_map. destruct rest as [|d rest'].
  - simpl. now rewrite List.app_nil_r.
  - rewrite join_app.
    + rewrite Hj, (IH Hrest). reflexivity.
    + exact Hn.
    + simpl. destruct (Hrest d (or_introl eq_refl)) as [Hd _].
      destruct (f d); [congruence | discriminate].
Qed.

Lemma tight_app (a b : str) :
  tight a = true -> tight b = true -> tight (a ++ b) = true.
Proof.
  intros Ha Hb. induction a as [|c a IH]; [exact Hb|].
  simpl in Ha |- *. apply andb_true_iff in Ha as [Hc Ha].
  rewrite (IH Ha), andb_true_r.
  destruct (is_space c); [|reflexivity].
  apply andb_true_iff in Hc as [Hc Hs].
  now rewrite Hc, (starts_solid_app a b Hs).
Qed.

Lemma tidy_join2 (a b : str) :
  tidy a = true -> tidy b = true -> tidy (a ++ space :: b) = true.
Proof.
  intros Ha Hb. unfold tidy.
  rewrite (starts_solid_app a _ (tidy_starts a Ha)).
  rewrite tight_app; [reflexivity | now apply tidy_tight |].
  simpl. now rewrite (tidy_starts b Hb), (tidy_tight b Hb).
Qed.

Lemma held_tidy (cur : str) : tidy cur = true -> held cur = [cur].
Proof. intros H. unfold held. now rewrite (tidy_truthy cur H). Qed.

(** With no overlap the sentence loop only regroups the sentences. *)
Lemma accumulate_join (size overlap : Z) (sentences : list str) :
  overlap <= 0 ->
  List.Forall (fun s => tidy s = true) sentences ->
  forall (chunks : list str) (cur : str),
    List.Forall (fun c => tidy c = true) chunks ->
    (cur = [] \/ tidy cur = true) ->
    let r := accumulate size overlap sentences chunks cur in
    List.Forall (fun c => tidy c = true) (fst r)
    /\ (snd r = [] \/ tidy (snd r) = true)
    /\ join_space (fst r ++ held (snd r))
       = join_space (chunks ++ held cur ++ sentences).
Proof.
  intros Hov. induction 1 as [|s rest Hs _ IH]; intros chunks cur Hch Hcur.
  - simpl. rewrite List.app_nil_r. now repeat split.
  - cbv zeta. simpl accumulate. cbv zeta.
    assert (O : (overlap >? 0) = false) by (rewrite Z.gtb_ltb; apply Z.ltb_ge; lia).
    rewrite O. cbn [andb].
    destruct ((len cur + len s >? size) && truthy cur) eqn:E.
    + apply andb_true_iff in E as [_ T].
      destruct Hcur as [->|Hcur]; [discriminate|].
      rewrite (tidy_strip cur Hcur).
      destruct (IH (chunks ++ [cur]) s) as (H1 & H2 & H3).
      { apply List.Forall_app. split; [exact Hch | now constructor]. }
      { now right. }
      repeat split; [exact H1 | exact H2|].
      cbv zeta in H3. rewrite H3, (held_tidy s Hs), (held_tidy cur Hcur).
      now rewrite <- List.app_assoc.
    + destruct (truthy cur) eqn:T.
      * destruct Hcur as [->|Hcur]; [discriminate|].
        destruct (IH chunks (cur ++ space :: s)) as (H1 & H2 & H3).
        { exact Hch. }
        { right. now apply tidy_join2. }
        repeat split; [exact H1 | exact H2|].
        cbv zeta in H3. rewrite H3.
        rewrite (held_tidy _ (tidy_join2 cur s Hcur Hs)), (held_tidy cur Hcur).
        unfold join_space. simpl app. apply join_merge.
      * apply truthy_false in T. subst cur.
        destruct (IH chunks s) as (H1 & H2 & H3); [exact Hch | now right|].
        repeat split; [exact H1 | exact H2|].
        cbv zeta in H3. rewrite H3, (held_tidy s Hs). reflexivity.
Qed.

Lemma sentence_chunks_join (size overlap : Z) (text : str) :
  overlap <= 0 -> tidy text = true ->
  List.Forall (fun c => tidy c = true) (sentence_chunks size overlap text)
  /\ join_space (sentence_chunks size overlap text) = text.
Proof.
  intros Hov Ht. unfold sentence_chunks.
  destruct (accumulate_join size overlap _ Hov (sentences_tidy text Ht) [] []
              (List.Forall_nil _) (or_introl eq_refl)) as (H1 & H2 & H3).
  cbv zeta in H1, H2, H3.
  destruct (accumulate size overlap (re_split_sentences text) [] [])
    as [chunks cur].
  simpl in H1, H2, H3. rewrite (sentences_join text Ht) in H3.
  destruct H2 as [->|H2].
  - simpl. simpl in H3. rewrite List.app_nil_r in H3. now split.
  - rewrite (tidy_strip cur H2), (tidy_truthy cur H2).
    rewrite (held_tidy cur H2) in H3. split; [|exact H3].
    apply List.Forall_app. split; [exact H1 | now constructor].
Qed.

(** * The cleaned text is the words of the text, joined by single spaces *)

Lemma filter_truthy_hd_tl (l : list str) :
  l <> [] ->
  List.filter truthy l
  = List.filter truthy [List.hd [] l] ++ List.filter truthy (List.tl l).
Proof.
  destruct l as [|x l]; [congruence|].
  intros _. simpl. now destruct (truthy x).
Qed.

Lemma sub_ws_words (s : str) :
  List.hd [] (fields_by is_space (sub_ws false s))
  = List.hd [] (fields_by is_space s)
  /\ List.filter truthy (List.tl (fields_by is_space (sub_ws false s)))
     = List.filter truthy (List.tl (fields_by is_space s))
  /\ str_split (sub_ws true s) = str_split s.
Proof.
  induction s as [|c r (H1 & H2 & H3)]; [now repeat split|].
  simpl sub_ws. rewrite (fields_by_cons is_space c r).
  destruct (is_space c) eqn:Hc.
  - rewrite (fields_by_cons is_space space (sub_ws true r)), space_is_space.
    repeat split.
    + simpl List.tl. exact H3.
    + rewrite H3. symmetry. now apply str_split_space.
  - rewrite (fields_by_cons is_space c (sub_ws false r)), Hc.
    rewrite !hd_cons_head, !tl_cons_head, H1.
    repeat split; [exact H2|].
    unfold str_split. rewrite !fields_by_cons, Hc.
    rewrite (filter_truthy_hd_tl _ (cons_head_not_nil c _)).
    rewrite (filter_truthy_hd_tl (cons_head c (fields_by is_space r))
               (cons_head_not_nil c _)).
    now rewrite !hd_cons_head, !tl_cons_head, H1, H2.
Qed.

Lemma str_split_sub_ws (s : str) : str_split (re_sub_ws s) = str_split s.
Proof.
  destruct (sub_ws_words s) as (H1 & H2 & _).
  unfold re_sub_ws, str_split.
  rewrite (filter_truthy_hd_tl _ (fields_by_not_nil is_space _)).
  rewrite (filter_truthy_hd_tl (fields_by is_space s)
             (fields_by_not_nil is_space _)).
  now rewrite H1, H2.
Qed.

(** Cleaning a text gives its words joined by single spaces:
    [" ".join(text.split())]. *)
Lemma clean_text_words (text : str) :
  clean_text text = join_space (str_split text).
Proof.
  assert (E : str_split (clean_text text) = str_split text).
  { unfold clean_text. now rewrite str_split_sub_ws, str_split_strip. }
  destruct (truthy (strip text)) eqn:B.
  - rewrite <- E. symmetry. apply join_str_split. now apply clean_text_tidy.
  - apply truthy_false in B. rewrite <- E. unfold clean_text. now rewrite B.
Qed.

Lemma word_tidy (w : str) :
  truthy w = true -> no_space w = true -> tidy w = true.
Proof.
  intros T H. unfold tidy.
  destruct (no_space_solid w T H) as [Hs _]. rewrite Hs. simpl.
  clear T Hs. induction w as [|c r IH]; [reflexivity|].
  simpl in H |- *. apply andb_true_iff in H as [Hc Hr].
  apply negb_true_iff in Hc. rewrite Hc. now apply IH.
Qed.

Lemma str_split_tidy (s : str) :
  List.Forall (fun w => tidy w = true) (str_split s).
Proof.
  eapply List.Forall_impl; [|apply str_split_words].
  intros w [T H]. now apply word_tidy.
Qed.

(** The word loop only regroups the words. *)
Lemma pack_words_join (size : Z) (words : list str) :
  List.Forall (fun w => tidy w = true) words ->
  forall (final : list str) (cur : str),
    (cur = [] \/ tidy cur = true) ->
    let r := pack_words size words final cur in
    (snd r = [] \/ tidy (snd r) = true)
    /\ join_space (fst r ++ held (snd r))
       = join_space (final ++ held cur ++ words).
Proof.
  induction 1 as [|w rest Hw _ IH]; intros final cur Hcur.
  - simpl. rewrite List.app_nil_r. now split.
  - cbv zeta. simpl pack_words.
    destruct (len cur + len w + 1 <=? size).
    + destruct (truthy cur) eqn:T.
      * destruct Hcur as [->|Hcur]; [discriminate|].
        destruct (IH final (cur ++ space :: w)) as (H2 & H3).
        { right. now apply tidy_join2. }
        split; [exact H2|]. cbv zeta in H3.
        etransitivity; [exact H3|].
        rewrite (held_tidy _ (tidy_join2 cur w Hcur Hw)), (held_tidy cur Hcur).
        unfold join_space. simpl app. apply join_merge.
      * apply truthy_false in T. subst cur.
        destruct (IH final w) as (H2 & H3); [now right|].
        split; [exact H2|]. cbv zeta in H3.
        etransitivity; [exact H3|]. now rewrite (held_tidy w Hw).
    + destruct (IH (if truthy cur then final ++ [cur] else final) w)
        as (H2 & H3); [now right|].
      split; [exact H2|]. cbv zeta in H3.
      etransitivity; [exact H3|]. rewrite (held_tidy w Hw).
      unfold held. destruct (truthy cur); [|reflexivity].
      now rewrite <- List.app_assoc.
Qed.

(** Splitting a tidy chunk again gives pieces that join back to it. *)
Lemma resplit_join (size : Z) (chunk : str) :
  tidy chunk = true ->
  resplit size [] chunk <> []
  /\ join_space (resplit size [] chunk) = chunk.
Proof.
  intros Ht.
  assert (J : join_space (resplit size [] chunk) = chunk).
  { unfold resplit. destruct (len chunk <=? size); [reflexivity|].
    destruct (pack_words_join size (str_split chunk) (str_split_tidy chunk)
                [] [] (or_introl eq_refl)) as [_ H].
    cbv zeta in H.
    destruct (pack_words size (str_split chunk) [] []) as [f c].
    simpl in H. rewrite (join_str_split chunk Ht) in H.
    unfold held in H.
    destruct (truthy c); [exact H | now rewrite List.app_nil_r in H]. }
  split; [|exact J].
  intros E. rewrite E in J. apply tidy_truthy in Ht. rewrite <- J in Ht.
  discriminate.
Qed.

(** C2. When the configured overlap is zero, the chunks returned by
    [chunk_text], joined by single spaces, are exactly the cleaned text:
    the input with its ends stripped and every run of white space turned
    into one space, that is the words of the input joined by single
    spaces. *)
Theorem chunks_join_to_clean_text (self : DocumentProcessorManager)
    (text : str) (arg : option Z) :
  chunk_overlap self = 0 ->
  join_space (chunk_text self text arg) = clean_text text
  /\ clean_text text = join_space (str_split text).
Proof.
  intros Hov. split; [|apply clean_text_words].
  destruct (chunk_text_cases self text arg) as [[B E]|[(_ & _ & E)|(T & _ & E)]];
    rewrite E.
  - apply truthy_false in B. unfold clean_text. now rewrite B.
  - reflexivity.
  - set (size := size_in_force self arg).
    rewrite fold_resplit_flat_map. simpl app.
    destruct (sentence_chunks_join size (chunk_overlap self) (clean_text text))
      as [Hc Hj]; [lia | exact T|].
    rewrite <- Hj at 2. apply join_flat_map.
    intros c Hin. apply resplit_join.
    rewrite List.Forall_forall in Hc. now apply Hc.
Qed.

Lemma chunks_join_to_clean_text_witness :
  join_space (chunk_text (manager 5 0) (py "  ab c.   de fg  hi ") None)
  = clean_text (py "  ab c.   de fg  hi ")
  /\ clean_text (py "  ab c.   de fg  hi ")
     = join_space (str_split (py "  ab c.   de fg  hi ")).
Proof.
  apply (chunks_join_to_clean_text (manager 5 0)
           (py "  ab c.   de fg  hi ") None).
  reflexivity.
Defined.

(** * Lengths: what the chunks cover *)

Lemma total_len_app (a b : list str) :
  total_len (a ++ b) = total_len a + total_len b.
Proof.
  unfold total_len. induction a as [|x a IH]; simpl; [reflexivity|].
  rewrite IH. lia.
Qed.

Lemma weight_app (a b : list str) : weight (a ++ b) = weight a + weight b.
Proof.
  unfold weight. rewrite total_len_app, List.length_app. lia.
Qed.

Lemma weight_cons (x : str) (l : list str) :
  weight (x :: l) = len x + 1 + weight l.
Proof. unfold weight, total_len. simpl. lia. Qed.

Lemma weight_nonneg (l : list str) : 0 <= weight l.
Proof.
  induction l as [|x l IH]; [unfold weight, total_len; simpl; lia|].
  rewrite weight_cons. pose proof (len_nonneg x). lia.
Qed.

Lemma weight_filter (f : str -> bool) (l : list str) :
  weight (List.filter f l) <= weight l.
Proof.
  induction l as [|x l IH]; simpl; [lia|].
  pose proof (len_nonneg x).
  destruct (f x); rewrite ?weight_cons; lia.
Qed.

Lemma weight_cons_head (c : char) (l : list str) :
  l <> [] -> weight (cons_head c l) = 1 + weight l.
Proof.
  destruct l as [|p ps]; [congruence|]. intros _. simpl.
  rewrite !weight_cons, len_cons. lia.
Qed.

Lemma weight_fields (p : char -> bool) (s : str) :
  weight (fields_by p s) = len s + 1.
Proof.
  induction s as [|c r IH]; [reflexivity|].
  simpl. rewrite len_cons. destruct (p c).
  - rewrite weight_cons, IH. unfold len. simpl. lia.
  - rewrite weight_cons_head by apply fields_by_not_nil. lia.
Qed.

(** The words of a string, a space after each, are not longer than the
    string and a space; they are exactly as long when the string is tidy. *)
Lemma words_weight_le (s : str) : words_weight s <= len s + 1.
Proof.
  unfold words_weight, str_split. rewrite <- (weight_fields is_space s).
  apply weight_filter.
Qed.

Lemma words_weight_tidy (s : str) :
  tidy s = true -> words_weight s = len s + 1.
Proof.
  intros H. unfold words_weight, str_split.
  destruct (fields_truthy_tight s (tidy_tight s H)) as [H1 H2].
  rewrite filter_all; [apply weight_fields|].
  rewrite (list_hd_tl _ (fields_by_not_nil is_space s)).
  constructor; [apply H2; now apply tidy_starts | exact H1].
Qed.

Lemma words_weight_nonneg (s : str) : 0 <= words_weight s.
Proof. apply weight_nonneg. Qed.

Lemma words_weight_app (a b : str) :
  words_weight (a ++ space :: b) = words_weight a + words_weight b.
Proof.
  unfold words_weight.
  now rewrite (str_split_app a b space space_is_space), weight_app.
Qed.

Lemma words_weight_strip (s : str) : words_weight (strip s) = words_weight s.
Proof. unfold words_weight. now rewrite str_split_strip. Qed.

Lemma str_split_join (l : list str) :
  str_split (join_space l) = List.flat_map str_split l.
Proof.
  unfold join_space. induction l as [|x l IH]; [reflexivity|].
  destruct l as [|y l].
  - simpl. now rewrite List.app_nil_r.
  - rewrite join_cons by discriminate.
    rewrite (str_split_app x _ space space_is_space), IH. reflexivity.
Qed.

Lemma all_words_weight_app (a b : list str) :
  all_words_weight (a ++ b) = all_words_weight a + all_words_weight b.
Proof. unfold all_words_weight. now rewrite List.flat_map_app, weight_app. Qed.

Lemma all_words_weight_cons (x : str) (l : list str) :
  all_words_weight (x :: l) = words_weight x + all_words_weight l.
Proof. unfold all_words_weight, words_weight. simpl. apply weight_app. Qed.

Lemma all_words_weight_one (x : str) : all_words_weight [x] = words_weight x.
Proof.
  rewrite all_words_weight_cons. unfold all_words_weight. simpl.
  unfold weight, total_len. simpl. lia.
Qed.

(** The sentence loop loses no word, whatever the overlap. *)
Lemma accumulate_weight (size overlap : Z) (sentences : list str) :
  forall (chunks : list str) (cur : str),
    let r := accumulate size overlap sentences chunks cur in
    all_words_weight chunks + words_weight cur + all_words_weight sentences
    <= all_words_weight (fst r) + words_weight (snd r).
Proof.
  induction sentences as [|s rest IH]; intros chunks cur.
  - simpl. unfold all_words_weight at 2. simpl. unfold weight, total_len.
    simpl. lia.
  - cbv zeta. simpl accumulate. cbv zeta.
    rewrite all_words_weight_cons.
    destruct ((len cur + len s >? size) && truthy cur).
    + destruct ((overlap >? 0) && (len cur >? overlap)).
      * specialize (IH (chunks ++ [strip cur])
                      (last_chars overlap cur ++ space :: s)).
        cbv zeta in IH.
        rewrite all_words_weight_app, all_words_weight_one,
          words_weight_strip, words_weight_app in IH.
        pose proof (words_weight_nonneg (last_chars overlap cur)). lia.
      * specialize (IH (chunks ++ [strip cur]) s). cbv zeta in IH.
        rewrite all_words_weight_app, all_words_weight_one,
          words_weight_strip in IH.
        lia.
    + destruct (truthy cur) eqn:T.
      * specialize (IH chunks (cur ++ space :: s)). cbv zeta in IH.
        rewrite words_weight_app in IH. lia.
      * apply truthy_false in T. subst cur.
        specialize (IH chunks s). cbv zeta in IH.
        change (words_weight []) with 0. lia.
Qed.

Lemma sentence_chunks_weight (size overlap : Z) (text : str) :
  tidy text = true ->
  len text + 1 <= all_words_weight (sentence_chunks size overlap text).
Proof.
  intros Ht. unfold sentence_chunks.
  pose proof (accumulate_weight size overlap (re_split_sentences text) [] [])
    as H. cbv zeta in H.
  destruct (accumulate size overlap (re_split_sentences text) [] [])
    as [chunks cur]. simpl fst in H. simpl snd in H.
  assert (E : all_words_weight (re_split_sentences text) = len text + 1).
  { unfold all_words_weight. rewrite <- str_split_join.
    rewrite (sentences_join text Ht). now apply words_weight_tidy. }
  rewrite E in H. change (all_words_weight []) with 0 in H.
  change (words_weight []) with 0 in H.
  rewrite <- (words_weight_strip cur) in H.
  destruct (truthy (strip cur)) eqn:T.
  - rewrite all_words_weight_app, all_words_weight_one. lia.
  - apply truthy_false in T. rewrite T in H.
    change (words_weight []) with 0 in H. lia.
Qed.

Lemma weight_held (cur : str) :
  weight (held cur) = if truthy cur then len cur + 1 else 0.
Proof.
  unfold held. destruct (truthy cur); [|reflexivity].
  rewrite weight_cons. change (weight []) with 0. lia.
Qed.

(** The word loop keeps the weight of the words. *)
Lemma pack_words_weight (size : Z) (words : list str) :
  List.Forall (fun w => truthy w = true) words ->
  forall (final : list str) (cur : str),
    let r := pack_words size words final cur in
    weight (fst r ++ held (snd r))
    = weight final + weight (held cur) + weight words.
Proof.
  induction 1 as [|w rest Hw _ IH]; intros final cur.
  - simpl. rewrite weight_app. change (weight []) with 0. lia.
  - cbv zeta. simpl pack_words. rewrite (weight_cons w rest).
    destruct (len cur + len w + 1 <=? size).
    + destruct (truthy cur) eqn:T.
      * specialize (IH final (cur ++ space :: w)). cbv zeta in IH.
        assert (T' : truthy (cur ++ space :: w) = true)
          by (destruct cur; reflexivity).
        rewrite IH, !weight_held, T, T', len_app, len_cons. lia.
      * specialize (IH final w). cbv zeta in IH.
        rewrite IH, !weight_held, T, Hw. lia.
    + specialize (IH (if truthy cur then final ++ [cur] else final) w).
      cbv zeta in IH. rewrite IH, !weight_held, Hw.
      destruct (truthy cur).
      * rewrite weight_app, weight_cons. change (weight []) with 0. lia.
      * lia.
Qed.

(** Splitting a chunk again gives pieces that weigh at least as much as
    its words. *)
Lemma resplit_weight (size : Z) (chunk : str) :
  words_weight chunk <= weight (resplit size [] chunk).
Proof.
  unfold resplit. destruct (len chunk <=? size).
  - simpl. rewrite weight_cons. change (weight []) with 0.
    pose proof (words_weight_le chunk). lia.
  - assert (Hw : List.Forall (fun w => truthy w = true) (str_split chunk)).
    { eapply List.Forall_impl; [|apply str_split_words]. now intros w [T _]. }
    pose proof (pack_words_weight size (str_split chunk) Hw [] []) as H.
    cbv zeta in H.
    destruct (pack_words size (str_split chunk) [] []) as [f c].
    simpl fst in H. simpl snd in H.
    change (weight []) with 0 in H. rewrite weight_held in H.
    cbn [truthy] in H. cbv iota in H.
    unfold words_weight.
    replace (if truthy c then f ++ [c] else f) with (f ++ held c)
      by (unfold held; destruct (truthy c); [reflexivity | apply List.app_nil_r]).
    lia.
Qed.

Lemma flat_map_resplit_weight (size : Z) (chunks : list str) :
  all_words_weight chunks
  <= weight (List.flat_map (resplit size []) chunks).
Proof.
  induction chunks as [|c rest IH]; [reflexivity|].
  simpl List.flat_map. rewrite weight_app, all_words_weight_cons.
  pose proof (resplit_weight size c). lia.
Qed.

(** The chunks, a space after each, are at least as long as the cleaned
    text and a space, whatever the overlap. *)
Lemma chunk_text_weight (self : DocumentProcessorManager) (text : str)
    (arg : option Z) :
  truthy (strip text) = true ->
  len (clean_text text) + 1 <= weight (chunk_text self text arg).
Proof.
  intros B.
  destruct (chunk_text_cases self text arg) as [[B' _]|[(_ & _ & E)|(T & _ & E)]].
  - rewrite B in B'. discriminate.
  - rewrite E, weight_cons. change (weight []) with 0. lia.
  - rewrite E, fold_resplit_flat_map. simpl app.
    set (size := size_in_force self arg).
    pose proof (flat_map_resplit_weight size
                  (sentence_chunks size (chunk_overlap self) (clean_text text))).
    pose proof (sentence_chunks_weight size (chunk_overlap self) _ T).
    lia.
Qed.

(** C5, as the code has it. When the configured overlap is above zero, the
    lengths of the chunks returned by [chunk_text], with one more character
    for each boundary between two consecutive chunks, add up to at least
    the length of the cleaned text. *)
Theorem chunks_cover_clean_text (self : DocumentProcessorManager) (text : str)
    (arg : option Z) :
  0 < chunk_overlap self ->
  len (clean_text text)
  <= total_len (chunk_text self text arg)
     + Z.of_nat (Nat.pred (List.length (chunk_text self text arg))).
Proof.
  intros _. destruct (truthy (strip text)) eqn:B.
  - pose proof (chunk_text_weight self text arg B) as H.
    unfold weight in H. pose proof (len_nonneg (clean_text text)).
    destruct (chunk_text self text arg) as [|c l].
    + unfold total_len in H. simpl in H. lia.
    + simpl List.length in *. simpl Nat.pred. lia.
  - apply truthy_false in B. unfold clean_text. rewrite B.
    destruct (chunk_text_cases self text arg) as [[_ E]|[(T & _)|(T & _)]].
    + rewrite E. unfold total_len, len. simpl. lia.
    + unfold clean_text in T. rewrite B in T. discriminate.
    + unfold clean_text in T. rewrite B in T. discriminate.
Qed.

Lemma chunks_cover_clean_text_witness :
  len (clean_text (py "ab. cd. ef."))
  <= total_len (chunk_text (manager 5 4) (py "ab. cd. ef.") None)
     + Z.of_nat (Nat.pred
         (List.length (chunk_text (manager 5 4) (py "ab. cd. ef.") None))).
Proof.
  apply (chunks_cover_clean_text (manager 5 4) (py "ab. cd. ef.") None).
  reflexivity.
Defined.

(** C5 as stated fails: with the default size and overlap the text
    ["a    b"] of six characters gives the single chunk ["a b"], and with
    size 5 and overlap 4 the text ["ab. cd. ef."] of eleven characters,
    which cleaning leaves as it is, gives three chunks of three
    characters. *)
Lemma chunks_total_below_text :
  (0 < chunk_overlap (manager 1000 200)
   /\ chunk_text (manager 1000 200) (py "a    b") None = [py "a b"]
   /\ total_len (chunk_text (manager 1000 200) (py "a    b") None)
      < len (py "a    b"))
  /\ (0 < chunk_overlap (manager 5 4)
      /\ chunk_text (manager 5 4) (py "ab. cd. ef.") None
         = [py "ab."; py "cd."; py "ef."]
      /\ total_len (chunk_text (manager 5 4) (py "ab. cd. ef.") None)
         < len (py "ab. cd. ef.")).
Proof. repeat split. Qed.

(** * The overlap carried from a chunk to the next *)

Lemma startswith_refl_app (p rest : str) : startswith (p ++ rest) p = true.
Proof.
  induction p as [|c p IH]; [reflexivity|].
  simpl. now rewrite N.eqb_refl, IH.
Qed.






Lemma linked_nth (R : str -> str -> Prop) (l : list str) :
  linked R l ->
  forall (i : nat) (a b : str),
    List.nth_error l i = Some a -> List.nth_error l (S i) = Some b -> R a b.
Proof.
  induction l as [|x r IH]; intros H i a b Ha Hb.
  - destruct i; discriminate.
  - destruct r as [|y r']; [destruct i; discriminate|].
    destruct H as [Hxy Hr]. destruct i as [|i].
    + simpl in Ha, Hb. injection Ha as <-. injection Hb as <-. exact Hxy.
    + simpl in Ha. apply (IH Hr i a b Ha). exact Hb.
Qed.








Lemma fold_resplit_fits (size : Z) (chunks : list str) :
  List.Forall (fun c => len c <= size) chunks ->
  List.fold_left (resplit size) chunks [] = chunks.
Proof.
  intros H. rewrite fold_resplit_flat_map. simpl app.
  induction H as [|c rest Hc _ IH]; [reflexivity|].
  simpl List.flat_map. rewrite IH. unfold resplit.
  apply Z.leb_le in Hc. now rewrite Hc.
Qed.


(** * Order on the floats *)







(** * The score normalizer *)




Section NormalizerFacts.

Variable float_of_str : str -> option float.

Lemma normalize_converted (score : value) (x : float) :
  is_na score = false -> is_none score = false ->
  to_float float_of_str score = Ok x ->
  correct_pgvector_score float_of_str score =
    if PrimFloat.eqb x infinity then Ok (VFloat 1%float)
    else if PrimFloat.leb x 0%float then Ok (VFloat 0%float)
    else if PrimFloat.eqb x 0%float then Ok score
    else Ok (VFloat ((clamp (-1)%float 1%float (1 - 1 / x) + 1) / 2)%float).
Proof.
  intros Hna Hnone Hx. unfold correct_pgvector_score, corrected_score.
  rewrite Hna, Hnone, Hx. cbn [orb bind].
  destruct (PrimFloat.eqb x infinity); [reflexivity|].
  destruct (PrimFloat.leb x 0%float); [reflexivity|].
  unfold float_div. destruct (PrimFloat.eqb x 0%float); reflexivity.
Qed.


Lemma normalize_unconvertible_string (s : str) :
  float_of_str s = None -> correct_pgvector_score float_of_str (VStr s) = Ok (VStr s).
Proof.
  intros Es. unfold correct_pgvector_score, corrected_score. simpl.
  rewrite Es. simpl. now destruct (str_eqb s (py "N/A")).
Qed.

(** The normalizer returns normally on [None], on every string, boolean
    and float, and on every integer in the range of the floats; a string
    that does not convert comes back unchanged. *)
Lemma normalize_returns (score : value) :
  match score with
  | VList _ => False
  | VInt z => exists x, int_to_float z = Ok x
  | _ => True
  end ->
  exists v, correct_pgvector_score float_of_str score = Ok v.
Proof.
  intros H.
  destruct (is_na score || is_none score) eqn:E.
  - exists score. unfold correct_pgvector_score. now rewrite E.
  - apply orb_false_iff in E as [Hna Hnone].
    assert (Hconv : (exists x, to_float float_of_str score = Ok x)
                    \/ correct_pgvector_score float_of_str score = Ok score).
    { destruct score as [|s|b|z|f|l]; simpl.
      - discriminate.
      - destruct (float_of_str s) as [x|] eqn:Es.
        + left. now exists x.
        + right. now apply normalize_unconvertible_string.
      - left. now eexists.
      - exact (or_introl H).
      - left. now eexists.
      - destruct H. }
    destruct Hconv as [[x Hx]|Hs]; [|now exists score].
    rewrite (normalize_converted score x Hna Hnone Hx).
    destruct (PrimFloat.eqb x infinity); [now eexists|].
    destruct (PrimFloat.leb x 0%float); [now eexists|].
    destruct (PrimFloat.eqb x 0%float); now eexists.
Qed.

(** C6, where the code falls short of it. The normalizer raises on an
    input whose conversion fails with another exception than [ValueError]:
    [TypeError] on a list, [OverflowError] on an integer beyond the range
    of the floats, such as ten to the power 400. *)
Theorem normalize_raises :
  (forall l : list value,
     correct_pgvector_score float_of_str (VList l)
     = raise TypeError
         "float() argument must be a string or a real number, not 'list'")
  /\ correct_pgvector_score float_of_str (VInt (10 ^ 400))
     = raise OverflowError "int too large to convert to float"
  /\ correct_pgvector_score float_of_str (VInt (- 10 ^ 400))
     = raise OverflowError "int too large to convert to float".
Proof.
  split; [intros l; reflexivity|]. split; vm_compute; reflexivity.
Qed.

End NormalizerFacts.



(** * The metadata of the extractors *)

Lemma has_basic_keys_insert (key : string) (v : meta)
    (metadata : gmap string meta) :
  has_basic_keys metadata -> has_basic_keys (<[key := v]> metadata).
Proof.
  intros (H1 & H2 & H3).
  repeat split; apply lookup_insert_is_Some'; now right.
Qed.

Lemma has_basic_keys_initial (a b c : meta) :
  has_basic_keys
    ({[ "file_extension" := a; "processing_method" := b; "processor" := c ]}
       : gmap string meta).
Proof. repeat split; now eexists. Qed.

Lemma add_if_present_keys (key : string) (field : result (option str))
    (metadata m : gmap string meta) :
  has_basic_keys metadata ->
  add_if_present key field metadata = Ok m -> has_basic_keys m.
Proof.
  intros H. unfold add_if_present.
  destruct field as [v|e]; simpl; [|discriminate].
  destruct (present v); intros [= <-]; [now apply has_basic_keys_insert | exact H].
Qed.

Lemma pdf_read_metadata_keys (w : World) (file_path : str)
    (m : gmap string meta) :
  PDFProcessor.read_metadata w file_path = Ok m -> has_basic_keys m.
Proof.
  unfold PDFProcessor.read_metadata.
  destruct (open_pdf w file_path) as [pdf_reader|e]; simpl; [|discriminate].
  pose proof (has_basic_keys_initial (MStr (py ".pdf")) (MStr (py "pypdf"))
                (MStr (py "PDFProcessor"))) as H0.
  set (m0 := ({[ "file_extension" := MStr (py ".pdf");
                 "processing_method" := MStr (py "pypdf");
                 "processor" := MStr (py "PDFProcessor") ]}
                : gmap string meta)) in *.
  assert (Hinfo : forall m1,
             match reader_metadata pdf_reader with
             | Some pdf_meta =>
                 let! m := add_if_present "title" (title pdf_meta) m0 in
                 let! m := add_if_present "author" (author pdf_meta) m in
                 let! m := add_if_present "subject" (subject pdf_meta) m in
                 let! m := add_if_present "creator" (creator pdf_meta) m in
                 let! m := add_if_present "producer" (producer pdf_meta) m in
                 let! m :=
                   add_if_present "creation_date" (creation_date pdf_meta) m in
                 add_if_present "modification_date"
                   (modification_date pdf_meta) m
             | None => Ok m0
             end = Ok m1 -> has_basic_keys m1).
  { intros m1. destruct (reader_metadata pdf_reader) as [pdf_meta|].
    - destruct (add_if_present "title" (title pdf_meta) m0) as [a1|] eqn:E1;
        simpl; [|discriminate].
      destruct (add_if_present "author" (author pdf_meta) a1) as [a2|] eqn:E2;
        simpl; [|discriminate].
      destruct (add_if_present "subject" (subject pdf_meta) a2) as [a3|] eqn:E3;
        simpl; [|discriminate].
      destruct (add_if_present "creator" (creator pdf_meta) a3) as [a4|] eqn:E4;
        simpl; [|discriminate].
      destruct (add_if_present "producer" (producer pdf_meta) a4) as [a5|] eqn:E5;
        simpl; [|discriminate].
      destruct (add_if_present "creation_date" (creation_date pdf_meta) a5)
        as [a6|] eqn:E6; simpl; [|discriminate].
      intros E7.
      eauto 10 using add_if_present_keys.
    - now intros [= <-]. }
  match goal with
  | |- (let! metadata := ?c in _) = _ -> _ =>
      destruct c as [m1|e1] eqn:E; simpl; [|discriminate]
  end.
  destruct (pages pdf_reader) as [pgs|e2]; simpl; [|discriminate].
  intros [= <-]. apply has_basic_keys_insert. now apply Hinfo.
Qed.

Lemma copy_fields_keys (members : list (str * json))
    (metadata : gmap string meta) :
  has_basic_keys metadata ->
  has_basic_keys (JSONProcessor.copy_fields members metadata).
Proof.
  unfold JSONProcessor.copy_fields. revert metadata.
  induction common_fields as [|field rest IH]; intros metadata H; [exact H|].
  simpl. apply IH. destruct (member (py field) members); [|exact H].
  now apply has_basic_keys_insert.
Qed.

(** C8, where the code falls short of it. The metadata of the PDF
    extractor always hold the three keys, also when the extraction fails;
    those of the JSON extractor hold them when the file parses, but when it
    does not parse the extractor returns the empty mapping, which holds
    none of them. *)
Theorem metadata_basic_keys :
  (forall (w : World) (file_path : str),
     has_basic_keys (PDFProcessor.extract_metadata w file_path))
  /\ (forall (w : World) (file_path : str) (data : json),
        json_load w file_path = Ok data ->
        has_basic_keys (JSONProcessor.extract_metadata w file_path))
  /\ (forall (w : World) (file_path : str) (e : exn),
        json_load w file_path = Raise e ->
        JSONProcessor.extract_metadata w file_path = ∅
        /\ JSONProcessor.extract_metadata w file_path !! "file_extension" = None
        /\ JSONProcessor.extract_metadata w file_path !! "processing_method"
           = None
        /\ JSONProcessor.extract_metadata w file_path !! "processor" = None).
Proof.
  split; [|split].
  - intros w file_path. unfold PDFProcessor.extract_metadata.
    destruct (pypdf w); simpl.
    + destruct (PDFProcessor.read_metadata w file_path) as [m|e] eqn:E.
      * now apply (pdf_read_metadata_keys w file_path).
      * apply has_basic_keys_initial.
    + apply has_basic_keys_initial.
  - intros w file_path data E. unfold JSONProcessor.extract_metadata.
    rewrite E.
    destruct data as [| | | | |items|members].
    1-5: apply has_basic_keys_initial.
    + do 2 apply has_basic_keys_insert. apply has_basic_keys_initial.
    + apply copy_fields_keys. do 2 apply has_basic_keys_insert.
      apply has_basic_keys_initial.
  - intros w file_path e E. unfold JSONProcessor.extract_metadata.
    rewrite E. repeat split.
Qed.

Lemma metadata_basic_keys_witness :
  JSONProcessor.extract_metadata (uniform_world (py "not json"))
    (py "notes.json") = ∅
  /\ JSONProcessor.extract_metadata (uniform_world (py "not json"))
       (py "notes.json") !! "file_extension" = None
  /\ JSONProcessor.extract_metadata (uniform_world (py "not json"))
       (py "notes.json") !! "processing_method" = None
  /\ JSONProcessor.extract_metadata (uniform_world (py "not json"))
       (py "notes.json") !! "processor" = None.
Proof.
  destruct metadata_basic_keys as (_ & _ & H).
  apply (H (uniform_world (py "not json")) (py "notes.json")
           {| kind := ValueError; message := py "not a JSON file" |}).
  reflexivity.
Defined.

(** * Path safety *)

Lemma has_dotdot_cons (c : char) (s : str) :
  has_dotdot s = true -> has_dotdot (c :: s) = true.
Proof.
  intros H. destruct s as [|d s]; [discriminate|].
  change (has_dotdot (c :: d :: s))
    with ((c =? dot)%N && (d =? dot)%N || has_dotdot (d :: s)).
  rewrite H. apply orb_true_r.
Qed.

Lemma has_dotdot_app_r (a b : str) :
  has_dotdot b = true -> has_dotdot (a ++ b) = true.
Proof.
  intros H. induction a as [|c a IH]; [exact H|].
  simpl app. now apply has_dotdot_cons.
Qed.

Lemma has_dotdot_app_l (a b : str) :
  has_dotdot a = true -> has_dotdot (a ++ b) = true.
Proof.
  induction a as [|c a IH]; [discriminate|].
  destruct a as [|d a]; [discriminate|].
  change (has_dotdot (c :: d :: a))
    with ((c =? dot)%N && (d =? dot)%N || has_dotdot (d :: a)).
  change (has_dotdot ((c :: d :: a) ++ b))
    with ((c =? dot)%N && (d =? dot)%N || has_dotdot ((d :: a) ++ b)).
  intros H. apply orb_true_iff in H as [H|H].
  - now rewrite H.
  - rewrite (IH H). apply orb_true_r.
Qed.

Lemma has_dotdot_slash (c : char) (s : str) :
  is_slash c = true -> has_dotdot (c :: s) = has_dotdot s.
Proof.
  intros H. apply N.eqb_eq in H. subst c.
  destruct s as [|d s]; reflexivity.
Qed.

(** Two dots in a row lie within one of the fields between the slashes. *)
Lemma has_dotdot_field (s : str) :
  has_dotdot s = true ->
  exists f, List.In f (fields_by is_slash s) /\ has_dotdot f = true.
Proof.
  induction s as [|a r IH]; [discriminate|].
  destruct r as [|b r']; [discriminate|].
  change (has_dotdot (a :: b :: r'))
    with ((a =? dot)%N && (b =? dot)%N || has_dotdot (b :: r')).
  intros H. apply orb_true_iff in H as [H|H].
  - apply andb_true_iff in H as [Ha Hb].
    apply N.eqb_eq in Ha, Hb. subst a b.
    change (fields_by is_slash (dot :: dot :: r'))
      with (cons_head dot (cons_head dot (fields_by is_slash r'))).
    destruct (fields_by is_slash r') as [|f fs].
    + exists [dot; dot]. split; [now left | reflexivity].
    + exists (dot :: dot :: f). split; [now left | reflexivity].
  - destruct (IH H) as (f & Hin & Hf).
    rewrite (fields_by_cons is_slash a (b :: r')).
    destruct (is_slash a).
    + exists f. split; [now right | exact Hf].
    + destruct (fields_by is_slash (b :: r')) as [|g gs]; [exfalso; exact Hin|].
      destruct Hin as [<-|Hin].
      * exists (a :: g). split; [simpl; now left | now apply has_dotdot_cons].
      * exists f. split; [simpl; now right | exact Hf].
Qed.

Lemma has_dotdot_keep (f : str) : has_dotdot f = true -> keep_part f = true.
Proof.
  destruct f as [|a [|b f]]; try discriminate.
  intros _. unfold keep_part. simpl.
  destruct (a =? dot)%N; reflexivity.
Qed.

Lemma has_dotdot_join (sep : char) (l : list str) (f : str) :
  List.In f l -> has_dotdot f = true -> has_dotdot (join sep l) = true.
Proof.
  intros Hin Hf. induction l as [|x l IH]; [exfalso; exact Hin|].
  destruct l as [|y l].
  - destruct Hin as [<-|Hin]; [exact Hf | exfalso; exact Hin].
  - rewrite join_cons by discriminate. destruct Hin as [<-|Hin].
    + now apply has_dotdot_app_l.
    + apply has_dotdot_app_r, has_dotdot_cons. now apply IH.
Qed.

Lemma has_dotdot_splitroot (s : str) :
  has_dotdot s = true -> has_dotdot (snd (splitroot s)) = true.
Proof.
  unfold splitroot. destruct s as [|a r]; [discriminate|].
  destruct (is_slash a) eqn:Ha; [|trivial].
  rewrite (has_dotdot_slash a r Ha).
  destruct r as [|b r2]; [trivial|].
  destruct (is_slash b) eqn:Hb; [|trivial].
  destruct r2 as [|c r3]; [discriminate|].
  destruct (is_slash c) eqn:Hc; [trivial|].
  now rewrite (has_dotdot_slash b (c :: r3) Hb).
Qed.

(** Making a path of a string and writing it back keeps two dots in a
    row. *)
Lemma has_dotdot_path (s : str) :
  has_dotdot s = true -> has_dotdot (path_str (Path s)) = true.
Proof.
  intros H. unfold Path. pose proof (has_dotdot_splitroot s H) as Hr.
  destruct (splitroot s) as [rt rel]. simpl in Hr.
  destruct (has_dotdot_field rel Hr) as (f & Hin & Hf).
  unfold path_str. simpl root. simpl parts.
  assert (Hj : has_dotdot
                 (rt ++ join slash
                          (List.filter keep_part (fields_by is_slash rel)))
               = true).
  { apply has_dotdot_app_r. apply (has_dotdot_join slash _ f); [|exact Hf].
    apply List.filter_In. split; [exact Hin | now apply has_dotdot_keep]. }
  destruct (rt ++ join slash (List.filter keep_part (fields_by is_slash rel)));
    [discriminate | exact Hj].
Qed.

(** C9. A path that holds two dots in a row is judged unsafe whatever the
    file system says, and [process_document] then returns the rejected
    triple [("", {}, False)] without a call to an extractor or a read of
    the file. *)
Theorem dotdot_path_rejected (self : DocumentProcessorManager) (w : World)
    (file_path : str) :
  has_dotdot file_path = true ->
  _is_safe_path w (Path file_path) = Ok false
  /\ process_document self w file_path = ([], Ok rejected).
Proof.
  intros H. pose proof (has_dotdot_path file_path H) as Hp.
  assert (Hsafe : _is_safe_path w (Path file_path) = Ok false).
  { unfold _is_safe_path. now rewrite Hp. }
  split; [exact Hsafe|].
  unfold process_document. now rewrite Hsafe.
Qed.

Lemma dotdot_path_rejected_witness :
  _is_safe_path (uniform_world (py "root:x:0:0:")) (Path (py "../../etc/passwd"))
  = Ok false
  /\ process_document (manager 1000 200) (uniform_world (py "root:x:0:0:"))
       (py "../../etc/passwd")
     = ([], Ok rejected).
Proof.
  apply (dotdot_path_rejected (manager 1000 200)
           (uniform_world (py "root:x:0:0:")) (py "../../etc/passwd")).
  reflexivity.
Defined.

(** * The ingestion loop *)

Lemma add_stats_no_stats_r (s : Stats) : add_stats s no_stats = s.
Proof.
  destruct s as [p f e]. unfold add_stats. simpl.
  rewrite List.app_nil_r, !Z.add_0_r. reflexivity.
Qed.

Lemma add_stats_no_stats_l (s : Stats) : add_stats no_stats s = s.
Proof. destruct s as [p f e]. reflexivity. Qed.

Lemma add_stats_assoc (a b c : Stats) :
  add_stats (add_stats a b) c = add_stats a (add_stats b c).
Proof.
  unfold add_stats. simpl. rewrite !Z.add_assoc, List.app_assoc. reflexivity.
Qed.

Lemma record_failure_add (stats : Stats) (msg : str) :
  record_failure stats msg = add_stats stats (record_failure no_stats msg).
Proof.
  unfold record_failure, add_stats. simpl. now rewrite Z.add_0_r.
Qed.

Lemma record_success_add (stats : Stats) :
  record_success stats = add_stats stats (record_success no_stats).
Proof.
  unfold record_success, add_stats. simpl.
  now rewrite Z.add_0_r, List.app_nil_r.
Qed.

(** One turn of the loop adds to the state what the file does alone. *)
Lemma ingest_file_alone (self : DocumentProcessorManager) (w : World)
    (stats : Stats) (stored : list batch) (f : UploadFile) :
  ingest_file self w (stats, stored) f
  = (add_stats stats (fst (ingest_alone self w f)),
     stored ++ snd (ingest_alone self w f)).
Proof.
  unfold ingest_alone, ingest_file.
  destruct (oversize f (max_file_size self)).
  { simpl. now rewrite List.app_nil_r, record_failure_add. }
  match goal with
  | |- match ?c with _ => _ end = _ => destruct c as [tmp|e]
  end.
  - destruct (process_upload self w f tmp) as [[b|]|e]; simpl.
    + now rewrite record_success_add.
    + now rewrite List.app_nil_r, record_failure_add.
    + now rewrite List.app_nil_r, record_failure_add.
  - simpl. now rewrite List.app_nil_r, record_failure_add.
Qed.

Lemma fold_ingest_file (self : DocumentProcessorManager) (w : World)
    (files : list UploadFile) :
  forall (stats : Stats) (stored : list batch),
    List.fold_left (ingest_file self w) files (stats, stored)
    = (add_stats stats (fst (ingest self w files)),
       stored ++ snd (ingest self w files)).
Proof.
  unfold ingest. induction files as [|f rest IH]; intros stats stored.
  - simpl. now rewrite add_stats_no_stats_r, List.app_nil_r.
  - cbn [List.fold_left]. rewrite (ingest_file_alone self w stats stored f).
    rewrite (ingest_file_alone self w no_stats [] f).
    rewrite IH. rewrite (IH (add_stats no_stats _)).
    rewrite add_stats_no_stats_l. simpl app.
    now rewrite add_stats_assoc, List.app_assoc.
Qed.

(** A batch of files does what its parts do, one after the other. *)
Lemma ingest_app (self : DocumentProcessorManager) (w : World)
    (before after : list UploadFile) :
  ingest self w (before ++ after)
  = (add_stats (fst (ingest self w before)) (fst (ingest self w after)),
     snd (ingest self w before) ++ snd (ingest self w after)).
Proof.
  unfold ingest at 1. rewrite List.fold_left_app.
  fold (ingest self w before).
  destruct (ingest self w before) as [s1 st1]. apply fold_ingest_file.
Qed.

Lemma ingest_single (self : DocumentProcessorManager) (w : World)
    (f : UploadFile) :
  ingest self w [f] = ingest_alone self w f.
Proof. reflexivity. Qed.

(** One file alone is processed, and stores its batch, or fails, and
    leaves one error that holds its name. *)
Lemma ingest_alone_cases (self : DocumentProcessorManager) (w : World)
    (f : UploadFile) :
  (exists b : batch,
     ingest_alone self w f
     = ({| processed_files := 1; failed_files := 0; errors := [] |}, [b]))
  \/ (exists msg : str,
        mentions msg (filename f)
        /\ ingest_alone self w f
           = ({| processed_files := 0; failed_files := 1; errors := [msg] |},
              [])).
Proof.
  unfold ingest_alone, ingest_file.
  destruct (oversize f (max_file_size self)).
  { right. eexists. split; [|reflexivity]. now eexists _, _. }
  match goal with
  | |- context [match ?c with _ => _ end] => destruct c as [tmp|e]
  end.
  - destruct (process_upload self w f tmp) as [[b|]|e].
    + left. now exists b.
    + right. eexists. split; [|reflexivity].
      exists (py "Failed to extract text from "), []. now rewrite List.app_nil_r.
    + right. eexists. split; [|reflexivity]. now eexists _, _.
  - right. eexists. split; [|reflexivity]. now eexists _, _.
Qed.

Lemma ingest_cons (self : DocumentProcessorManager) (w : World)
    (f : UploadFile) (rest : list UploadFile) :
  ingest self w (f :: rest)
  = (add_stats (fst (ingest_alone self w f)) (fst (ingest self w rest)),
     snd (ingest_alone self w f) ++ snd (ingest self w rest)).
Proof. apply (ingest_app self w [f] rest). Qed.

Lemma ingest_oversize (self : DocumentProcessorManager) (w : World)
    (f : UploadFile) :
  oversize f (max_file_size self) = true ->
  ingest_alone self w f
  = ({| processed_files := 0; failed_files := 1;
        errors := [size_error self f] |}, []).
Proof. intros H. unfold ingest_alone, ingest_file. now rewrite H. Qed.

Lemma ingest_counts (self : DocumentProcessorManager) (w : World)
    (files : list UploadFile) :
  processed_files (fst (ingest self w files))
  + failed_files (fst (ingest self w files))
  = Z.of_nat (List.length files)
  /\ Z.of_nat (List.length (errors (fst (ingest self w files))))
     = failed_files (fst (ingest self w files))
  /\ Z.of_nat (List.length (snd (ingest self w files)))
     = processed_files (fst (ingest self w files)).
Proof.
  induction files as [|f rest (H1 & H2 & H3)]; [now repeat split|].
  rewrite ingest_cons. cbn [fst snd].
  destruct (ingest_alone_cases self w f) as [[b E]|(msg & _ & E)];
    rewrite E;
    cbn [fst snd add_stats processed_files failed_files errors app List.length];
    lia.
Qed.

(** * More on the chunker *)

(** X1. [chunk_text] returns no chunk exactly when the text is blank. *)
Theorem chunk_text_empty_iff_blank (self : DocumentProcessorManager)
    (text : str) (arg : option Z) :
  chunk_text self text arg = [] <-> truthy (strip text) = false.
Proof.
  split.
  - intros E. destruct (truthy (strip text)) eqn:B; [|reflexivity].
    pose proof (chunk_text_weight self text arg B) as H.
    rewrite E in H. change (weight []) with 0 in H.
    pose proof (len_nonneg (clean_text text)). lia.
  - intros B.
    destruct (chunk_text_cases self text arg) as [[_ E]|[(T & _)|(T & _)]];
      [exact E| |];
      apply truthy_false in B; unfold clean_text in T; rewrite B in T;
      discriminate.
Qed.

(** X2. A text that is not blank and whose words, joined by single spaces,
    fit the size comes back as that one chunk. *)
Theorem short_text_single_chunk (self : DocumentProcessorManager)
    (text : str) (arg : option Z) :
  truthy (strip text) = true ->
  len (join_space (str_split text)) <= size_in_force self arg ->
  chunk_text self text arg = [join_space (str_split text)].
Proof.
  intros B L. rewrite <- (clean_text_words text) in *.
  destruct (chunk_text_cases self text arg) as [[B' _]|[(_ & _ & E)|(_ & G & _)]].
  - rewrite B in B'. discriminate.
  - exact E.
  - lia.
Qed.

Lemma short_text_single_chunk_witness :
  chunk_text (manager 1000 200) (py "  one	two

 three  ") None
  = [join_space (str_split (py "  one	two

 three  "))].
Proof.
  apply (short_text_single_chunk (manager 1000 200)); [reflexivity|].
  vm_compute. discriminate.
Defined.

Lemma str_split_word (w : str) :
  truthy w = true -> no_space w = true -> str_split w = [w].
Proof.
  intros T H. pose proof (word_tidy w T H) as Ht.
  pose proof (join_str_split w Ht) as J.
  pose proof (str_split_words w) as Hw.
  destruct (str_split w) as [|a [|b l]] eqn:E.
  - apply tidy_truthy in Ht. rewrite <- J in Ht. discriminate.
  - unfold join_space in J. simpl in J. now rewrite J.
  - exfalso. unfold join_space in J.
    rewrite join_cons in J by discriminate.
    assert (Hs : no_space (a ++ space :: join space (b :: l)) = true)
      by now rewrite J.
    unfold no_space in Hs. rewrite List.forallb_app in Hs.
    apply andb_true_iff in Hs as [_ Hs]. simpl in Hs. discriminate.
Qed.

(** The word loop keeps the words as they are. *)
Lemma pack_words_words (size : Z) (words : list str) :
  List.Forall (fun w => truthy w = true /\ no_space w = true) words ->
  forall (final : list str) (cur : str),
    let r := pack_words size words final cur in
    List.flat_map str_split (fst r ++ held (snd r))
    = List.flat_map str_split (final ++ held cur) ++ words.
Proof.
  induction 1 as [|w rest [Tw Hw] _ IH]; intros final cur.
  - simpl. now rewrite List.app_nil_r.
  - cbv zeta. simpl pack_words.
    assert (Ew : List.flat_map str_split (held w) = [w]).
    { unfold held. rewrite Tw. simpl. rewrite List.app_nil_r.
      now apply str_split_word. }
    destruct (len cur + len w + 1 <=? size).
    + destruct (truthy cur) eqn:T.
      * specialize (IH final (cur ++ space :: w)). cbv zeta in IH.
        etransitivity; [exact IH|].
        assert (T' : truthy (cur ++ space :: w) = true)
          by (destruct cur; reflexivity).
        unfold held. rewrite T, T'.
        rewrite !List.flat_map_app. simpl List.flat_map.
        rewrite !List.app_nil_r.
        rewrite (str_split_app cur w space space_is_space).
        rewrite (str_split_word w Tw Hw).
        now rewrite <- !List.app_assoc.
      * apply truthy_false in T. subst cur.
        specialize (IH final w). cbv zeta in IH.
        etransitivity; [exact IH|].
        rewrite !List.flat_map_app, Ew. simpl.
        now rewrite List.app_nil_r, <- List.app_assoc.
    + specialize (IH (if truthy cur then final ++ [cur] else final) w).
      cbv zeta in IH. etransitivity; [exact IH|].
      rewrite !List.flat_map_app, Ew. unfold held.
      destruct (truthy cur).
      * rewrite List.flat_map_app. now rewrite <- !List.app_assoc.
      * simpl. now rewrite List.app_nil_r, <- List.app_assoc.
Qed.

(** Splitting a chunk again keeps its words. *)
Lemma resplit_words (size : Z) (chunk : str) :
  List.flat_map str_split (resplit size [] chunk) = str_split chunk.
Proof.
  unfold resplit. destruct (len chunk <=? size).
  - simpl. apply List.app_nil_r.
  - pose proof (pack_words_words size (str_split chunk)
                  (str_split_words chunk) [] []) as H.
    cbv zeta in H.
    destruct (pack_words size (str_split chunk) [] []) as [f c].
    simpl in H. rewrite <- H. unfold held.
    destruct (truthy c); [reflexivity | now rewrite List.app_nil_r].
Qed.

Lemma flat_map_resplit_words (size : Z) (chunks : list str) :
  List.flat_map str_split (List.flat_map (resplit size []) chunks)
  = List.flat_map str_split chunks.
Proof.
  induction chunks as [|c rest IH]; [reflexivity|].
  simpl. now rewrite List.flat_map_app, resplit_words, IH.
Qed.

(** The sentence loop keeps every word of every sentence, whatever the
    overlap. *)
Lemma accumulate_words (size overlap : Z) (sentences : list str) :
  forall (chunks : list str) (cur : str),
    let r := accumulate size overlap sentences chunks cur in
    List.incl
      (List.flat_map str_split chunks ++ str_split cur
         ++ List.flat_map str_split sentences)
      (List.flat_map str_split (fst r) ++ str_split (snd r)).
Proof.
  induction sentences as [|s rest IH]; intros chunks cur.
  - simpl. rewrite List.app_nil_r. apply List.incl_refl.
  - cbv zeta. simpl accumulate. cbv zeta.
    destruct ((len cur + len s >? size) && truthy cur).
    + destruct ((overlap >? 0) && (len cur >? overlap)).
      * eapply List.incl_tran; [|apply IH].
        rewrite List.flat_map_app. simpl List.flat_map.
        rewrite List.app_nil_r, str_split_strip.
        rewrite (str_split_app _ s space space_is_space).
        intros x Hx. rewrite !List.in_app_iff in *. tauto.
      * eapply List.incl_tran; [|apply IH].
        rewrite List.flat_map_app. simpl List.flat_map.
        rewrite List.app_nil_r, str_split_strip.
        intros x Hx. rewrite !List.in_app_iff in *. tauto.
    + destruct (truthy cur) eqn:T.
      * eapply List.incl_tran; [|apply IH].
        rewrite (str_split_app cur s space space_is_space).
        simpl List.flat_map.
        intros x Hx. rewrite !List.in_app_iff in *. tauto.
      * apply truthy_false in T. subst cur.
        eapply List.incl_tran; [|apply IH].
        simpl List.flat_map.
        intros x Hx. rewrite !List.in_app_iff in *. simpl in Hx. tauto.
Qed.

Lemma sentence_chunks_words (size overlap : Z) (text : str) :
  tidy text = true ->
  List.incl (str_split text)
    (List.flat_map str_split (sentence_chunks size overlap text)).
Proof.
  intros Ht. unfold sentence_chunks.
  pose proof (accumulate_words size overlap (re_split_sentences text) [] [])
    as H. cbv zeta in H.
  destruct (accumulate size overlap (re_split_sentences text) [] [])
    as [chunks cur]. simpl in H.
  rewrite <- str_split_join, (sentences_join text Ht) in H.
  intros w Hw. specialize (H w Hw). rewrite List.in_app_iff in H.
  rewrite <- (str_split_strip cur) in H.
  destruct (truthy (strip cur)) eqn:T.
  - rewrite List.flat_map_app, List.in_app_iff. simpl.
    now rewrite List.app_nil_r.
  - apply truthy_false in T. rewrite T in H.
    destruct H as [H|H]; [exact H | destruct H].
Qed.

(** X3. No word of the text is lost, whatever the size and the overlap:
    every word of the text is a word of one of the chunks. *)
Theorem every_word_in_a_chunk (self : DocumentProcessorManager) (text : str)
    (arg : option Z) (w : str) :
  List.In w (str_split text) ->
  exists c, List.In c (chunk_text self text arg) /\ List.In w (str_split c).
Proof.
  intros Hw. apply List.in_flat_map.
  assert (E : str_split (clean_text text) = str_split text).
  { unfold clean_text. now rewrite str_split_sub_ws, str_split_strip. }
  destruct (chunk_text_cases self text arg) as [[B F]|[(_ & _ & F)|(T & _ & F)]];
    rewrite F.
  - apply truthy_false in B. rewrite <- str_split_strip, B in Hw.
    destruct Hw.
  - simpl. now rewrite List.app_nil_r, E.
  - rewrite fold_resplit_flat_map. simpl app.
    rewrite flat_map_resplit_words.
    apply (sentence_chunks_words _ _ _ T). now rewrite E.
Qed.

Lemma every_word_in_a_chunk_witness :
  exists c,
    List.In c (chunk_text (manager 10 3) (py "ab cd. ef gh. ij") None)
    /\ List.In (py "gh.") (str_split c).
Proof.
  apply (every_word_in_a_chunk (manager 10 3) (py "ab cd. ef gh. ij") None
           (py "gh.")).
  vm_compute. tauto.
Defined.

Lemma tight_tail (c : char) (s : str) : tight (c :: s) = true -> tight s = true.
Proof. simpl. intros H. now apply andb_true_iff in H as [_ H]. Qed.

Lemma tight_skipn (n : nat) (s : str) :
  tight s = true -> tight (List.skipn n s) = true.
Proof.
  revert s. induction n as [|n IH]; intros s H; [exact H|].
  destruct s as [|c s]; [reflexivity|].
  simpl List.skipn. apply IH. now apply (tight_tail c).
Qed.

Lemma tight_lstrip (s : str) : tight s = true -> tight (lstrip s) = true.
Proof.
  induction s as [|c s IH]; intros H; [reflexivity|].
  simpl lstrip. destruct (is_space c); [|exact H].
  apply IH. now apply (tight_tail c).
Qed.

Lemma strip_tight_tidy (cur : str) :
  tight cur = true -> ends_solid cur = true -> tidy (strip cur) = true.
Proof.
  intros Ht He. unfold strip. rewrite (rstrip_id cur He). unfold tidy.
  rewrite (tight_lstrip cur Ht), andb_true_r.
  destruct (lstrip_shape cur) as [E|E]; [|exact E].
  apply lstrip_ends_solid in He. rewrite E in He. discriminate.
Qed.

Lemma tight_seed (a s : str) :
  tight a = true -> tidy s = true -> tight (a ++ space :: s) = true.
Proof.
  intros Ha Hs. apply tight_app; [exact Ha|].
  simpl. now rewrite (tidy_starts s Hs), (tidy_tight s Hs).
Qed.

(** Whatever the overlap, the sentence loop puts aside tidy chunks. *)
Lemma accumulate_tidy (size overlap : Z) (sentences : list str) :
  List.Forall (fun s => tidy s = true) sentences ->
  forall (chunks : list str) (cur : str),
    List.Forall (fun c => tidy c = true) chunks ->
    (cur = [] \/ tight cur = true /\ ends_solid cur = true) ->
    let r := accumulate size overlap sentences chunks cur in
    List.Forall (fun c => tidy c = true) (fst r)
    /\ (snd r = [] \/ tight (snd r) = true /\ ends_solid (snd r) = true).
Proof.
  induction 1 as [|s rest Hs _ IH]; intros chunks cur Hch Hcur.
  - simpl. now split.
  - assert (Hseed : forall a, tight a = true ->
              tight (a ++ space :: s) = true
              /\ ends_solid (a ++ space :: s) = true).
    { intros a Ha. split; [now apply tight_seed|].
      apply ends_solid_app, ends_solid_cons. now apply tidy_ends. }
    assert (Hsole : tight s = true /\ ends_solid s = true).
    { split; [now apply tidy_tight | now apply tidy_ends]. }
    cbv zeta. simpl accumulate. cbv zeta.
    destruct ((len cur + len s >? size) && truthy cur) eqn:E.
    + apply andb_true_iff in E as [_ T].
      destruct Hcur as [->|[Ht He]]; [discriminate|].
      assert (Hch' : List.Forall (fun c => tidy c = true)
                       (chunks ++ [strip cur])).
      { apply List.Forall_app. split; [exact Hch|].
        constructor; [now apply strip_tight_tidy | constructor]. }
      destruct ((overlap >? 0) && (len cur >? overlap)).
      * apply IH; [exact Hch'|]. right. apply Hseed.
        now apply tight_skipn.
      * apply IH; [exact Hch' | now right].
    + destruct (truthy cur) eqn:T.
      * destruct Hcur as [->|[Ht He]]; [discriminate|].
        apply IH; [exact Hch|]. right. now apply Hseed.
      * apply IH; [exact Hch | now right].
Qed.

Lemma sentence_chunks_tidy (size overlap : Z) (text : str) :
  tidy text = true ->
  List.Forall (fun c => tidy c = true) (sentence_chunks size overlap text).
Proof.
  intros Ht. unfold sentence_chunks.
  destruct (accumulate_tidy size overlap _ (sentences_tidy text Ht) [] []
              (List.Forall_nil _) (or_introl eq_refl)) as [H1 H2].
  cbv zeta in H1, H2.
  destruct (accumulate size overlap (re_split_sentences text) [] [])
    as [chunks cur]. simpl in H1, H2.
  destruct (truthy (strip cur)) eqn:T; [|exact H1].
  apply List.Forall_app. split; [exact H1|]. constructor; [|constructor].
  destruct H2 as [->|[Ht' He]]; [discriminate|].
  now apply strip_tight_tidy.
Qed.

(** X4. Every chunk is already clean: it is its own words joined by single
    spaces, so it holds no tab, no line break and no run of spaces, whatever
    the size and the overlap. *)
Theorem chunks_are_clean (self : DocumentProcessorManager) (text : str)
    (arg : option Z) :
  List.Forall (fun c => join_space (str_split c) = c /\ clean_text c = c)
    (chunk_text self text arg).
Proof.
  assert (Htidy : List.Forall (fun c => tidy c = true)
                    (chunk_text self text arg)).
  { destruct (chunk_text_cases self text arg)
      as [[_ E]|[(T & _ & E)|(T & _ & E)]]; rewrite E.
    - constructor.
    - now repeat constructor.
    - set (size := size_in_force self arg).
      pose proof (sentence_chunks_tidy size (chunk_overlap self) _ T) as Hch.
      rewrite List.Forall_forall in Hch.
      apply fold_resplit_spec; [| | |constructor].
      + intros chunk w _ Hw.
        pose proof (str_split_tidy chunk) as H.
        rewrite List.Forall_forall in H. now apply H.
      + intros chunk a w _ Ha Hw _. apply tidy_join2; [exact Ha|].
        pose proof (str_split_tidy chunk) as H.
        rewrite List.Forall_forall in H. now apply H.
      + intros chunk Hc _. now apply Hch. }
  eapply List.Forall_impl; [|exact Htidy].
  intros c Hc. pose proof (join_str_split c Hc) as J.
  split; [exact J|]. now rewrite clean_text_words.
Qed.

(** * The overlap between consecutive chunks *)



















(** * The per-document pipeline *)

Lemma str_eqb_eq (a b : str) : str_eqb a b = true <-> a = b.
Proof.
  revert b. induction a as [|x a IH]; intros [|y b]; simpl;
    try (split; [discriminate | discriminate]); [tauto|].
  rewrite andb_true_iff, N.eqb_eq, IH. split.
  - now intros [-> ->].
  - now intros [= -> ->].
Qed.

(** X5. The safety check says yes exactly when the path holds no two dots in
    a row and the file system tells that it exists and is a regular file; an
    [OSError] or a [ValueError] of the file system never leaves it. *)
Theorem safe_path_exactly (w : World) (file_path : PurePath) :
  (_is_safe_path w file_path = Ok true
   <-> has_dotdot (path_str file_path) = false
       /\ path_exists w (path_str file_path) = Ok true
       /\ path_is_file w (path_str file_path) = Ok true)
  /\ (forall e : exn,
        _is_safe_path w file_path = Raise e ->
        kind e <> OSError /\ kind e <> ValueError).
Proof.
  unfold _is_safe_path.
  destruct (has_dotdot (path_str file_path)).
  { split; [|discriminate]. split; [discriminate | now intros [? _]]. }
  destruct (path_exists w (path_str file_path)) as [[|]|e1]; simpl.
  - destruct (path_is_file w (path_str file_path)) as [[|]|e2]; simpl.
    + split; [tauto | discriminate].
    + split; [|discriminate].
      split; [discriminate | now intros (_ & _ & ?)].
    + unfold catches. simpl.
      destruct e2 as [[] msg]; simpl; split;
        try (split; [discriminate | now intros (_ & _ & ?)]);
        try discriminate; intros e [= <-]; simpl; split; discriminate.
  - split; [|discriminate].
    split; [discriminate | now intros (_ & ? & _)].
  - unfold catches. simpl.
    destruct e1 as [[] msg]; simpl; split;
      try (split; [discriminate | now intros (_ & ? & _)]);
      try discriminate; intros e [= <-]; simpl; split; discriminate.
Qed.

Lemma pdf_metadata_keys (w : World) (file_path : str) :
  has_basic_keys (PDFProcessor.extract_metadata w file_path).
Proof.
  unfold PDFProcessor.extract_metadata. destruct (pypdf w); simpl.
  - destruct (PDFProcessor.read_metadata w file_path) as [m|e] eqn:E.
    + now apply (pdf_read_metadata_keys w file_path).
    + apply has_basic_keys_initial.
  - apply has_basic_keys_initial.
Qed.

Lemma json_metadata_keys (w : World) (file_path : str) (data : json) :
  json_load w file_path = Ok data ->
  has_basic_keys (JSONProcessor.extract_metadata w file_path).
Proof.
  intros E. unfold JSONProcessor.extract_metadata. rewrite E.
  destruct data as [| | | | |items|members].
  1-5: apply has_basic_keys_initial.
  - do 2 apply has_basic_keys_insert. apply has_basic_keys_initial.
  - apply copy_fields_keys. do 2 apply has_basic_keys_insert.
    apply has_basic_keys_initial.
Qed.

Lemma finish_cases (text : str) (metadata : gmap string meta) :
  (truthy (strip text) = false /\ finish text metadata = rejected)
  \/ (truthy (strip text) = true /\ finish text metadata = (text, metadata, true)).
Proof.
  unfold finish. destruct (truthy (strip text)); [now right | now left].
Qed.

(** What [read_document] returns is the rejected triple, or a text that is
    not blank with metadata that hold the three basic keys. *)
Lemma read_document_outcome (self : DocumentProcessorManager) (w : World)
    (file_path : PurePath) :
  snd (read_document self w file_path) = rejected
  \/ exists text metadata,
       snd (read_document self w file_path) = (text, metadata, true)
       /\ truthy (strip text) = true
       /\ has_basic_keys metadata
       /\ exists n, stat_size w (path_str file_path) = Ok n
                    /\ n <= max_file_size self.
Proof.
  unfold read_document.
  destruct (stat_size w (path_str file_path)) as [n|e]; [|now left].
  destruct (n >? max_file_size self) eqn:G; [now left|].
  assert (Hn : n <= max_file_size self).
  { destruct (Z.gtb_spec n (max_file_size self)); [discriminate | assumption]. }
  destruct (get_processor w (path_str file_path)) as [[|]|].
  - destruct (PDFProcessor.extract_text w (path_str file_path)) as [text|e];
      [|now left].
    cbn [snd].
    destruct (finish_cases text
                (PDFProcessor.extract_metadata w (path_str file_path)))
      as [[_ ->]|[T ->]]; [now left | right].
    eexists _, _. split; [reflexivity|]. split; [exact T|].
    split; [apply pdf_metadata_keys | now exists n].
  - unfold JSONProcessor.extract_text.
    destruct (json_load w (path_str file_path)) as [data|e] eqn:E.
    + cbn [snd].
      destruct (finish_cases (join 10%N (JSONProcessor.extract_text_recursive
                                          w data []))
                  (JSONProcessor.extract_metadata w (path_str file_path)))
        as [[_ ->]|[T ->]]; [now left | right].
      eexists _, _. split; [reflexivity|]. split; [exact T|].
      split; [now apply (json_metadata_keys w _ data) | now exists n].
    + now left.
  - destruct (read_text w (path_str file_path)) as [text|e]; [|now left].
    cbn [snd].
    match goal with
    | |- context [finish text ?m] =>
        destruct (finish_cases text m) as [[_ ->]|[T ->]]; [now left | right]
    end.
    eexists _, _. split; [reflexivity|]. split; [exact T|].
    split; [apply has_basic_keys_initial | now exists n].
Qed.

(** X6. When [process_document] returns, it returns the triple [("", {},
    False)] or a success: then the text is not blank, the metadata hold the
    three basic keys, the path passed the safety check and the size of the
    file is within the ceiling. *)
Theorem process_document_outcome (self : DocumentProcessorManager)
    (w : World) (file_path : str) (doc : document) :
  snd (process_document self w file_path) = Ok doc ->
  doc = rejected
  \/ exists text metadata,
       doc = (text, metadata, true)
       /\ truthy (strip text) = true
       /\ has_basic_keys metadata
       /\ _is_safe_path w (Path file_path) = Ok true
       /\ exists n, stat_size w (path_str (Path file_path)) = Ok n
                    /\ n <= max_file_size self.
Proof.
  unfold process_document.
  destruct (_is_safe_path w (Path file_path)) as [[|]|e] eqn:S.
  - pose proof (read_document_outcome self w (Path file_path)) as H.
    destruct (read_document self w (Path file_path)) as [calls d].
    cbn [snd] in *. intros [= <-].
    destruct H as [H|(text & metadata & H1 & H2 & H3 & H4)]; [now left|].
    right. exists text, metadata.
    exact (conj H1 (conj H2 (conj H3 (conj eq_refl H4)))).
  - cbn [snd]. intros [= <-]. now left.
  - discriminate.
Qed.

Lemma process_document_outcome_witness :
  (py "One. Two.",
   ({[ "file_extension" := MStr (py ".txt");
       "processing_method" := MStr (py "direct_file_read");
       "processor" := MStr (py "none") ]} : gmap string meta),
   true) = rejected
  \/ exists text metadata,
       (py "One. Two.",
        ({[ "file_extension" := MStr (py ".txt");
            "processing_method" := MStr (py "direct_file_read");
            "processor" := MStr (py "none") ]} : gmap string meta),
        true) = (text, metadata, true)
       /\ truthy (strip text) = true
       /\ has_basic_keys metadata
       /\ _is_safe_path (uniform_world (py "One. Two."))
            (Path (py "/data/notes.txt")) = Ok true
       /\ exists n,
            stat_size (uniform_world (py "One. Two."))
              (path_str (Path (py "/data/notes.txt"))) = Ok n
            /\ n <= max_file_size (manager 1000 200).
Proof.
  apply (process_document_outcome (manager 1000 200)
           (uniform_world (py "One. Two.")) (py "/data/notes.txt")).
  reflexivity.
Defined.

(** X7. The processor chosen for a file depends on the lower-cased suffix of
    its name alone, and the PDF processor is chosen only when [pypdf] is
    there: without it a PDF file has no processor. *)
Theorem get_processor_by_suffix (w : World) (file_path : str) :
  (get_processor w file_path = Some PDF
   <-> pypdf w = true /\ lower (suffix (Path file_path)) = py ".pdf")
  /\ (get_processor w file_path = Some JSON
      <-> lower (suffix (Path file_path)) = py ".json")
  /\ (get_processor w file_path = None
      <-> lower (suffix (Path file_path)) <> py ".json"
          /\ (pypdf w = false
              \/ lower (suffix (Path file_path)) <> py ".pdf")).
Proof.
  unfold get_processor, can_process, PDFProcessor.supported_extensions,
    JSONProcessor.supported_extensions.
  set (ext := lower (suffix (Path file_path))).
  assert (Hpdf : str_eqb ext (py ".pdf") = true <-> ext = py ".pdf")
    by apply str_eqb_eq.
  assert (Hjson : str_eqb ext (py ".json") = true <-> ext = py ".json")
    by apply str_eqb_eq.
  assert (Hne : ext = py ".pdf" -> ext = py ".json" -> False).
  { intros E1 E2. rewrite E1 in E2. discriminate. }
  simpl List.find.
  destruct (pypdf w); simpl List.existsb; rewrite ?orb_false_r;
    destruct (str_eqb ext (py ".pdf")) eqn:E1;
    destruct (str_eqb ext (py ".json")) eqn:E2;
    repeat split; try discriminate; try tauto; try (intros; exfalso; tauto);
    intuition discriminate.
Qed.




Lemma pages_text_ok (texts : list str) :
  forall acc : str,
    PDFProcessor.pages_text (List.map Ok texts) acc
    = Ok (acc ++ List.flat_map (fun t => t ++ [10%N]) texts).
Proof.
  induction texts as [|t rest IH]; intros acc; simpl.
  - now rewrite List.app_nil_r.
  - rewrite IH. now rewrite <- !List.app_assoc.
Qed.

Lemma pages_text_raise (pgs : list (result str)) (e : exn) :
  List.In (Raise e) pgs ->
  forall acc : str, exists e', PDFProcessor.pages_text pgs acc = Raise e'.
Proof.
  induction pgs as [|pg rest IH]; intros Hin acc; [destruct Hin|].
  simpl. destruct pg as [t|e0]; simpl.
  - destruct Hin as [Hin|Hin]; [discriminate|]. now apply IH.
  - now exists e0.
Qed.

(** X9. With [pypdf] the PDF text extraction never raises and its text has
    no white space at either end. The text is the pages, a line break after
    each, stripped; if the file cannot be opened or a single page fails, the
    text of the whole document is empty. *)
Theorem pdf_text_all_or_nothing (w : World) (file_path : str) :
  pypdf w = true ->
  (exists t, PDFProcessor.extract_text w file_path = Ok t /\ strip t = t)
  /\ (forall (reader : PdfReader) (texts : list str),
        open_pdf w file_path = Ok reader ->
        pages reader = Ok (List.map Ok texts) ->
        PDFProcessor.extract_text w file_path
        = Ok (strip (List.flat_map (fun t => t ++ [10%N]) texts)))
  /\ (forall (reader : PdfReader) (pgs : list (result str)) (e : exn),
        open_pdf w file_path = Ok reader ->
        pages reader = Ok pgs ->
        List.In (Raise e) pgs ->
        PDFProcessor.extract_text w file_path = Ok [])
  /\ (forall e : exn,
        open_pdf w file_path = Raise e ->
        PDFProcessor.extract_text w file_path = Ok []).
Proof.
  intros H. unfold PDFProcessor.extract_text. rewrite H. simpl.
  split; [|split; [|split]].
  - destruct (open_pdf w file_path) as [reader|e]; simpl;
      [|now exists []].
    destruct (pages reader) as [pgs|e]; simpl; [|now exists []].
    destruct (PDFProcessor.pages_text pgs []) as [t|e]; simpl;
      [|now exists []].
    eexists. split; [reflexivity | apply strip_idem].
  - intros reader texts -> E. simpl. rewrite E. simpl.
    now rewrite pages_text_ok.
  - intros reader pgs e -> E Hin. simpl. rewrite E. simpl.
    destruct (pages_text_raise pgs e Hin []) as [e' ->]. reflexivity.
  - intros e ->. reflexivity.
Qed.

Lemma pdf_text_all_or_nothing_witness :
  (exists t,
     PDFProcessor.extract_text (pdf_world sample_reader) (py "a.pdf") = Ok t
     /\ strip t = t)
  /\ (forall (reader : PdfReader) (texts : list str),
        open_pdf (pdf_world sample_reader) (py "a.pdf") = Ok reader ->
        pages reader = Ok (List.map Ok texts) ->
        PDFProcessor.extract_text (pdf_world sample_reader) (py "a.pdf")
        = Ok (strip (List.flat_map (fun t => t ++ [10%N]) texts)))
  /\ (forall (reader : PdfReader) (pgs : list (result str)) (e : exn),
        open_pdf (pdf_world sample_reader) (py "a.pdf") = Ok reader ->
        pages reader = Ok pgs ->
        List.In (Raise e) pgs ->
        PDFProcessor.extract_text (pdf_world sample_reader) (py "a.pdf")
        = Ok [])
  /\ (forall e : exn,
        open_pdf (pdf_world sample_reader) (py "a.pdf") = Raise e ->
        PDFProcessor.extract_text (pdf_world sample_reader) (py "a.pdf")
        = Ok []).
Proof.
  apply (pdf_text_all_or_nothing (pdf_world sample_reader) (py "a.pdf")).
  reflexivity.
Defined.

(** * The metadata of a PDF document *)

Lemma add_if_present_ok (key : string) (field : option str)
    (metadata : gmap string meta) :
  add_if_present key (Ok field) metadata
  = Ok (put_if_present key field metadata).
Proof.
  unfold add_if_present, put_if_present. simpl. now destruct (present field).
Qed.

Lemma lookup_put_if_present_ne (key k : string) (field : option str)
    (metadata : gmap string meta) :
  key <> k -> put_if_present key field metadata !! k = metadata !! k.
Proof.
  intros H. unfold put_if_present. destruct (present field); [|reflexivity].
  now apply lookup_insert_ne.
Qed.

Lemma lookup_put_if_present (key : string) (field : option str)
    (metadata : gmap string meta) :
  metadata !! key = None ->
  put_if_present key field metadata !! key = MStr <$> present field.
Proof.
  intros H. unfold put_if_present. destruct (present field); simpl.
  - apply lookup_insert_eq.
  - exact H.
Qed.

(** X10. When a PDF document opens and all its information reads, each
    optional field is in the metadata exactly when the document gives it a
    value that is not empty, with that value; the number of pages is always
    there. When reading one field raises (here the creation date), all of it
    is lost: the metadata are the basic ones. *)
Theorem pdf_metadata_fields (w : World) (file_path : str)
    (reader : PdfReader) (info : DocumentInformation)
    (pgs : list (result str)) :
  pypdf w = true ->
  open_pdf w file_path = Ok reader ->
  reader_metadata reader = Some info ->
  pages reader = Ok pgs ->
  (forall t a s c p cd md : option str,
     title info = Ok t -> author info = Ok a -> subject info = Ok s ->
     creator info = Ok c -> producer info = Ok p ->
     creation_date info = Ok cd -> modification_date info = Ok md ->
     let m := PDFProcessor.extract_metadata w file_path in
     m !! "title" = MStr <$> present t
     /\ m !! "author" = MStr <$> present a
     /\ m !! "subject" = MStr <$> present s
     /\ m !! "creator" = MStr <$> present c
     /\ m !! "producer" = MStr <$> present p
     /\ m !! "creation_date" = MStr <$> present cd
     /\ m !! "modification_date" = MStr <$> present md
     /\ m !! "page_count" = Some (MInt (Z.of_nat (List.length pgs)))
     /\ m !! "processing_method" = Some (MStr (py "pypdf")))
  /\ (forall (t a s c p : option str) (e : exn),
        title info = Ok t -> author info = Ok a -> subject info = Ok s ->
        creator info = Ok c -> producer info = Ok p ->
        creation_date info = Raise e ->
        PDFProcessor.extract_metadata w file_path
        = PDFProcessor._basic_metadata).
Proof.
  intros Hpy Hopen Hinfo Hpages.
  unfold PDFProcessor.extract_metadata, PDFProcessor.read_metadata.
  rewrite Hpy, Hopen. cbn [negb bind]. rewrite Hinfo, Hpages. split.
  - intros t a s c p cd md -> -> -> -> -> -> ->.
    repeat (rewrite add_if_present_ok; cbn [bind]). cbv zeta.
    repeat split;
      repeat first
        [ rewrite lookup_insert_ne by discriminate
        | rewrite lookup_put_if_present_ne by discriminate ];
      first
        [ rewrite lookup_put_if_present
            by (repeat first
                  [ rewrite lookup_insert_ne by discriminate
                  | rewrite lookup_put_if_present_ne by discriminate ];
                reflexivity);
          reflexivity
        | rewrite lookup_insert_eq; reflexivity
        | reflexivity ].
  - intros t a s c p e -> -> -> -> -> ->.
    repeat (rewrite add_if_present_ok; cbn [bind]). reflexivity.
Qed.

Lemma pdf_metadata_fields_witness :
  let m := PDFProcessor.extract_metadata (pdf_world sample_reader)
             (py "/data/model.pdf") in
  m !! "title" = Some (MStr (py "Threat model"))
  /\ m !! "author" = Some (MStr (py "PSIRT"))
  /\ m !! "subject" = None
  /\ m !! "creator" = None
  /\ m !! "producer" = None
  /\ m !! "creation_date" = None
  /\ m !! "modification_date" = None
  /\ m !! "page_count" = Some (MInt 2)
  /\ m !! "processing_method" = Some (MStr (py "pypdf")).
Proof.
  destruct (pdf_metadata_fields (pdf_world sample_reader)
              (py "/data/model.pdf") sample_reader sample_information
              [Ok (py "Page one. "); Ok (py "Page two.")]
              eq_refl eq_refl eq_refl eq_refl) as [H _].
  exact (H (Some (py "Threat model")) (Some (py "PSIRT")) None (Some [])
           None None None
           eq_refl eq_refl eq_refl eq_refl eq_refl eq_refl eq_refl).
Defined.

(** * The metadata of a JSON document *)

Lemma lookup_copy_fields_other (members : list (str * json))
    (fields : list string) (key : string) :
  ~ List.In key fields ->
  forall m : gmap string meta,
    List.fold_left
      (fun m field =>
         match member (py field) members with
         | Some v => <[field := MJson v]> m
         | None => m
         end) fields m !! key
    = m !! key.
Proof.
  induction fields as [|field rest IH]; intros Hin m; [reflexivity|].
  simpl. rewrite IH by (intros H; apply Hin; now right).
  destruct (member (py field) members); [|reflexivity].
  apply lookup_insert_ne. intros ->. apply Hin. now left.
Qed.

Lemma lookup_copy_fields_in (members : list (str * json))
    (fields : list string) (key : string) :
  List.In key fields ->
  forall m : gmap string meta,
    List.fold_left
      (fun m field =>
         match member (py field) members with
         | Some v => <[field := MJson v]> m
         | None => m
         end) fields m !! key
    = match member (py key) members with
      | Some v => Some (MJson v)
      | None => m !! key
      end.
Proof.
  induction fields as [|field rest IH]; intros Hin m; [destruct Hin|].
  simpl. destruct (List.in_dec string_dec key rest) as [Hr|Hr].
  - rewrite (IH Hr). destruct (member (py key) members) eqn:E; [reflexivity|].
    destruct (member (py field) members) eqn:F; [|reflexivity].
    apply lookup_insert_ne. intros ->. rewrite E in F. discriminate.
  - destruct Hin as [->|Hin]; [|contradiction].
    rewrite (lookup_copy_fields_other members rest key Hr).
    destruct (member (py key) members); [|reflexivity].
    apply lookup_insert_eq.
Qed.

(** X11. The metadata of a JSON document that parses. For an object: its
    keys in order, the structure ["object"], and each of the seven common
    fields exactly when the object has it, with its value; no other member
    of the object is copied, so none can replace a basic key. For an array:
    its length and the structure ["array"]. For a scalar: the basic keys and
    nothing else. *)
Theorem json_metadata_fields (w : World) (file_path : str) :
  (forall members : list (str * json),
     json_load w file_path = Ok (JObject members) ->
     let m := JSONProcessor.extract_metadata w file_path in
     m !! "json_keys" = Some (MKeys (List.map fst members))
     /\ m !! "json_structure" = Some (MStr (py "object"))
     /\ (forall field : string,
           List.In field common_fields ->
           m !! field = MJson <$> member (py field) members)
     /\ (forall key : string,
           ~ List.In key common_fields ->
           key <> "json_keys" -> key <> "json_structure" ->
           m !! key
           = ({[ "file_extension" := MStr (py ".json");
                 "processing_method" := MStr (py "json_parser");
                 "processor" := MStr (py "JSONProcessor") ]}
                : gmap string meta) !! key))
  /\ (forall items : list json,
        json_load w file_path = Ok (JArray items) ->
        JSONProcessor.extract_metadata w file_path
        = <["json_array_length" := MInt (Z.of_nat (List.length items))]>
            (<["json_structure" := MStr (py "array")]>
               {[ "file_extension" := MStr (py ".json");
                  "processing_method" := MStr (py "json_parser");
                  "processor" := MStr (py "JSONProcessor") ]}))
  /\ (forall data : json,
        json_load w file_path = Ok data ->
        is_container data = false ->
        JSONProcessor.extract_metadata w file_path
        = {[ "file_extension" := MStr (py ".json");
             "processing_method" := MStr (py "json_parser");
             "processor" := MStr (py "JSONProcessor") ]}).
Proof.
  unfold JSONProcessor.extract_metadata. split; [|split].
  - intros members ->. cbv zeta. unfold JSONProcessor.copy_fields.
    assert (Hk : ~ List.In "json_keys" common_fields)
      by (unfold common_fields; simpl; intuition discriminate).
    assert (Hs : ~ List.In "json_structure" common_fields)
      by (unfold common_fields; simpl; intuition discriminate).
    split; [|split; [|split]].
    + rewrite (lookup_copy_fields_other members _ _ Hk).
      rewrite lookup_insert_ne by discriminate. apply lookup_insert_eq.
    + rewrite (lookup_copy_fields_other members _ _ Hs).
      apply lookup_insert_eq.
    + intros field Hin. rewrite (lookup_copy_fields_in members _ _ Hin).
      destruct (member (py field) members); [reflexivity|].
      unfold common_fields in Hin. simpl in Hin.
      destruct Hin as [<-|[<-|[<-|[<-|[<-|[<-|[<-|[]]]]]]]]; reflexivity.
    + intros key Hin Hk' Hs'.
      rewrite (lookup_copy_fields_other members _ _ Hin).
      now rewrite !lookup_insert_ne by congruence.
  - now intros items ->.
  - intros data -> H. now destruct data.
Qed.

(** * The text of a JSON document *)

(** Induction on a JSON document, with the property at hand for every
    item of an array and every value of an object. *)
Lemma json_nested_ind (P : json -> Prop) :
  P JNull ->
  (forall b, P (JBool b)) ->
  (forall z, P (JInt z)) ->
  (forall f, P (JFloat f)) ->
  (forall s, P (JString s)) ->
  (forall items, List.Forall P items -> P (JArray items)) ->
  (forall members,
     List.Forall (fun kv => P (snd kv)) members -> P (JObject members)) ->
  forall obj, P obj.
Proof.
  intros Hnull Hbool Hint Hfloat Hstr Harr Hobj.
  fix IH 1. intros [|b|z|f|s|items|members].
  - exact Hnull.
  - apply Hbool.
  - apply Hint.
  - apply Hfloat.
  - apply Hstr.
  - apply Harr. induction items as [|item rest IHrest].
    + constructor.
    + constructor; [apply IH | exact IHrest].
  - apply Hobj. induction members as [|[key v] rest IHrest].
    + constructor.
    + constructor; [apply IH | exact IHrest].
Qed.

Lemma scalars_scalar (v : json) : is_container v = false -> scalars v = 1%nat.
Proof. now destruct v. Qed.

Lemma Forall_startswith_app (p q : str) (lines : list str) :
  List.Forall (fun line => startswith line (p ++ q) = true) lines ->
  List.Forall (fun line => startswith line p = true) lines.
Proof.
  apply List.Forall_impl. intros line. revert line.
  induction p as [|c p IH]; intros line H; [reflexivity|].
  destruct line as [|d line]; [discriminate|].
  simpl in H |- *. apply andb_true_iff in H as [H1 H2].
  now rewrite H1, (IH line H2).
Qed.

(** The lines that [extract_text_recursive] writes: one for each scalar of
    the document, at any depth, each beginning with the prefix handed
    down. *)
Lemma extract_text_recursive_lines (w : World) (obj : json) :
  forall prefix : str,
    List.length (JSONProcessor.extract_text_recursive w obj prefix)
    = scalars obj
    /\ List.Forall (fun line => startswith line prefix = true)
         (JSONProcessor.extract_text_recursive w obj prefix).
Proof.
  induction obj as [|b|z|f|s|items IH|members IH] using json_nested_ind;
    intros prefix.
  1-5: split; [reflexivity|]; constructor; [|constructor];
       apply startswith_refl_app.
  - simpl. generalize 0 as i.
    induction IH as [|item rest Hitem _ IHrest]; intros i.
    + split; [reflexivity | constructor].
    + destruct (IHrest (i + 1)) as [Hn Hp].
      rewrite List.length_app, Hn. split.
      * f_equal. destruct (is_container item) eqn:C;
          [apply Hitem | now rewrite scalars_scalar].
      * apply List.Forall_app. split; [|exact Hp].
        destruct (is_container item).
        -- apply (Forall_startswith_app prefix
                    (py "[" ++ str_of_int i ++ py "] ")).
           apply Hitem.
        -- constructor; [|constructor]. apply startswith_refl_app.
  - simpl. induction IH as [|[key v] rest Hv _ IHrest].
    + split; [reflexivity | constructor].
    + destruct IHrest as [Hn Hp]. simpl in Hv.
      rewrite List.length_app, Hn. split.
      * f_equal. destruct (is_container v) eqn:C;
          [apply Hv | now rewrite scalars_scalar].
      * apply List.Forall_app. split; [|exact Hp].
        destruct (is_container v).
        -- apply (Forall_startswith_app prefix (key ++ py ": ")). apply Hv.
        -- constructor; [|constructor]. apply startswith_refl_app.
Qed.

(** Nesting is prefixing: what is written for a value below a prefix is
    what is written for the value alone, with the prefix in front of each
    part. *)
Lemma extract_text_recursive_prefix (w : World) (obj : json) :
  forall prefix : str,
    JSONProcessor.extract_text_recursive w obj prefix
    = List.map (app prefix) (JSONProcessor.extract_text_recursive w obj []).
Proof.
  induction obj as [|b|z|f|s|items IH|members IH] using json_nested_ind;
    intros prefix; try reflexivity.
  - cbn -[py str_of_int]. generalize 0 as i.
    induction IH as [|item rest Hitem _ IHrest]; intros i; [reflexivity|].
    rewrite List.map_app. f_equal; [|apply IHrest].
    destruct (is_container item); [|reflexivity].
    etransitivity; [apply Hitem|]. symmetry.
    etransitivity; [apply f_equal, Hitem|].
    rewrite List.map_map. apply List.map_ext. intros part.
    now rewrite List.app_assoc.
  - cbn -[py]. induction IH as [|[key v] rest Hv _ IHrest]; [reflexivity|].
    rewrite List.map_app. f_equal; [|apply IHrest]. cbn [snd] in Hv.
    destruct (is_container v); [|reflexivity].
    etransitivity; [apply Hv|]. symmetry.
    etransitivity; [apply f_equal, Hv|].
    rewrite List.map_map. apply List.map_ext. intros part.
    now rewrite List.app_assoc.
Qed.

Lemma extract_text_recursive_scalar (w : World) (v : json) (prefix : str) :
  is_container v = false ->
  JSONProcessor.extract_text_recursive w v prefix
  = [prefix ++ format_value w v].
Proof. now destruct v. Qed.

Lemma extract_text_recursive_object (w : World)
    (members : list (str * json)) :
  JSONProcessor.extract_text_recursive w (JObject members) []
  = List.flat_map
      (fun member =>
         List.map (app (fst member ++ py ": "))
           (JSONProcessor.extract_text_recursive w (snd member) []))
      members.
Proof.
  cbn -[py]. induction members as [|[key v] rest IH]; [reflexivity|].
  cbn -[py JSONProcessor.extract_text_recursive] in *. rewrite IH. f_equal.
  destruct (is_container v) eqn:C.
  - apply extract_text_recursive_prefix.
  - rewrite (extract_text_recursive_scalar w v [] C). simpl List.map.
    now rewrite <- List.app_assoc.
Qed.

Lemma extract_text_recursive_array (w : World) (items : list json) :
  JSONProcessor.extract_text_recursive w (JArray items) []
  = List.concat
      (imap
         (fun (i : nat) (item : json) =>
            List.map (app (py "[" ++ str_of_int (Z.of_nat i) ++ py "] "))
              (JSONProcessor.extract_text_recursive w item []))
         items).
Proof.
  transitivity
    (List.concat
       (imap
          (fun (i : nat) (item : json) =>
             List.map
               (app (py "[" ++ str_of_int (Z.of_nat (0 + i)) ++ py "] "))
               (JSONProcessor.extract_text_recursive w item []))
          items)); [|reflexivity].
  cbn -[py str_of_int Nat.add Z.of_nat].
  change 0 with (Z.of_nat 0). generalize 0%nat as n.
  induction items as [|item rest IH]; intros n; [reflexivity|].
  cbn -[py str_of_int JSONProcessor.extract_text_recursive Nat.add Z.of_nat].
  replace (Z.of_nat n + 1) with (Z.of_nat (S n)) by lia.
  rewrite (IH (S n)). f_equal.
  - rewrite Nat.add_0_r. destruct (is_container item) eqn:C.
    + apply extract_text_recursive_prefix.
    + rewrite (extract_text_recursive_scalar w item [] C). simpl List.map.
      now rewrite <- !List.app_assoc.
  - f_equal. apply imap_ext. intros i x _.
    cbn -[py str_of_int Nat.add Z.of_nat].
    now replace (n + S i)%nat with (S n + i)%nat by lia.
Qed.

(** Parts without a line break, joined by line breaks, give as many lines
    as there are parts. *)
Lemma count_join_breaks (parts : list str) :
  List.Forall (fun part => ~ List.In 10%N part) parts ->
  parts <> [] ->
  S (List.count_occ N.eq_dec (join 10%N parts) 10%N) = List.length parts.
Proof.
  induction 1 as [|part rest Hp _ IH]; intros Hne; [now elim Hne|].
  pose proof (proj1 (List.count_occ_not_In N.eq_dec part 10%N) Hp) as H0.
  destruct rest as [|part2 rest].
  - simpl. f_equal. exact H0.
  - rewrite join_cons by discriminate.
    specialize (IH ltac:(discriminate)).
    rewrite List.count_occ_app, List.count_occ_cons_eq by reflexivity.
    unfold str, char in *. simpl List.length in *. lia.
Qed.

(** X12. The text of a JSON document that parses is its parts joined by
    line breaks, one part for each scalar of the document at any depth,
    so that the text has one line for each scalar when no part holds a
    line break. The parts of an object are the parts of its values, in
    the order of the keys, each with the key and [": "] in front; the
    parts of an array are those of its items, each with the index of the
    item, from 0, between brackets and a space in front; a scalar is one
    part, as it is written. A file that does not parse gives the empty
    text, never an exception. *)
Theorem json_text_lines (w : World) (file_path : str) :
  (forall data : json,
     json_load w file_path = Ok data ->
     JSONProcessor.extract_text w file_path
     = Ok (join 10%N (JSONProcessor.extract_text_recursive w data []))
     /\ List.length (JSONProcessor.extract_text_recursive w data [])
        = scalars data
     /\ (List.Forall (fun part => ~ List.In 10%N part)
           (JSONProcessor.extract_text_recursive w data []) ->
         scalars data <> 0%nat ->
         S (List.count_occ N.eq_dec
              (join 10%N (JSONProcessor.extract_text_recursive w data []))
              10%N)
         = scalars data))
  /\ (forall members : list (str * json),
        JSONProcessor.extract_text_recursive w (JObject members) []
        = List.flat_map
            (fun member =>
               List.map (app (fst member ++ py ": "))
                 (JSONProcessor.extract_text_recursive w (snd member) []))
            members)
  /\ (forall items : list json,
        JSONProcessor.extract_text_recursive w (JArray items) []
        = List.concat
            (imap
               (fun (i : nat) (item : json) =>
                  List.map
                    (app (py "[" ++ str_of_int (Z.of_nat i) ++ py "] "))
                    (JSONProcessor.extract_text_recursive w item []))
               items))
  /\ (forall v : json,
        is_container v = false ->
        JSONProcessor.extract_text_recursive w v [] = [format_value w v])
  /\ (forall e : exn,
        json_load w file_path = Raise e ->
        JSONProcessor.extract_text w file_path = Ok []).
Proof.
  split; [|split; [|split; [|split]]].
  - intros data E. unfold JSONProcessor.extract_text. rewrite E.
    pose proof (proj1 (extract_text_recursive_lines w data [])) as Hn.
    split; [reflexivity|]. split; [exact Hn|].
    intros Hp Hs. rewrite <- Hn. apply count_join_breaks; [exact Hp|].
    intros E0. rewrite E0 in Hn. now apply Hs.
  - apply extract_text_recursive_object.
  - apply extract_text_recursive_array.
  - intros v C. apply (extract_text_recursive_scalar w v [] C).
  - intros e E. unfold JSONProcessor.extract_text. now rewrite E.
Qed.

Lemma extract_text_recursive_none (w : World) (obj : json) (prefix : str) :
  scalars obj = 0%nat -> JSONProcessor.extract_text_recursive w obj prefix = [].
Proof.
  intros H. apply List.length_zero_iff_nil.
  now rewrite (proj1 (extract_text_recursive_lines w obj prefix)).
Qed.

(** X13. A JSON file that does not parse, or whose document holds no scalar
    at any depth (as [{}], [[]] or [{"a": [], "b": {}}]), is rejected by
    [process_document] although its path and its size are in order. *)
Theorem json_without_text_rejected (self : DocumentProcessorManager)
    (w : World) (file_path : str) :
  get_processor w (path_str (Path file_path)) = Some JSON ->
  (exists e, json_load w (path_str (Path file_path)) = Raise e)
  \/ (exists data,
        json_load w (path_str (Path file_path)) = Ok data
        /\ scalars data = 0%nat) ->
  snd (process_document self w file_path) = Ok rejected
  \/ exists e, _is_safe_path w (Path file_path) = Raise e.
Proof.
  intros Hp Hload. unfold process_document.
  destruct (_is_safe_path w (Path file_path)) as [[|]|e];
    [|now left | right; now exists e].
  left. unfold read_document.
  destruct (stat_size w (path_str (Path file_path))) as [n|e]; [|reflexivity].
  destruct (n >? max_file_size self); [reflexivity|].
  rewrite Hp. unfold JSONProcessor.extract_text.
  destruct Hload as [[e ->]|(data & -> & H0)]; [reflexivity|].
  now rewrite (extract_text_recursive_none w data [] H0).
Qed.

Lemma json_without_text_rejected_witness :
  snd (process_document (manager 1000 200)
         (json_world (JObject [(py "a", JArray []); (py "b", JObject [])])
            (fun _ => py "null"))
         (py "/data/empty.json")) = Ok rejected
  \/ exists e,
       _is_safe_path
         (json_world (JObject [(py "a", JArray []); (py "b", JObject [])])
            (fun _ => py "null"))
         (Path (py "/data/empty.json")) = Raise e.
Proof.
  apply (json_without_text_rejected (manager 1000 200)
           (json_world (JObject [(py "a", JArray []); (py "b", JObject [])])
              (fun _ => py "null"))
           (py "/data/empty.json")).
  - reflexivity.
  - right. eexists. split; reflexivity.
Defined.

(** * What the ingestion endpoint stores *)

Lemma chunk_text_not_nil (self : DocumentProcessorManager) (text : str)
    (arg : option Z) :
  truthy (strip text) = true -> chunk_text self text arg <> [].
Proof.
  intros B E. pose proof (chunk_text_weight self text arg B) as H.
  rewrite E in H. change (weight []) with 0 in H.
  pose proof (len_nonneg (clean_text text)). lia.
Qed.

Lemma batch_chunks_contents (metadata : gmap string meta) (file_name : str)
    (total : Z) (chunks : list str) :
  forall i : Z,
    List.map fst (batch_chunks metadata file_name total i chunks) = chunks.
Proof.
  induction chunks as [|c rest IH]; intros i; [reflexivity|].
  simpl. now rewrite IH.
Qed.

Lemma batch_chunks_nth (metadata : gmap string meta) (file_name : str)
    (total : Z) (chunks : list str) :
  forall (i : Z) (k : nat) (chunk : str) (md : gmap string meta),
    List.nth_error (batch_chunks metadata file_name total i chunks) k
    = Some (chunk, md) ->
    List.nth_error chunks k = Some chunk
    /\ md = chunk_metadata metadata file_name total (i + Z.of_nat k).
Proof.
  induction chunks as [|c rest IH]; intros i k chunk md H.
  - destruct k; discriminate.
  - destruct k as [|k]; simpl in H.
    + injection H as <- <-. split; [reflexivity|]. now rewrite Z.add_0_r.
    + destruct (IH (i + 1) k chunk md H) as [H1 H2]. split; [exact H1|].
      rewrite H2. f_equal. lia.
Qed.

(** The fields that the endpoint writes on a chunk win over those of the
    document; every other key of the document is kept. *)
Lemma chunk_metadata_lookup (metadata : gmap string meta) (file_name : str)
    (total i : Z) :
  let document_id := default (MStr file_name) (metadata !! "document_id") in
  let m := chunk_metadata metadata file_name total i in
  m !! "chunk_index" = Some (MInt i)
  /\ m !! "total_chunks" = Some (MInt total)
  /\ m !! "file_name" = Some (MStr file_name)
  /\ m !! "document_id" = Some document_id
  /\ m !! "chunk_id" = Some (MChunkId document_id i)
  /\ forall key : string,
       key <> "chunk_index" -> key <> "total_chunks" -> key <> "file_name" ->
       key <> "document_id" -> key <> "chunk_id" ->
       m !! key = metadata !! key.
Proof.
  cbv zeta. unfold chunk_metadata. repeat split.
  - rewrite !lookup_insert_ne by discriminate. apply lookup_insert_eq.
  - rewrite !lookup_insert_ne by discriminate. apply lookup_insert_eq.
  - rewrite !lookup_insert_ne by discriminate. apply lookup_insert_eq.
  - rewrite !lookup_insert_ne by discriminate. apply lookup_insert_eq.
  - apply lookup_insert_eq.
  - intros key H1 H2 H3 H4 H5. now rewrite !lookup_insert_ne by congruence.
Qed.

Lemma process_document_success (self : DocumentProcessorManager)
    (w : World) (file_path : str) (text : str) (metadata : gmap string meta) :
  snd (process_document self w file_path) = Ok (text, metadata, true) ->
  truthy (strip text) = true
  /\ has_basic_keys metadata
  /\ _is_safe_path w (Path file_path) = Ok true
  /\ exists n, stat_size w (path_str (Path file_path)) = Ok n
               /\ n <= max_file_size self.
Proof.
  unfold process_document.
  destruct (_is_safe_path w (Path file_path)) as [[|]|e] eqn:S.
  - pose proof (read_document_outcome self w (Path file_path)) as H.
    destruct (read_document self w (Path file_path)) as [calls d].
    cbn [snd] in *. intros [= ->].
    destruct H as [H|(text' & metadata' & H1 & H2 & H3 & H4)];
      [discriminate|].
    injection H1 as <- <-. exact (conj H2 (conj H3 (conj eq_refl H4))).
  - cbn [snd]. discriminate.
  - discriminate.
Qed.

(** What [process_upload] stores for one file. *)
Lemma process_upload_stores (self : DocumentProcessorManager) (w : World)
    (f : UploadFile) (tmp_file_path : str) (b : batch) :
  process_upload self w f tmp_file_path = Ok (Some b) ->
  exists (text : str) (metadata : gmap string meta),
    snd (process_document self w tmp_file_path) = Ok (text, metadata, true)
    /\ b = batch_chunks metadata (filename f)
             (Z.of_nat
                (List.length (chunk_text self text (Some (chunk_size self)))))
             0 (chunk_text self text (Some (chunk_size self)))
    /\ vector_insert w b = Ok tt.
Proof.
  unfold process_upload.
  destruct (snd (process_document self w tmp_file_path))
    as [[[text metadata] ok]|e]; simpl; [|discriminate].
  destruct ok; simpl; [|discriminate].
  destruct (truthy (strip text)); [|discriminate].
  destruct (vector_insert w _) as [[]|e] eqn:V; simpl; [|discriminate].
  intros [= <-]. now exists text, metadata.
Qed.

(** Every batch that [ingest] stores. *)
Lemma ingest_stored_from (self : DocumentProcessorManager) (w : World)
    (files : list UploadFile) (b : batch) :
  List.In b (snd (ingest self w files)) ->
  exists (f : UploadFile) (prefix : str),
    List.In f files
    /\ oversize f (max_file_size self) = false
    /\ temp_prefix w f = Ok prefix
    /\ copy_upload w f (prefix ++ py "_" ++ filename f) = Ok tt
    /\ process_upload self w f (prefix ++ py "_" ++ filename f) = Ok (Some b).
Proof.
  induction files as [|f rest IH]; [intros []|].
  rewrite ingest_cons. cbn [snd]. intros H.
  apply List.in_app_or in H as [H|H].
  - exists f. unfold ingest_alone, ingest_file in H.
    destruct (oversize f (max_file_size self)) eqn:O; [destruct H|].
    destruct (temp_prefix w f) as [prefix|e]; cbn [bind snd] in H;
      [|destruct H].
    exists prefix.
    destruct (copy_upload w f (prefix ++ py "_" ++ filename f)) as [[]|e];
      cbn [bind snd] in H; [|destruct H].
    destruct (process_upload self w f (prefix ++ py "_" ++ filename f))
      as [[b'|]|e]; cbn [snd app] in H; try (now destruct H).
    destruct H as [<-|[]]. repeat split; try reflexivity. now left.
  - destruct (IH H) as (f' & prefix & Hin & Ho & Hp & Hc & Hu).
    exists f', prefix. repeat split; try assumption. now right.
Qed.

(** X14. A batch in the vector store after a run of the endpoint comes from
    one of the uploaded files: a file that passed the size check, whose name
    holds no two dots in a row, and whose temporary copy was written and
    accepted by [process_document]. The batch is not empty and holds the
    chunks of the text of that document, in order; the store accepted it;
    chunk [k] has the index [k], the number of chunks of the batch, the name
    of the upload and the basic keys of the document. *)
Theorem stored_batches_shape (self : DocumentProcessorManager) (w : World)
    (files : list UploadFile) (b : batch) :
  List.In b (snd (ingest self w files)) ->
  exists (f : UploadFile) (tmp_file_path text : str)
         (metadata : gmap string meta),
    List.In f files
    /\ oversize f (max_file_size self) = false
    /\ has_dotdot (filename f) = false
    /\ temp_copy w f = Ok tmp_file_path
    /\ snd (process_document self w tmp_file_path) = Ok (text, metadata, true)
    /\ List.map fst b = chunk_text self text (Some (chunk_size self))
    /\ b <> []
    /\ vector_insert w b = Ok tt
    /\ forall (k : nat) (chunk : str) (md : gmap string meta),
         List.nth_error b k = Some (chunk, md) ->
         md !! "chunk_index" = Some (MInt (Z.of_nat k))
         /\ md !! "total_chunks" = Some (MInt (Z.of_nat (List.length b)))
         /\ md !! "file_name" = Some (MStr (filename f))
         /\ md !! "chunk_id"
            = Some (MChunkId
                      (default (MStr (filename f)) (metadata !! "document_id"))
                      (Z.of_nat k))
         /\ has_basic_keys md.
Proof.
  intros Hin.
  destruct (ingest_stored_from self w files b Hin)
    as (f & prefix & Hf & Ho & Hp & Hcopy & Hu).
  destruct (process_upload_stores self w f _ b Hu)
    as (text & metadata & Hd & Hb & Hv).
  destruct (process_document_success self w _ text metadata Hd)
    as (Ht & Hk & Hs & _).
  exists f, (prefix ++ py "_" ++ filename f), text, metadata.
  assert (Hdd : has_dotdot (filename f) = false).
  { destruct (has_dotdot (filename f)) eqn:D; [|reflexivity].
    pose proof (has_dotdot_path (prefix ++ py "_" ++ filename f)) as Hpath.
    rewrite List.app_assoc in Hpath.
    specialize (Hpath (has_dotdot_app_r _ _ D)).
    rewrite <- List.app_assoc in Hpath.
    unfold _is_safe_path in Hs. rewrite Hpath in Hs. discriminate. }
  assert (Hc : List.map fst b = chunk_text self text (Some (chunk_size self)))
    by (rewrite Hb; apply batch_chunks_contents).
  assert (Hlen : List.length b
                 = List.length (chunk_text self text (Some (chunk_size self))))
    by (rewrite <- Hc; now rewrite List.length_map).
  assert (Htmp : temp_copy w f = Ok (prefix ++ py "_" ++ filename f)).
  { unfold temp_copy. rewrite Hp. cbn [bind]. now rewrite Hcopy. }
  repeat (split; [assumption|]).
  split.
  { intros E. rewrite E in Hc. symmetry in Hc.
    exact (chunk_text_not_nil self text _ Ht Hc). }
  split; [exact Hv|].
  intros k chunk md Hk'. rewrite Hlen. rewrite Hb in Hk'.
  apply batch_chunks_nth in Hk' as [_ ->]. rewrite Z.add_0_l.
  pose proof (chunk_metadata_lookup metadata (filename f)
                (Z.of_nat
                   (List.length
                      (chunk_text self text (Some (chunk_size self)))))
                (Z.of_nat k)) as H.
  cbv zeta in H. destruct H as (H1 & H2 & H3 & _ & H5 & _).
  repeat (split; [assumption|]).
  unfold chunk_metadata. now do 5 apply has_basic_keys_insert.
Qed.

Lemma stored_batches_shape_witness :
  exists (f : UploadFile) (tmp_file_path text : str)
         (metadata : gmap string meta),
    List.In f [ {| filename := py "a.txt"; size := Some 9; file := 1 |} ]
    /\ oversize f (max_file_size (manager 1000 200)) = false
    /\ has_dotdot (filename f) = false
    /\ temp_copy (uniform_world (py "One. Two.")) f = Ok tmp_file_path
    /\ snd (process_document (manager 1000 200)
              (uniform_world (py "One. Two.")) tmp_file_path)
       = Ok (text, metadata, true)
    /\ List.map fst
         [(py "One. Two.",
           chunk_metadata
             {[ "file_extension" := MStr (py ".txt");
                "processing_method" := MStr (py "direct_file_read");
                "processor" := MStr (py "none") ]}
             (py "a.txt") 1 0)]
       = chunk_text (manager 1000 200) text (Some 1000)
    /\ [(py "One. Two.",
         chunk_metadata
           {[ "file_extension" := MStr (py ".txt");
              "processing_method" := MStr (py "direct_file_read");
              "processor" := MStr (py "none") ]}
           (py "a.txt") 1 0)] <> []
    /\ vector_insert (uniform_world (py "One. Two."))
         [(py "One. Two.",
           chunk_metadata
             {[ "file_extension" := MStr (py ".txt");
                "processing_method" := MStr (py "direct_file_read");
                "processor" := MStr (py "none") ]}
             (py "a.txt") 1 0)] = Ok tt
    /\ forall (k : nat) (chunk : str) (md : gmap string meta),
         List.nth_error
           [(py "One. Two.",
             chunk_metadata
               {[ "file_extension" := MStr (py ".txt");
                  "processing_method" := MStr (py "direct_file_read");
                  "processor" := MStr (py "none") ]}
               (py "a.txt") 1 0)] k = Some (chunk, md) ->
         md !! "chunk_index" = Some (MInt (Z.of_nat k))
         /\ md !! "total_chunks" = Some (MInt (Z.of_nat 1))
         /\ md !! "file_name" = Some (MStr (filename f))
         /\ md !! "chunk_id"
            = Some (MChunkId
                      (default (MStr (filename f)) (metadata !! "document_id"))
                      (Z.of_nat k))
         /\ has_basic_keys md.
Proof.
  apply (stored_batches_shape (manager 1000 200)
           (uniform_world (py "One. Two."))
           [ {| filename := py "a.txt"; size := Some 9; file := 1 |} ]).
  left. reflexivity.
Defined.

(** * One failure does not stop the run *)

Lemma ingest_alone_steps (self : DocumentProcessorManager) (w : World)
    (f : UploadFile) :
  ingest_alone self w f
  = if oversize f (max_file_size self) then
      ({| processed_files := 0; failed_files := 1;
          errors := [size_error self f] |}, [])
    else
      match temp_copy w f with
      | Raise file_error =>
          ({| processed_files := 0; failed_files := 1;
              errors := [py "File handling error for " ++ filename f
                           ++ py ": " ++ message file_error] |}, [])
      | Ok tmp_file_path =>
          match snd (process_document self w tmp_file_path) with
          | Raise proc_error =>
              ({| processed_files := 0; failed_files := 1;
                  errors := [py "Processing error for " ++ filename f
                               ++ py ": " ++ message proc_error] |}, [])
          | Ok (text, metadata, ok) =>
              if ok && truthy (strip text) then
                match vector_insert w (document_batch self f text metadata)
                with
                | Ok _ =>
                    ({| processed_files := 1; failed_files := 0;
                        errors := [] |},
                     [document_batch self f text metadata])
                | Raise proc_error =>
                    ({| processed_files := 0; failed_files := 1;
                        errors := [py "Processing error for " ++ filename f
                                     ++ py ": " ++ message proc_error] |},
                     [])
                end
              else
                ({| processed_files := 0; failed_files := 1;
                    errors := [py "Failed to extract text from "
                                 ++ filename f] |}, [])
          end
      end.
Proof.
  unfold ingest_alone, ingest_file, temp_copy, process_upload,
    document_batch, size_error.
  destruct (oversize f (max_file_size self)); [reflexivity|].
  destruct (temp_prefix w f) as [prefix|e]; cbn [bind]; [|reflexivity].
  destruct (copy_upload w f (prefix ++ py "_" ++ filename f)) as [[]|e];
    cbn [bind]; [|reflexivity].
  destruct (snd (process_document self w (prefix ++ py "_" ++ filename f)))
    as [[[text metadata] ok]|e]; cbn [bind]; [|reflexivity].
  destruct (ok && truthy (strip text)); [|reflexivity].
  now destruct (vector_insert w _) as [[]|e].
Qed.

Lemma document_batch_chunks (self : DocumentProcessorManager)
    (f : UploadFile) (text : str) (metadata : gmap string meta) :
  List.map fst (document_batch self f text metadata)
  = chunk_text self text (Some (chunk_size self)).
Proof. apply batch_chunks_contents. Qed.

Lemma document_batch_not_nil (self : DocumentProcessorManager)
    (f : UploadFile) (text : str) (metadata : gmap string meta) :
  truthy (strip text) = true -> document_batch self f text metadata <> [].
Proof.
  intros T E.
  apply (chunk_text_not_nil self text (Some (chunk_size self)) T).
  rewrite <- (document_batch_chunks self f text metadata). now rewrite E.
Qed.

(** C7. In a run over several documents every document counts once, as
    processed or as failed; a batch does what its documents do one by one,
    so a document that fails adds one to [failed_files] and one error that
    holds its name, and leaves what the other documents do as it is.

    A document is processed exactly when it passes the size check, its
    temporary copy is written, [process_document] returns its text and
    metadata with success, and the vector store accepts the batch made of
    the chunks of that text; this batch, which is not empty, is then what
    is stored for it. Each failure leaves its own error: a file above the
    ceiling the size error, a temporary copy that cannot be written the
    file handling error, a document that [process_document] rejects the
    error of a text that could not be extracted, an exception of
    [process_document] or of the store the processing error.

    In a batch of three documents of which the second is above the size
    ceiling and the two others are processed when alone, the statistics
    are two processed and one failed, the only error is the size error
    that names the second document, and the batches of the first and of
    the third document, the chunks of their texts, are stored in that
    order. *)
Theorem ingest_failures_isolated (self : DocumentProcessorManager)
    (w : World) :
  (forall files : list UploadFile,
     processed_files (fst (ingest self w files))
     + failed_files (fst (ingest self w files))
     = Z.of_nat (List.length files)
     /\ Z.of_nat (List.length (errors (fst (ingest self w files))))
        = failed_files (fst (ingest self w files))
     /\ Z.of_nat (List.length (snd (ingest self w files)))
        = processed_files (fst (ingest self w files)))
  /\ (forall (before after : list UploadFile) (f : UploadFile),
        ingest self w (before ++ f :: after)
        = (add_stats (fst (ingest self w before))
             (add_stats (fst (ingest_alone self w f))
                (fst (ingest self w after))),
           snd (ingest self w before)
             ++ snd (ingest_alone self w f) ++ snd (ingest self w after)))
  /\ (forall f : UploadFile,
        (exists b : batch,
           ingest_alone self w f
           = ({| processed_files := 1; failed_files := 0; errors := [] |},
              [b]))
        \/ (exists msg : str,
              mentions msg (filename f)
              /\ ingest_alone self w f
                 = ({| processed_files := 0; failed_files := 1;
                       errors := [msg] |}, [])))
  /\ (forall d1 d2 d3 : UploadFile,
        oversize d2 (max_file_size self) = true ->
        processed_files (fst (ingest_alone self w d1)) = 1 ->
        processed_files (fst (ingest_alone self w d3)) = 1 ->
        ingest self w [d1; d2; d3]
        = ({| processed_files := 2; failed_files := 1;
              errors := [size_error self d2] |},
           snd (ingest_alone self w d1) ++ snd (ingest_alone self w d3))
        /\ mentions (size_error self d2) (filename d2)
        /\ success (fst (ingest_documents self w [d1; d2; d3])) = true
        /\ response_processed_files
             (fst (ingest_documents self w [d1; d2; d3])) = 2
        /\ response_failed_files
             (fst (ingest_documents self w [d1; d2; d3])) = 1
        /\ response_errors (fst (ingest_documents self w [d1; d2; d3]))
           = [size_error self d2])
  /\ (forall (f : UploadFile) (tmp_file_path text : str)
             (metadata : gmap string meta),
        oversize f (max_file_size self) = false ->
        temp_copy w f = Ok tmp_file_path ->
        snd (process_document self w tmp_file_path)
        = Ok (text, metadata, true) ->
        vector_insert w (document_batch self f text metadata) = Ok tt ->
        ingest_alone self w f
        = ({| processed_files := 1; failed_files := 0; errors := [] |},
           [document_batch self f text metadata])
        /\ document_batch self f text metadata <> []
        /\ List.map fst (document_batch self f text metadata)
           = chunk_text self text (Some (chunk_size self)))
  /\ (forall f : UploadFile,
        processed_files (fst (ingest_alone self w f)) = 1 ->
        exists (tmp_file_path text : str) (metadata : gmap string meta),
          oversize f (max_file_size self) = false
          /\ temp_copy w f = Ok tmp_file_path
          /\ snd (process_document self w tmp_file_path)
             = Ok (text, metadata, true)
          /\ vector_insert w (document_batch self f text metadata) = Ok tt
          /\ snd (ingest_alone self w f)
             = [document_batch self f text metadata])
  /\ (forall f : UploadFile,
        oversize f (max_file_size self) = true ->
        ingest_alone self w f
        = ({| processed_files := 0; failed_files := 1;
              errors := [size_error self f] |}, []))
  /\ (forall (f : UploadFile) (e : exn),
        oversize f (max_file_size self) = false ->
        temp_copy w f = Raise e ->
        ingest_alone self w f
        = ({| processed_files := 0; failed_files := 1;
              errors := [py "File handling error for " ++ filename f
                           ++ py ": " ++ message e] |}, []))
  /\ (forall (f : UploadFile) (tmp_file_path : str),
        oversize f (max_file_size self) = false ->
        temp_copy w f = Ok tmp_file_path ->
        (forall (text : str) (metadata : gmap string meta) (ok : bool),
           snd (process_document self w tmp_file_path)
           = Ok (text, metadata, ok) ->
           ok && truthy (strip text) = false ->
           ingest_alone self w f
           = ({| processed_files := 0; failed_files := 1;
                 errors := [py "Failed to extract text from "
                              ++ filename f] |}, []))
        /\ (forall e : exn,
              snd (process_document self w tmp_file_path) = Raise e ->
              ingest_alone self w f
              = ({| processed_files := 0; failed_files := 1;
                    errors := [py "Processing error for " ++ filename f
                                 ++ py ": " ++ message e] |}, []))
        /\ (forall (text : str) (metadata : gmap string meta) (e : exn),
              snd (process_document self w tmp_file_path)
              = Ok (text, metadata, true) ->
              vector_insert w (document_batch self f text metadata)
              = Raise e ->
              ingest_alone self w f
              = ({| processed_files := 0; failed_files := 1;
                    errors := [py "Processing error for " ++ filename f
                                 ++ py ": " ++ message e] |}, [])))
  /\ (forall (d1 d2 d3 : UploadFile) (tmp1 text1 tmp3 text3 : str)
             (metadata1 metadata3 : gmap string meta),
        oversize d2 (max_file_size self) = true ->
        oversize d1 (max_file_size self) = false ->
        temp_copy w d1 = Ok tmp1 ->
        snd (process_document self w tmp1) = Ok (text1, metadata1, true) ->
        vector_insert w (document_batch self d1 text1 metadata1) = Ok tt ->
        oversize d3 (max_file_size self) = false ->
        temp_copy w d3 = Ok tmp3 ->
        snd (process_document self w tmp3) = Ok (text3, metadata3, true) ->
        vector_insert w (document_batch self d3 text3 metadata3) = Ok tt ->
        ingest self w [d1; d2; d3]
        = ({| processed_files := 2; failed_files := 1;
              errors := [size_error self d2] |},
           [document_batch self d1 text1 metadata1;
            document_batch self d3 text3 metadata3])).
Proof.
  assert (Hok : forall (f : UploadFile) (tmp_file_path text : str)
                       (metadata : gmap string meta),
             oversize f (max_file_size self) = false ->
             temp_copy w f = Ok tmp_file_path ->
             snd (process_document self w tmp_file_path)
             = Ok (text, metadata, true) ->
             vector_insert w (document_batch self f text metadata) = Ok tt ->
             ingest_alone self w f
             = ({| processed_files := 1; failed_files := 0; errors := [] |},
                [document_batch self f text metadata])).
  { intros f tmp text metadata O Ht Hd Hv. rewrite ingest_alone_steps.
    rewrite O, Ht, Hd.
    destruct (process_document_success self w tmp text metadata Hd)
      as [T _].
    rewrite T, Hv. reflexivity. }
  split; [apply ingest_counts|]. split; [|split; [apply ingest_alone_cases|]].
  { intros before after f. rewrite ingest_app, ingest_cons. reflexivity. }
  split.
  { intros d1 d2 d3 Hbig H1 H3.
    assert (E : ingest self w [d1; d2; d3]
                = ({| processed_files := 2; failed_files := 1;
                      errors := [size_error self d2] |},
                   snd (ingest_alone self w d1) ++ snd (ingest_alone self w d3))).
    { rewrite !ingest_cons, (ingest_oversize self w d2 Hbig).
      destruct (ingest_alone_cases self w d1) as [[b1 E1]|(m1 & _ & E1)];
        rewrite E1 in H1 |- *; [|discriminate].
      destruct (ingest_alone_cases self w d3) as [[b3 E3]|(m3 & _ & E3)];
        rewrite E3 in H3 |- *; [|discriminate].
      reflexivity. }
    split; [exact E|]. split; [now eexists _, _|].
    unfold ingest_documents. rewrite E. cbn [fst]. now repeat split. }
  split.
  { intros f tmp text metadata O Ht Hd Hv.
    split; [now apply (Hok f tmp)|].
    destruct (process_document_success self w tmp text metadata Hd)
      as [T _].
    split; [now apply document_batch_not_nil | apply document_batch_chunks]. }
  split.
  { intros f. rewrite ingest_alone_steps.
    destruct (oversize f (max_file_size self)); [discriminate|].
    destruct (temp_copy w f) as [tmp|e]; [|discriminate].
    destruct (snd (process_document self w tmp))
      as [[[text metadata] ok]|e] eqn:Hd; [|discriminate].
    destruct ok; cbn [andb]; [|discriminate].
    destruct (truthy (strip text)); [|discriminate].
    destruct (vector_insert w (document_batch self f text metadata))
      as [[]|e] eqn:Hv; [|discriminate].
    intros _. exists tmp, text, metadata. now repeat split. }
  split.
  { intros f O. rewrite ingest_alone_steps. now rewrite O. }
  split.
  { intros f e O Ht. rewrite ingest_alone_steps. now rewrite O, Ht. }
  split.
  { intros f tmp O Ht. split; [|split].
    - intros text metadata ok Hd B. rewrite ingest_alone_steps.
      now rewrite O, Ht, Hd, B.
    - intros e Hd. rewrite ingest_alone_steps. now rewrite O, Ht, Hd.
    - intros text metadata e Hd Hv. rewrite ingest_alone_steps.
      rewrite O, Ht, Hd.
      destruct (process_document_success self w tmp text metadata Hd)
        as [T _].
      now rewrite T, Hv. }
  intros d1 d2 d3 tmp1 text1 tmp3 text3 metadata1 metadata3
    Hbig O1 Ht1 Hd1 Hv1 O3 Ht3 Hd3 Hv3.
  rewrite !ingest_cons, (ingest_oversize self w d2 Hbig).
  rewrite (Hok d1 tmp1 text1 metadata1 O1 Ht1 Hd1 Hv1).
  rewrite (Hok d3 tmp3 text3 metadata3 O3 Ht3 Hd3 Hv3).
  reflexivity.
Qed.

Lemma ingest_failures_isolated_witness :
  ingest (manager 1000 200) (uniform_world (py "One. Two."))
    [ {| filename := py "a.txt"; size := Some 9; file := 1 |};
      {| filename := py "big.txt"; size := Some 200000000; file := 2 |};
      {| filename := py "c.txt"; size := Some 9; file := 3 |} ]
  = ({| processed_files := 2; failed_files := 1;
        errors :=
          [py "File big.txt exceeds maximum size (104857600 bytes)"] |},
     [ [(py "One. Two.",
         chunk_metadata
           {[ "file_extension" := MStr (py ".txt");
              "processing_method" := MStr (py "direct_file_read");
              "processor" := MStr (py "none") ]}
           (py "a.txt") 1 0)];
       [(py "One. Two.",
         chunk_metadata
           {[ "file_extension" := MStr (py ".txt");
              "processing_method" := MStr (py "direct_file_read");
              "processor" := MStr (py "none") ]}
           (py "c.txt") 1 0)] ]).
Proof.
  destruct (ingest_failures_isolated (manager 1000 200)
              (uniform_world (py "One. Two.")))
    as (_ & _ & _ & _ & _ & _ & _ & _ & _ & H).
  exact (H {| filename := py "a.txt"; size := Some 9; file := 1 |}
           {| filename := py "big.txt"; size := Some 200000000; file := 2 |}
           {| filename := py "c.txt"; size := Some 9; file := 3 |}
           (py "/tmp/tmp1_a.txt") (py "One. Two.")
           (py "/tmp/tmp3_c.txt") (py "One. Two.")
           {[ "file_extension" := MStr (py ".txt");
              "processing_method" := MStr (py "direct_file_read");
              "processor" := MStr (py "none") ]}
           {[ "file_extension" := MStr (py ".txt");
              "processing_method" := MStr (py "direct_file_read");
              "processor" := MStr (py "none") ]}
           eq_refl eq_refl eq_refl eq_refl eq_refl
           eq_refl eq_refl eq_refl eq_refl).
Defined.

(** * What the ingestion endpoint refuses, and what it answers *)

Lemma process_document_rejected_upload (self : DocumentProcessorManager)
    (w : World) (f : UploadFile) (tmp_file_path : str) :
  snd (process_document self w tmp_file_path) = Ok rejected ->
  process_upload self w f tmp_file_path = Ok None.
Proof. intros H. unfold process_upload. now rewrite H. Qed.

(** X15. An upload whose name holds two dots in a row is never stored. When
    it passes the size check and its temporary copy is written, its document
    is not read at all and the error recorded is the one of a document
    without text. *)
Theorem upload_dotdot_refused (self : DocumentProcessorManager) (w : World)
    (stats : Stats) (stored : list batch) (f : UploadFile) :
  has_dotdot (filename f) = true ->
  (exists msg : str,
     ingest_file self w (stats, stored) f = (record_failure stats msg, stored))
  /\ (forall prefix : str,
        oversize f (max_file_size self) = false ->
        temp_prefix w f = Ok prefix ->
        copy_upload w f (prefix ++ py "_" ++ filename f) = Ok tt ->
        process_document self w (prefix ++ py "_" ++ filename f)
        = ([], Ok rejected)
        /\ ingest_file self w (stats, stored) f
           = (record_failure stats
                (py "Failed to extract text from " ++ filename f),
              stored)).
Proof.
  intros D.
  assert (Hdoc : forall prefix : str,
             process_document self w (prefix ++ py "_" ++ filename f)
             = ([], Ok rejected)).
  { intros prefix.
    pose proof (has_dotdot_path (prefix ++ py "_" ++ filename f)) as Hpath.
    rewrite List.app_assoc in Hpath.
    specialize (Hpath (has_dotdot_app_r _ _ D)).
    rewrite <- List.app_assoc in Hpath.
    unfold process_document, _is_safe_path. now rewrite Hpath. }
  split.
  - unfold ingest_file.
    destruct (oversize f (max_file_size self)); [now eexists|].
    destruct (temp_prefix w f) as [prefix|e]; cbn [bind]; [|now eexists].
    destruct (copy_upload w f (prefix ++ py "_" ++ filename f)) as [[]|e];
      cbn [bind]; [|now eexists].
    rewrite (process_document_rejected_upload self w f _
               (f_equal snd (Hdoc prefix))).
    now eexists.
  - intros prefix O Hp Hc. split; [apply Hdoc|].
    unfold ingest_file. rewrite O, Hp. cbn [bind]. rewrite Hc. cbn [bind].
    now rewrite (process_document_rejected_upload self w f _
                   (f_equal snd (Hdoc prefix))).
Qed.

Lemma upload_dotdot_refused_witness :
  (exists msg : str,
     ingest_file (manager 1000 200) (uniform_world (py "One. Two."))
       (no_stats, [])
       {| filename := py "notes..txt"; size := Some 9; file := 1 |}
     = (record_failure no_stats msg, []))
  /\ (forall prefix : str,
        oversize {| filename := py "notes..txt"; size := Some 9; file := 1 |}
          (max_file_size (manager 1000 200)) = false ->
        temp_prefix (uniform_world (py "One. Two."))
          {| filename := py "notes..txt"; size := Some 9; file := 1 |}
        = Ok prefix ->
        copy_upload (uniform_world (py "One. Two."))
          {| filename := py "notes..txt"; size := Some 9; file := 1 |}
          (prefix ++ py "_"
             ++ filename
                  {| filename := py "notes..txt"; size := Some 9; file := 1 |})
        = Ok tt ->
        process_document (manager 1000 200) (uniform_world (py "One. Two."))
          (prefix ++ py "_"
             ++ filename
                  {| filename := py "notes..txt"; size := Some 9; file := 1 |})
        = ([], Ok rejected)
        /\ ingest_file (manager 1000 200) (uniform_world (py "One. Two."))
             (no_stats, [])
             {| filename := py "notes..txt"; size := Some 9; file := 1 |}
           = (record_failure no_stats
                (py "Failed to extract text from "
                   ++ filename
                        {| filename := py "notes..txt"; size := Some 9;
                           file := 1 |}),
              [])).
Proof.
  apply (upload_dotdot_refused (manager 1000 200)
           (uniform_world (py "One. Two.")) no_stats []
           {| filename := py "notes..txt"; size := Some 9; file := 1 |}).
  reflexivity.
Defined.

(** X16. The size check of the endpoint looks at the size that the upload
    reports: an upload that reports none, or zero, passes it whatever it
    holds. If its temporary copy is larger than the ceiling, or cannot be
    measured, [process_document] refuses it and the error recorded is the
    one of a document without text, not the one of a file too large. *)
Theorem upload_size_unreported (self : DocumentProcessorManager) (w : World)
    (stats : Stats) (stored : list batch) (f : UploadFile) (prefix : str) :
  size f = None \/ size f = Some 0 ->
  temp_prefix w f = Ok prefix ->
  copy_upload w f (prefix ++ py "_" ++ filename f) = Ok tt ->
  _is_safe_path w (Path (prefix ++ py "_" ++ filename f)) = Ok true ->
  (exists n,
     stat_size w (path_str (Path (prefix ++ py "_" ++ filename f))) = Ok n
     /\ max_file_size self < n)
  \/ (exists e,
        stat_size w (path_str (Path (prefix ++ py "_" ++ filename f)))
        = Raise e) ->
  oversize f (max_file_size self) = false
  /\ ingest_file self w (stats, stored) f
     = (record_failure stats (py "Failed to extract text from " ++ filename f),
        stored).
Proof.
  intros Hsize Hp Hc Hs Hstat.
  assert (O : oversize f (max_file_size self) = false).
  { unfold oversize. now destruct Hsize as [-> | ->]. }
  split; [exact O|].
  assert (Hdoc : snd (process_document self w (prefix ++ py "_" ++ filename f))
                 = Ok rejected).
  { unfold process_document. rewrite Hs. unfold read_document.
    destruct Hstat as [(n & -> & Hn)|[e ->]]; [|reflexivity].
    destruct (Z.gtb_spec n (max_file_size self)); [reflexivity | lia]. }
  unfold ingest_file. rewrite O, Hp. cbn [bind]. rewrite Hc. cbn [bind].
  now rewrite (process_document_rejected_upload self w f _ Hdoc).
Qed.

Lemma upload_size_unreported_witness :
  oversize {| filename := py "big.txt"; size := None; file := 1 |}
    (max_file_size
       {| chunk_size := 1000; chunk_overlap := 200; max_file_size := 5 |})
  = false
  /\ ingest_file
       {| chunk_size := 1000; chunk_overlap := 200; max_file_size := 5 |}
       (uniform_world (py "One. Two.")) (no_stats, [])
       {| filename := py "big.txt"; size := None; file := 1 |}
     = (record_failure no_stats
          (py "Failed to extract text from "
             ++ filename {| filename := py "big.txt"; size := None; file := 1 |}),
        []).
Proof.
  apply (upload_size_unreported
           {| chunk_size := 1000; chunk_overlap := 200; max_file_size := 5 |}
           (uniform_world (py "One. Two.")) no_stats []
           {| filename := py "big.txt"; size := None; file := 1 |}
           (py "/tmp/tmp1")).
  - now left.
  - reflexivity.
  - reflexivity.
  - reflexivity.
  - left. exists 9. split; [reflexivity | reflexivity].
Defined.

(** X17. The answer of the endpoint. It tells a success exactly when a batch
    was stored. When no file failed the message is the one of a full
    success, also for an empty upload, where [success] is false; when some
    but not all files failed it is the partial one; when files were uploaded
    and all failed it counts them. *)
Theorem ingest_response (self : DocumentProcessorManager) (w : World)
    (files : list UploadFile) :
  let r := fst (ingest_documents self w files) in
  let stored := snd (ingest_documents self w files) in
  let total := Z.of_nat (List.length files) in
  stored = snd (ingest self w files)
  /\ response_processed_files r = Z.of_nat (List.length stored)
  /\ response_processed_files r + response_failed_files r = total
  /\ (success r = true <-> stored <> [])
  /\ (response_failed_files r = 0 ->
      response_message r
      = py "Successfully ingested " ++ str_of_int total ++ py " documents")
  /\ (0 < response_failed_files r -> stored <> [] ->
      response_message r
      = py "Partially successful: "
          ++ str_of_int (response_processed_files r)
          ++ py "/" ++ str_of_int total ++ py " documents ingested")
  /\ (files <> [] -> stored = [] ->
      response_message r
      = py "Failed to ingest any documents. " ++ str_of_int total
          ++ py " files failed").
Proof.
  cbv zeta. unfold ingest_documents.
  destruct (ingest_counts self w files) as (H1 & H2 & H3).
  destruct (ingest self w files) as [stats stored].
  cbn [fst snd success response_message response_processed_files
       response_failed_files] in *.
  assert (Hnil : stored <> [] <-> 0 < processed_files stats).
  { rewrite <- H3. destruct stored; simpl List.length; [|split; [lia|easy]].
    split; [easy | lia]. }
  split; [reflexivity|]. split; [now rewrite H3|]. split; [exact H1|].
  split; [|split; [|split]].
  - rewrite Hnil. destruct (Z.gtb_spec (processed_files stats) 0);
      split; try easy; lia.
  - intros F.
    assert (E : processed_files stats = Z.of_nat (List.length files)) by lia.
    rewrite E, Z.eqb_refl. reflexivity.
  - intros F S. apply Hnil in S.
    destruct (Z.eqb_spec (processed_files stats) (Z.of_nat (List.length files)));
      [lia|].
    destruct (Z.gtb_spec (processed_files stats) 0); [reflexivity | lia].
  - intros Hf S.
    assert (P : processed_files stats = 0)
      by (rewrite <- H3, S; reflexivity).
    assert (L : 0 < Z.of_nat (List.length files))
      by (destruct files; [easy | simpl List.length; lia]).
    rewrite P in *.
    destruct (Z.eqb_spec 0 (Z.of_nat (List.length files))); [lia|].
    change (0 >? 0) with false. cbv iota.
    replace (failed_files stats) with (Z.of_nat (List.length files)) by lia.
    reflexivity.
Qed.

(** * What the score normalizer raises *)

Lemma float_eqb_leb (x y : float) :
  PrimFloat.eqb x y = true -> PrimFloat.leb x y = true.
Proof.
  rewrite FloatAxioms.eqb_spec, FloatAxioms.leb_spec.
  unfold SpecFloat.SFeqb, SpecFloat.SFleb.
  now destruct (SpecFloat.SFcompare (Prim2SF x) (Prim2SF y)) as [[| |]|].
Qed.

Section NormalizerErrors.

Variable float_of_str : str -> option float.

Lemma to_float_raises (score : value) (e : exn) :
  to_float float_of_str score = Raise e ->
  kind e = ValueError \/ kind e = TypeError \/ kind e = OverflowError.
Proof.
  destruct score as [|s|b|z|f|l]; simpl.
  - intros [= <-]. now right; left.
  - destruct (float_of_str s); [discriminate|]. intros [= <-]. now left.
  - discriminate.
  - unfold int_to_float. cbv zeta.
    destruct (PrimFloat.eqb _ infinity); [|discriminate].
    intros [= <-]. now right; right.
  - discriminate.
  - intros [= <-]. now right; left.
Qed.

(** X18. The division of the normalizer never fails: a score that converts
    to zero has been answered before. So the normalizer raises exactly when
    the conversion of the score by [float] raises another exception than
    [ValueError], and then it raises that exception; and what it returns is
    the score it was given or a float. *)
Theorem normalize_errors (score : value) :
  (forall x : float,
     to_float float_of_str score = Ok x ->
     exists v : value,
       corrected_score float_of_str score = Ok v
       /\ (PrimFloat.eqb x 0%float = true -> v = VFloat 0%float))
  /\ (forall e : exn,
        correct_pgvector_score float_of_str score = Raise e
        <-> is_na score = false /\ is_none score = false
            /\ to_float float_of_str score = Raise e
            /\ kind e <> ValueError)
  /\ (forall v : value,
        correct_pgvector_score float_of_str score = Ok v ->
        v = score \/ exists y : float, v = VFloat y).
Proof.
  split; [|split].
  - intros x Hx. unfold corrected_score. rewrite Hx. cbn [bind].
    destruct (PrimFloat.eqb x infinity) eqn:I.
    + eexists. split; [reflexivity|]. intros Z.
      exfalso. rewrite FloatAxioms.eqb_spec in I, Z. revert I Z.
      unfold SpecFloat.SFeqb.
      change (Prim2SF infinity) with (SpecFloat.S754_infinity false).
      change (Prim2SF 0%float) with (SpecFloat.S754_zero false).
      destruct (Prim2SF x) as [[]|[]| |[] m k]; simpl; discriminate.
    + destruct (PrimFloat.leb x 0%float) eqn:L.
      * eexists. split; [reflexivity | reflexivity].
      * unfold float_div. destruct (PrimFloat.eqb x 0%float) eqn:Z.
        -- apply float_eqb_leb in Z. rewrite Z in L. discriminate.
        -- cbn [bind]. eexists. split; [reflexivity | discriminate].
  - intros e. unfold correct_pgvector_score.
    destruct (is_na score || is_none score) eqn:N.
    { split; [discriminate|]. intros (H1 & H2 & _).
      rewrite H1, H2 in N. discriminate. }
    apply orb_false_iff in N as [N1 N2].
    destruct (to_float float_of_str score) as [x|e0] eqn:T.
    + assert (H : exists v, corrected_score float_of_str score = Ok v).
      { unfold corrected_score. rewrite T. cbn [bind].
        destruct (PrimFloat.eqb x infinity); [now eexists|].
        destruct (PrimFloat.leb x 0%float) eqn:L; [now eexists|].
        unfold float_div. destruct (PrimFloat.eqb x 0%float) eqn:Z.
        - apply float_eqb_leb in Z. rewrite Z in L. discriminate.
        - now eexists. }
      destruct H as [v ->]. split; [discriminate|].
      intros (_ & _ & H & _). discriminate.
    + assert (H : corrected_score float_of_str score = Raise e0).
      { unfold corrected_score. now rewrite T. }
      rewrite H. pose proof (to_float_raises score e0 T) as K.
      unfold catches. destruct e0 as [k msg]. simpl in K |- *.
      destruct K as [->|[->| ->]]; simpl.
      * split; [discriminate|]. intros (_ & _ & [= <-] & Hk). now elim Hk.
      * split.
        -- intros [= <-]. repeat split; try assumption. discriminate.
        -- now intros (_ & _ & [= <-] & _).
      * split.
        -- intros [= <-]. repeat split; try assumption. discriminate.
        -- now intros (_ & _ & [= <-] & _).
  - intros v. unfold correct_pgvector_score.
    destruct (is_na score || is_none score).
    { intros [= <-]. now left. }
    unfold corrected_score.
    destruct (to_float float_of_str score) as [x|e0]; cbn [bind].
    + destruct (PrimFloat.eqb x infinity); [intros [= <-]; right; now eexists|].
      destruct (PrimFloat.leb x 0%float); [intros [= <-]; right; now eexists|].
      unfold float_div. destruct (PrimFloat.eqb x 0%float).
      * unfold raise, catches. simpl. intros [= <-]. now left.
      * cbn [bind]. intros [= <-]. right. now eexists.
    + destruct (catches _ _); [|discriminate]. intros [= <-]. now left.
Qed.

End NormalizerErrors.

(** * The retrieval step of the query endpoint *)

Lemma score_at_missing (scores : list value) (i : nat) :
  (List.length scores <= i)%nat -> Query.score_at scores i = VStr (py "N/A").
Proof.
  intros H. unfold Query.score_at.
  destruct (Nat.ltb_spec i (List.length scores)); [lia | reflexivity].
Qed.

Lemma score_at_given (scores : list value) (i : nat) (s : value) :
  List.nth_error scores i = Some s -> Query.score_at scores i = s.
Proof.
  intros H. unfold Query.score_at.
  assert (L : (i < List.length scores)%nat)
    by (apply List.nth_error_Some; now rewrite H).
  destruct (Nat.ltb_spec i (List.length scores)); [|lia].
  now apply List.nth_error_nth.
Qed.

Lemma chunk_metadata_list_nth (float_of_str : str -> option float)
    (pgvector : bool) (scores : list value) (chunks : list VectorIO.Chunk) :
  forall (i : nat) (infos : list Query.chunk_info),
    Query.chunk_metadata_list float_of_str pgvector scores i chunks = Ok infos ->
    List.length infos = List.length chunks
    /\ forall (k : nat) (info : Query.chunk_info),
         List.nth_error infos k = Some info ->
         exists chunk : VectorIO.Chunk,
           List.nth_error chunks k = Some chunk
           /\ Query.chunk_index info = Z.of_nat (i + k) + 1
           /\ Query.source_file_name info
              = default (MStr []) (VectorIO.metadata chunk !! "file_name")
           /\ (if pgvector
               then correct_pgvector_score float_of_str
                      (Query.score_at scores (i + k))
               else Ok (Query.score_at scores (i + k)))
              = Ok (Query.score info).
Proof.
  induction chunks as [|chunk rest IH]; intros i infos H.
  - injection H as <-. split; [reflexivity|]. intros [|k] info; discriminate.
  - cbn [Query.chunk_metadata_list] in H. cbv zeta in H.
    destruct (if pgvector
              then correct_pgvector_score float_of_str (Query.score_at scores i)
              else Ok (Query.score_at scores i)) as [c|e] eqn:C;
      cbn [bind] in H; [|discriminate].
    destruct (Query.chunk_metadata_list float_of_str pgvector scores (S i) rest)
      as [tail|e] eqn:T; cbn [bind] in H; [|discriminate].
    injection H as <-. destruct (IH (S i) tail T) as [Hl Hn].
    split; [simpl; now rewrite Hl|].
    intros [|k] info Hk.
    + injection Hk as <-. exists chunk. rewrite Nat.add_0_r.
      repeat split. exact C.
    + destruct (Hn k info Hk) as (ch & H1 & H2 & H3 & H4).
      exists ch. replace (i + S k)%nat with (S i + k)%nat by lia.
      now repeat split.
Qed.

Lemma chunk_metadata_list_plain (float_of_str : str -> option float)
    (scores : list value) (chunks : list VectorIO.Chunk) :
  forall i : nat,
    exists infos : list Query.chunk_info,
      Query.chunk_metadata_list float_of_str false scores i chunks = Ok infos.
Proof.
  induction chunks as [|chunk rest IH]; intros i; [now eexists|].
  cbn [Query.chunk_metadata_list]. cbv zeta. cbn [bind].
  destruct (IH (S i)) as [tail ->]. now eexists.
Qed.

(** X19. The list of chunk entries that the query endpoint reports has one
    entry for each chunk found, in order and numbered from 1, whatever the
    number of scores: scores beyond the chunks are left out, and a chunk
    without a score gets ["N/A"], with or without the correction for
    pgvector. Without the correction the scores are reported as they came
    and the loop never fails. *)
Theorem chunk_entries_numbered (float_of_str : str -> option float)
    (pgvector : bool) (scores : list value) (chunks : list VectorIO.Chunk) :
  (forall infos : list Query.chunk_info,
     Query.chunk_metadata_list float_of_str pgvector scores 0 chunks
     = Ok infos ->
     List.length infos = List.length chunks
     /\ forall (k : nat) (info : Query.chunk_info),
          List.nth_error infos k = Some info ->
          Query.chunk_index info = Z.of_nat k + 1
          /\ (exists chunk : VectorIO.Chunk,
                List.nth_error chunks k = Some chunk
                /\ Query.source_file_name info
                   = default (MStr []) (VectorIO.metadata chunk !! "file_name"))
          /\ ((List.length scores <= k)%nat ->
              Query.score info = VStr (py "N/A"))
          /\ (forall s : value,
                List.nth_error scores k = Some s ->
                if pgvector
                then correct_pgvector_score float_of_str s
                     = Ok (Query.score info)
                else Query.score info = s))
  /\ (pgvector = false ->
      exists infos : list Query.chunk_info,
        Query.chunk_metadata_list float_of_str pgvector scores 0 chunks
        = Ok infos).
Proof.
  split.
  - intros infos H.
    destruct (chunk_metadata_list_nth float_of_str pgvector scores chunks 0
                infos H) as [Hl Hn].
    split; [exact Hl|]. intros k info Hk.
    destruct (Hn k info Hk) as (chunk & H1 & H2 & H3 & H4).
    rewrite Nat.add_0_l in *.
    split; [exact H2|]. split; [now exists chunk|]. split.
    + intros L. rewrite (score_at_missing scores k L) in H4.
      destruct pgvector; [|now injection H4 as <-].
      unfold correct_pgvector_score in H4. simpl in H4.
      now injection H4 as <-.
    + intros s Hs. rewrite (score_at_given scores k s Hs) in H4.
      destruct pgvector; [exact H4 | now injection H4 as <-].
  - intros ->. apply chunk_metadata_list_plain.
Qed.

Lemma join_str_nil (sep : str) (l : list str) :
  sep <> [] -> join_str sep l = [] -> l = [] \/ l = [[]].
Proof.
  intros Hsep. destruct l as [|x [|y rest]]; simpl.
  - now left.
  - intros ->. now right.
  - intros H. apply List.app_eq_nil in H as [_ H].
    apply List.app_eq_nil in H as [H _]. contradiction.
Qed.

Lemma context_cases (chunks : list VectorIO.Chunk) :
  truthy (Query.context chunks) = true
  /\ (chunks = [] \/ (exists chunk, chunks = [chunk]
                                    /\ VectorIO.content chunk = []) ->
      Query.context chunks = py "No relevant documents found.")
  /\ (chunks <> [] ->
      (forall chunk, chunks = [chunk] -> VectorIO.content chunk <> []) ->
      Query.context chunks
      = join_str [10%N; 10%N] (List.map VectorIO.content chunks)).
Proof.
  unfold Query.context. cbv zeta.
  destruct (truthy (join_str [10%N; 10%N] (List.map VectorIO.content chunks)))
    eqn:T; cbn [negb].
  - split; [exact T|]. split; [|reflexivity].
    intros [->|(chunk & -> & E)]; [discriminate|].
    simpl in T. rewrite E in T. discriminate.
  - split; [reflexivity|]. split; [reflexivity|].
    intros Hne Hone. exfalso. apply truthy_false in T.
    apply join_str_nil in T as [T|T]; [| |discriminate].
    + destruct chunks; [now apply Hne | discriminate T].
    + destruct chunks as [|chunk [|c2 rest]]; try discriminate T.
      injection T as T. now apply (Hone chunk).
Qed.

(** X20. The context that [query] hands to the model. With RAG switched
    off, which is the default, nothing is retrieved: the context is the
    empty string and no chunk entry is reported. With RAG switched on the
    retrieval fails exactly when the loop over the chunks does, and the
    context it gives is never empty: it is the contents of the chunks
    found, an empty line between two of them, and the fixed sentence stands
    in exactly when that is empty, that is when no chunk was found or the
    only chunk found has no content. *)
Theorem rag_context (float_of_str : str -> option float) (pgvector : bool)
    (results : VectorIO.QueryChunksResponse) :
  Query.retrieve float_of_str false pgvector results = Ok ([], [])
  /\ (forall (context : str) (infos : list Query.chunk_info),
        Query.retrieve float_of_str true pgvector results
        = Ok (context, infos) ->
        Query.chunk_metadata_list float_of_str pgvector
          (VectorIO.scores results) 0 (VectorIO.chunks results) = Ok infos
        /\ truthy context = true
        /\ (VectorIO.chunks results = []
            \/ (exists chunk, VectorIO.chunks results = [chunk]
                              /\ VectorIO.content chunk = []) ->
            context = py "No relevant documents found.")
        /\ (VectorIO.chunks results <> [] ->
            (forall chunk, VectorIO.chunks results = [chunk] ->
                           VectorIO.content chunk <> []) ->
            context
            = join_str [10%N; 10%N]
                (List.map VectorIO.content (VectorIO.chunks results))))
  /\ (forall e : exn,
        Query.retrieve float_of_str true pgvector results = Raise e
        <-> Query.chunk_metadata_list float_of_str pgvector
              (VectorIO.scores results) 0 (VectorIO.chunks results)
            = Raise e).
Proof.
  unfold Query.retrieve. split; [reflexivity|].
  destruct (Query.chunk_metadata_list float_of_str pgvector
              (VectorIO.scores results) 0 (VectorIO.chunks results))
    as [l|e0]; cbn [bind]; split.
  - intros context infos [= <- <-]. split; [reflexivity|].
    apply context_cases.
  - intros e. split; discriminate.
  - discriminate.
  - intros e. split; now intros [= <-].
Qed.

(** * The event stream of the query endpoint *)

Section StreamFacts.

Variable Content : Type.
Variable content_truthy : Content -> bool.
Variable dumps_token : Content -> result str.
Variable dumps_metadata : list Query.chunk_info -> result str.
Variable dumps_error : str -> str.

(** The loop yields tokens only: one for each chunk whose content is
    truthy, in order, up to the first failure. *)
Lemma tokens_are_tokens (items : list (result (AgentChunk Content))) :
  exists contents : list Content,
    List.Forall (fun c => content_truthy c = true) contents
    /\ List.Forall2 (fun c ev => exists j, dumps_token c = Ok j /\ ev = Token j)
         contents (fst (tokens Content content_truthy dumps_token items))
    /\ (snd (tokens Content content_truthy dumps_token items) = None ->
        contents
        = List.filter content_truthy
            (List.flat_map
               (fun item =>
                  match item with
                  | Ok chunk =>
                      match chunk_content Content chunk with
                      | Some c => [c]
                      | None => []
                      end
                  | Raise _ => []
                  end) items)
        /\ List.Forall (fun item => exists chunk, item = Ok chunk) items).
Proof.
  induction items as [|[chunk|e] rest (contents & H1 & H2 & H3)].
  - exists []. cbn [tokens fst snd List.flat_map List.filter].
    split; [constructor|]. split; [constructor|].
    intros _. split; [reflexivity | constructor].
  - cbn [tokens List.flat_map].
    destruct (chunk_content Content chunk) as [c|].
    + cbn [app List.filter]. destruct (content_truthy c) eqn:T.
      * destruct (dumps_token c) as [j|e] eqn:D.
        -- destruct (tokens Content content_truthy dumps_token rest)
             as [events err].
           cbn [fst snd] in *. exists (c :: contents).
           split; [now constructor|]. split.
           ++ constructor; [now exists j | exact H2].
           ++ intros E. destruct (H3 E) as [-> H4].
              split; [reflexivity|]. constructor; [now eexists | exact H4].
        -- exists []. cbn [fst snd]. split; [constructor|].
           split; [constructor | discriminate].
      * exists contents. split; [exact H1|]. split; [exact H2|].
        intros E. destruct (H3 E) as [-> H4].
        split; [reflexivity|]. constructor; [now eexists | exact H4].
    + exists contents. split; [exact H1|]. split; [exact H2|].
      intros E. destruct (H3 E) as [-> H4].
      split; [reflexivity|]. constructor; [now eexists | exact H4].
  - exists []. cbn [fst snd]. split; [constructor|].
           split; [constructor | discriminate].
Qed.

Lemma tokens_no_done (items : list (result (AgentChunk Content))) :
  List.Forall (fun ev => exists j, ev = Token j)
    (fst (tokens Content content_truthy dumps_token items)).
Proof.
  destruct (tokens_are_tokens items) as (contents & _ & H & _).
  induction H as [|c ev l l' (j & _ & ->) _ IH]; constructor;
    [now exists j | exact IH].
Qed.

Lemma sse_stream_parts (agent_output : result (AgentOutput Content))
    (chunk_metadata_list : list Query.chunk_info) :
  exists (events tail : list event),
    create_sse_stream Content content_truthy dumps_token dumps_metadata
      dumps_error agent_output chunk_metadata_list
    = events ++ tail ++ [Done]
    /\ List.Forall (fun ev => exists j, ev = Token j) events
    /\ (tail = []
          /\ chunk_metadata_list = []
        \/ (exists j,
              tail = [Metadata j]
              /\ chunk_metadata_list <> []
              /\ dumps_metadata chunk_metadata_list = Ok j)
        \/ (exists e : exn, tail = [Error (dumps_error (message e))])).
Proof.
  unfold create_sse_stream.
  destruct agent_output as [output|e].
  2: { exists [], [Error (dumps_error (message e))].
       split; [reflexivity|]. split; [constructor|]. right; right.
       now exists e. }
  assert (H : exists (events : list event) (err : option exn),
             match output with
             | AsyncIterable _ items | Iterable _ items =>
                 tokens Content content_truthy dumps_token items
             | NotIterable _ => ([], None)
             end = (events, err)
             /\ List.Forall (fun ev => exists j, ev = Token j) events).
  { destruct output as [items|items|].
    1,2: pose proof (tokens_no_done items) as H;
      destruct (tokens Content content_truthy dumps_token items)
        as [events err];
      now exists events, err.
    exists [], None. split; [reflexivity | constructor]. }
  destruct H as (events & err & -> & H). exists events.
  all: destruct err as [e|];
    [ exists [Error (dumps_error (message e))];
      split; [reflexivity|]; split; [exact H|]; right; right; now exists e |].
  all: destruct chunk_metadata_list as [|info l];
    [ exists []; split; [reflexivity|]; split; [exact H|]; now left |].
  all: destruct (dumps_metadata (info :: l)) as [j|e] eqn:D;
    [ exists [Metadata j]; split; [reflexivity|]; split; [exact H|];
      right; left; exists j; now repeat split
    | exists [Error (dumps_error (message e))];
      split; [reflexivity|]; split; [exact H|]; right; right; now exists e ].
Qed.

(** X21. Whatever the agent hands out, the stream is a run of token events,
    then at most one event that is the metadata or an error, then the
    completion signal, which ends every stream and comes once. The metadata
    are sent only when the list of chunk entries is not empty and nothing
    failed; after an error nothing but the completion signal is sent. The
    last string yielded is [data: [DONE]] and an empty line. *)
Theorem sse_stream_shape (agent_output : result (AgentOutput Content))
    (chunk_metadata_list : list Query.chunk_info) :
  (exists (events tail : list event),
    create_sse_stream Content content_truthy dumps_token dumps_metadata
      dumps_error agent_output chunk_metadata_list
    = events ++ tail ++ [Done]
    /\ List.Forall (fun ev => exists j, ev = Token j) events
    /\ (tail = []
          /\ chunk_metadata_list = []
        \/ (exists j,
              tail = [Metadata j]
              /\ chunk_metadata_list <> []
              /\ dumps_metadata chunk_metadata_list = Ok j)
        \/ (exists e : exn, tail = [Error (dumps_error (message e))])))
  /\ List.last
       (List.map render
          (create_sse_stream Content content_truthy dumps_token
             dumps_metadata dumps_error agent_output chunk_metadata_list))
       []
     = py "data: [DONE]" ++ [10%N; 10%N].
Proof.
  pose proof (sse_stream_parts agent_output chunk_metadata_list) as H.
  split; [exact H|]. destruct H as (events & tail & -> & _).
  rewrite List.app_assoc, List.map_app. apply List.last_last.
Qed.

(** X22. When the agent output is iterated to its end without a failure, the
    tokens sent are those of the chunks whose content is truthy, in the
    order of the output; the text of a delta is taken even when the chunk
    also completes a turn, and a chunk whose delta text is empty sends
    nothing. *)
Theorem sse_tokens_in_order (items : list (result (AgentChunk Content))) :
  snd (tokens Content content_truthy dumps_token items) = None ->
  List.Forall2 (fun c ev => exists j, dumps_token c = Ok j /\ ev = Token j)
    (List.filter content_truthy
       (List.flat_map
          (fun item =>
             match item with
             | Ok chunk =>
                 match delta_text Content chunk with
                 | Some text => [text]
                 | None =>
                     match turn_content Content chunk with
                     | Some (Some content) => [content]
                     | _ => []
                     end
                 end
             | Raise _ => []
             end) items))
    (fst (tokens Content content_truthy dumps_token items)).
Proof.
  intros E. destruct (tokens_are_tokens items) as (contents & _ & H & H3).
  destruct (H3 E) as [-> _]. clear H3 E.
  match goal with
  | H : List.Forall2 _ (List.filter _ (List.flat_map ?f _)) _
    |- List.Forall2 _ (List.filter _ (List.flat_map ?g _)) _ =>
      replace (List.flat_map g items) with (List.flat_map f items); [exact H|]
  end.
  apply List.flat_map_ext. intros [chunk|e]; [|reflexivity].
  unfold chunk_content. destruct (delta_text Content chunk); [reflexivity|].
  now destruct (turn_content Content chunk) as [[|]|].
Qed.

End StreamFacts.

Lemma sse_tokens_in_order_witness :
  List.Forall2
    (fun c ev => exists j, (fun s : str => Ok s) c = Ok j /\ ev = Token j)
    (List.filter truthy
       (List.flat_map
          (fun item =>
             match item with
             | Ok chunk =>
                 match delta_text str chunk with
                 | Some text => [text]
                 | None =>
                     match turn_content str chunk with
                     | Some (Some content) => [content]
                     | _ => []
                     end
                 end
             | Raise _ => []
             end)
          [Ok {| delta_text := Some (py "Hel"); turn_content := None |};
           Ok {| delta_text := Some []; turn_content := Some (Some (py "x")) |};
           Ok {| delta_text := None;
                 turn_content := Some (Some (py "Hello")) |}]))
    (fst (tokens str truthy (fun s => Ok s)
            [Ok {| delta_text := Some (py "Hel"); turn_content := None |};
             Ok {| delta_text := Some [];
                   turn_content := Some (Some (py "x")) |};
             Ok {| delta_text := None;
                   turn_content := Some (Some (py "Hello")) |}])).
Proof.
  apply (sse_tokens_in_order str truthy (fun s => Ok s)).
  reflexivity.
Defined.

(** * The ingestion script *)

Section ScriptFacts.

Variable str_lower : str -> str.
Variable self : DocumentIngestionScript.Self.
Variable w : World.

(** What the script asks of a file before it sends it. *)
Lemma script_validate_cases (stats : DocumentIngestionScript.Report)
    (valid_files : list PurePath) (file_path : PurePath)
    (stats' : DocumentIngestionScript.Report) (valid' : list PurePath) :
  DocumentIngestionScript.validate str_lower self w (stats, valid_files)
    file_path = Ok (stats', valid') ->
  (path_is_file w (path_str file_path) = Ok false
   /\ stats' = stats /\ valid' = valid_files)
  \/ (path_is_file w (path_str file_path) = Ok true
      /\ ((exists msg,
             stats'
             = DocumentIngestionScript.failure
                 (DocumentIngestionScript.counted stats) msg
             /\ valid' = valid_files)
          \/ (stats' = DocumentIngestionScript.counted stats
              /\ valid' = valid_files
              /\ DocumentIngestionScript._is_supported_format str_lower self
                   file_path = false)
          \/ (stats' = DocumentIngestionScript.counted stats
              /\ valid' = valid_files ++ [file_path]
              /\ has_dotdot (path_str file_path) = false
              /\ path_exists w (path_str file_path) = Ok true
              /\ (exists n, stat_size w (path_str file_path) = Ok n
                            /\ n <= DocumentIngestionScript.max_file_size self)
              /\ DocumentIngestionScript._is_supported_format str_lower self
                   file_path = true))).
Proof.
  unfold DocumentIngestionScript.validate.
  destruct (path_is_file w (path_str file_path)) as [[|]|e] eqn:F;
    cbn [bind negb]; [|intros [= <- <-]; now left | discriminate].
  intros H. right. split; [reflexivity|].
  destruct (DocumentIngestionScript._is_safe_path w file_path)
    as [[|]|e] eqn:S; cbn [bind negb] in H; [| |discriminate].
  2: { injection H as <- <-. left. now eexists. }
  assert (Hsafe : has_dotdot (path_str file_path) = false
                  /\ path_exists w (path_str file_path) = Ok true).
  { unfold DocumentIngestionScript._is_safe_path in S.
    destruct (has_dotdot (path_str file_path)); [discriminate|].
    split; [reflexivity|].
    destruct (path_exists w (path_str file_path)) as [[|]|e1];
      cbn [bind negb] in S; [reflexivity | discriminate|].
    destruct (catches _ e1); discriminate. }
  destruct (stat_size w (path_str file_path)) as [n|e].
  2: { injection H as <- <-. left. now eexists. }
  destruct (Z.gtb_spec n (DocumentIngestionScript.max_file_size self)).
  { injection H as <- <-. left. now eexists. }
  destruct (DocumentIngestionScript._is_supported_format str_lower self
              file_path) eqn:Fmt; cbn [negb] in H; injection H as <- <-.
  - right; right. destruct Hsafe as [H1 H2].
    repeat split; try assumption. exists n. split; [reflexivity | lia].
  - right; left. now repeat split.
Qed.

Lemma script_validate_all (all_files : list PurePath) :
  forall (stats0 : DocumentIngestionScript.Report) (valid0 : list PurePath)
         (stats : DocumentIngestionScript.Report) (valid : list PurePath)
         (t0 : Z),
    DocumentIngestionScript.validate_all str_lower self w (stats0, valid0)
      all_files = Ok (stats, valid) ->
    DocumentIngestionScript.total_files stats0 = Some t0 ->
    exists (t : Z) (added : list PurePath),
      DocumentIngestionScript.total_files stats = Some t
      /\ valid = valid0 ++ added
      /\ sublist added all_files
      /\ List.Forall
           (fun file_path =>
              path_is_file w (path_str file_path) = Ok true
              /\ has_dotdot (path_str file_path) = false
              /\ path_exists w (path_str file_path) = Ok true
              /\ (exists n,
                    stat_size w (path_str file_path) = Ok n
                    /\ n <= DocumentIngestionScript.max_file_size self)
              /\ DocumentIngestionScript._is_supported_format str_lower self
                   file_path = true) added
      /\ t <= t0 + Z.of_nat (List.length all_files)
      /\ DocumentIngestionScript.failed_files stats0
         <= DocumentIngestionScript.failed_files stats
      /\ DocumentIngestionScript.failed_files stats
         - DocumentIngestionScript.failed_files stats0
         + Z.of_nat (List.length added) <= t - t0
      /\ Z.of_nat (List.length (DocumentIngestionScript.errors stats))
         - Z.of_nat (List.length (DocumentIngestionScript.errors stats0))
         = DocumentIngestionScript.failed_files stats
           - DocumentIngestionScript.failed_files stats0.
Proof.
  induction all_files as [|file_path rest IH];
    intros stats0 valid0 stats valid t0 H T0.
  - injection H as <- <-. exists t0, [].
    rewrite List.app_nil_r. simpl.
    repeat split; try constructor; try assumption; lia.
  - cbn [DocumentIngestionScript.validate_all] in H.
    destruct (DocumentIngestionScript.validate str_lower self w
                (stats0, valid0) file_path) as [[stats1 valid1]|e] eqn:V;
      cbn [bind] in H; [|discriminate].
    assert (Tc : DocumentIngestionScript.total_files
                   (DocumentIngestionScript.counted stats0) = Some (t0 + 1))
      by (simpl; now rewrite T0).
    apply script_validate_cases in V
      as [(_ & -> & ->)|(Hf & [(msg & -> & ->)|[(-> & -> & _)|
                                  (-> & -> & H1 & H2 & H3 & H4)]])].
    + destruct (IH _ _ _ _ t0 H T0)
        as (t & added & E1 & E2 & E3 & E4 & E5 & E6 & E7 & E8).
      exists t, added. simpl List.length.
      repeat split; try assumption; [now constructor | lia].
    + destruct (IH _ _ _ _ (t0 + 1) H Tc)
        as (t & added & E1 & E2 & E3 & E4 & E5 & E6 & E7 & E8).
      exists t, added. simpl List.length.
      simpl in E6, E7, E8. rewrite List.length_app in E8. simpl in E8.
      repeat split; try assumption; [now constructor | lia..].
    + destruct (IH _ _ _ _ (t0 + 1) H Tc)
        as (t & added & E1 & E2 & E3 & E4 & E5 & E6 & E7 & E8).
      exists t, added. simpl List.length.
      simpl in E6, E7, E8.
      repeat split; try assumption; [now constructor | lia..].
    + destruct (IH _ _ _ _ (t0 + 1) H Tc)
        as (t & added & E1 & E2 & E3 & E4 & E5 & E6 & E7 & E8).
      exists t, (file_path :: added). simpl List.length.
      simpl in E6, E7, E8.
      repeat split; try assumption;
        [now rewrite E2, <- List.app_assoc | now constructor
         | now constructor | lia..].
Qed.


Lemma sublist_Forall_keeps (P : PurePath -> Prop) (l k : list PurePath) :
  sublist l k -> List.Forall P k -> List.Forall P l.
Proof.
  induction 1 as [|x l k _ IH|x l k _ IH]; intros H.
  - constructor.
  - inversion H; subst. constructor; [assumption | now apply IH].
  - inversion H; subst. now apply IH.
Qed.

Lemma script_send_all (env : DocumentIngestionScript.Env)
    (valid_files : list PurePath) :
  forall (tp tf : Z) (errs : list str) (sent : list PurePath)
         (r : result (Z * Z * list str)),
    DocumentIngestionScript.send_all env valid_files (tp, tf, errs)
    = (sent, r) ->
    sent `prefix_of` valid_files
    /\ (valid_files <> [] -> sent <> [])
    /\ forall (tp' tf' : Z) (errs' : list str),
         r = Ok (tp', tf', errs') ->
         sent = valid_files
         /\ exists answers : list DocumentIngestionScript.Report,
              List.Forall2
                (fun file_path answer =>
                   DocumentIngestionScript.send_file_to_api env file_path
                   = Ok answer) sent answers
              /\ tp' = tp + List.fold_right Z.add 0
                             (List.map DocumentIngestionScript.processed_files
                                answers)
              /\ tf' = tf + List.fold_right Z.add 0
                             (List.map DocumentIngestionScript.failed_files
                                answers)
              /\ errs' = errs ++ List.concat
                                   (List.map DocumentIngestionScript.errors
                                      answers).
Proof.
  induction valid_files as [|file_path rest IH]; intros tp tf errs sent r H.
  - injection H as <- <-. split; [reflexivity|]. split; [easy|].
    intros tp' tf' errs' [= <- <- <-]. split; [reflexivity|].
    exists []. simpl. rewrite List.app_nil_r.
    repeat split; try constructor; lia.
  - cbn [DocumentIngestionScript.send_all] in H.
    destruct (DocumentIngestionScript.send_file_to_api env file_path)
      as [answer|e] eqn:A.
    + destruct (DocumentIngestionScript.send_all env rest _) as [sent' r']
        eqn:S.
      injection H as <- <-. destruct (IH _ _ _ _ _ S) as (P & _ & R).
      split; [now apply prefix_cons|]. split; [easy|].
      intros tp' tf' errs' E.
      destruct (R tp' tf' errs' E) as (-> & answers & F & -> & -> & ->).
      split; [reflexivity|]. exists (answer :: answers). simpl.
      rewrite <- List.app_assoc.
      repeat split; try lia. now constructor.
    + injection H as <- <-.
      split; [now apply prefix_cons, prefix_nil|]. split; [easy|].
      discriminate.
Qed.

(** X24. What the script sends and what it reports. Every file handed to the
    admin API passed the validation, and the files are sent in the order
    they were found. The report tells a success exactly when the answers
    count a processed file; when nothing was sent it carries a message and
    no processed file; otherwise its processed files are the sum of those of
    the answers, its failed files the sum of those of the answers and of the
    failures of the validation, and its errors those of the validation
    followed by those of the answers. *)
Theorem script_sends_valid_only (env : DocumentIngestionScript.Env)
    (directory_path : str) (sent : list PurePath)
    (r : result DocumentIngestionScript.Report) :
  DocumentIngestionScript.process_directory str_lower self w env
    directory_path = (sent, r) ->
  List.Forall
    (fun file_path =>
       path_is_file w (path_str file_path) = Ok true
       /\ has_dotdot (path_str file_path) = false
       /\ (exists n,
             stat_size w (path_str file_path) = Ok n
             /\ n <= DocumentIngestionScript.max_file_size self)
       /\ DocumentIngestionScript._is_supported_format str_lower self
            file_path = true) sent
  /\ (forall all_files : list PurePath,
        DocumentIngestionScript.rglob env (path_str (Path directory_path))
        = Ok all_files ->
        sublist sent all_files)
  /\ forall report : DocumentIngestionScript.Report,
       r = Ok report ->
       (DocumentIngestionScript.success report = true
        <-> 0 < DocumentIngestionScript.processed_files report)
       /\ (sent = [] ->
           DocumentIngestionScript.processed_files report = 0
           /\ exists msg, DocumentIngestionScript.message report = Some msg)
       /\ (sent <> [] ->
           exists (answers : list DocumentIngestionScript.Report)
                  (stats : DocumentIngestionScript.Report)
                  (all_files : list PurePath),
             DocumentIngestionScript.rglob env (path_str (Path directory_path))
             = Ok all_files
             /\ DocumentIngestionScript.validate_all str_lower self w
                  (DocumentIngestionScript.initial_stats, []) all_files
                = Ok (stats, sent)
             /\ List.Forall2
                  (fun file_path answer =>
                     DocumentIngestionScript.send_file_to_api env file_path
                     = Ok answer) sent answers
             /\ DocumentIngestionScript.processed_files report
                = List.fold_right Z.add 0
                    (List.map DocumentIngestionScript.processed_files answers)
             /\ DocumentIngestionScript.failed_files report
                = List.fold_right Z.add 0
                    (List.map DocumentIngestionScript.failed_files answers)
                  + DocumentIngestionScript.failed_files stats
             /\ DocumentIngestionScript.errors report
                = DocumentIngestionScript.errors stats
                    ++ List.concat
                         (List.map DocumentIngestionScript.errors answers)
             /\ DocumentIngestionScript.total_files report
                = DocumentIngestionScript.total_files stats).
Proof.
  unfold DocumentIngestionScript.process_directory. cbv zeta.
  set (dir := path_str (Path directory_path)).
  destruct (path_exists w dir) as [[|]|e].
  - destruct (DocumentIngestionScript.rglob env dir) as [all_files|e];
      cbn [bind].
    2: { intros [= <- <-]. split; [constructor|]. split; [discriminate|].
         discriminate. }
    destruct (DocumentIngestionScript.validate_all str_lower self w
                (DocumentIngestionScript.initial_stats, []) all_files)
      as [[stats valid_files]|e] eqn:V.
    2: { intros [= <- <-]. split; [constructor|].
         split; [intros; apply sublist_nil_l | discriminate]. }
    destruct (script_validate_all all_files _ _ _ _ 0 V eq_refl)
      as (t & added & _ & Eadd & Hsub & Hvalid & _).
    simpl in Eadd. subst added.
    destruct valid_files as [|file_path rest].
    { intros [= <- <-]. split; [constructor|].
      split; [intros; apply sublist_nil_l|].
      intros report [= <-].
      cbn [DocumentIngestionScript.success
           DocumentIngestionScript.processed_files
           DocumentIngestionScript.message].
      split; [split; [easy | lia]|].
      split; [intros _; split; [reflexivity | now eexists] | easy]. }
    destruct (DocumentIngestionScript.send_all env (file_path :: rest)
                (0, 0, DocumentIngestionScript.errors stats))
      as [sent' r'] eqn:S.
    intros [= <- <-].
    destruct (script_send_all env _ _ _ _ _ _ S) as (P & Hne & R).
    assert (Hs : sublist sent' (file_path :: rest))
      by (destruct P as [k ->]; now apply sublist_inserts_r).
    split.
    { eapply List.Forall_impl; [|exact (sublist_Forall_keeps _ _ _ Hs Hvalid)].
      intros fp (H1 & H2 & _ & H4 & H5). now repeat split. }
    split.
    { intros l [= <-]. now transitivity (file_path :: rest). }
    intros report E.
    destruct r' as [[[tp tf] errs]|e]; cbn [bind] in E; [|discriminate].
    injection E as <-.
    destruct (R tp tf errs eq_refl) as (-> & answers & F & -> & -> & ->).
    cbn [DocumentIngestionScript.success
         DocumentIngestionScript.processed_files
         DocumentIngestionScript.failed_files DocumentIngestionScript.errors
         DocumentIngestionScript.total_files DocumentIngestionScript.message].
    split.
    { destruct (Z.gtb_spec
                  (0 + List.fold_right Z.add 0
                         (List.map DocumentIngestionScript.processed_files
                            answers)) 0); split; try easy; lia. }
    split; [discriminate|].
    intros _. exists answers, stats, all_files.
    repeat split; try assumption; try reflexivity.
  - intros [= <- <-]. split; [constructor|].
    split; [intros; apply sublist_nil_l|].
    intros report [= <-].
    cbn [DocumentIngestionScript.success
         DocumentIngestionScript.processed_files
         DocumentIngestionScript.message].
    split; [split; [easy | lia]|].
    split; [intros _; split; [reflexivity | now eexists] | easy].
  - intros [= <- <-]. split; [constructor|].
    split; [intros; apply sublist_nil_l | discriminate].
Qed.

End ScriptFacts.


Lemma script_sends_valid_only_witness :
  List.Forall
    (fun file_path =>
       path_is_file (uniform_world (py "One. Two.")) (path_str file_path)
       = Ok true
       /\ has_dotdot (path_str file_path) = false
       /\ (exists n,
             stat_size (uniform_world (py "One. Two.")) (path_str file_path)
             = Ok n
             /\ n <= DocumentIngestionScript.max_file_size sample_script)
       /\ DocumentIngestionScript._is_supported_format lower sample_script
            file_path = true) [Path (py "/data/a.txt")]
  /\ fst (DocumentIngestionScript.process_directory lower sample_script
            (uniform_world (py "One. Two.")) sample_env (py "/data"))
     = [Path (py "/data/a.txt")].
Proof.
  split; [|reflexivity].
  apply (script_sends_valid_only lower sample_script
           (uniform_world (py "One. Two.")) sample_env (py "/data")
           [Path (py "/data/a.txt")]
           (snd (DocumentIngestionScript.process_directory lower sample_script
                   (uniform_world (py "One. Two.")) sample_env (py "/data")))).
  reflexivity.
Defined.
